(** * Codelution extension for Nordcraft: message relay, watches, navigation
      detection, injection and panel state, checked against the scripts.

    The three scripts (content script, side-panel script, background
    worker) are embedded as pure functions over explicit state.  Closures
    installed as listeners are defunctionalised into records that hold the
    variables they capture; [Date.now()] and the page location are inputs. *)

From Stdlib Require Import ZArith Lia Bool Ascii String.
From stdpp Require Import gmap strings list fin_maps pretty.

Local Open Scope Z_scope.
Local Open Scope string_scope.
Local Open Scope list_scope.

(** * JavaScript values *)

Module JS.

(** Numbers are the integers (timestamps in milliseconds, minutes, tab
    ids) and [NaN], which is a value of its own because it is the one
    number that is not identical to itself; fractional numbers are outside
    the model.  [JObj] is a plain data object such as an object literal or
    parsed JSON, in field order, built where it appears: a property that
    reads [JObj] hands out a new object on each read.  [JRef] is a live
    host object (an element, a style declaration, a function), known only
    by its identity, which no message can carry.  A plain object that is
    kept somewhere and read again as the same object is outside the
    model. *)
#[warnings="-register-all"]
Inductive jsval :=
| JUndefined
| JNull
| JBool (b : bool)
| JNum (n : Z)
| JNaN
| JStr (s : string)
| JObj (fields : list (string * jsval))
| JRef (addr : nat).

Abbreviation jsobj := (list (string * jsval)).

(** [o.k] on an object literal: the first binding of [k]. *)
Fixpoint lookup_field (k : string) (fs : jsobj) : option jsval :=
  match fs with
  | [] => None
  | (k', v) :: rest => if String.eqb k k' then Some v else lookup_field k rest
  end.

(** [v.k]: [undefined] when the property is missing. *)
Definition get (k : string) (v : jsval) : jsval :=
  match v with
  | JObj fs => default JUndefined (lookup_field k fs)
  | _ => JUndefined
  end.

(** [k in v] on a data object, for a key that is not one of the names
    every object inherits ([constructor], [toString] and the like): those
    keys are never asked for by the modelled code, and a theorem about an
    arbitrary key excludes them. *)
Definition has (k : string) (v : jsval) : bool :=
  match v with
  | JObj fs => bool_decide (is_Some (lookup_field k fs))
  | _ => false
  end.

(** ToBoolean. *)
Definition truthy (v : jsval) : bool :=
  match v with
  | JUndefined | JNull | JNaN => false
  | JBool b => b
  | JNum n => negb (Z.eqb n 0)
  | JStr s => negb (String.eqb s "")
  | JObj _ | JRef _ => true
  end.

(** [typeof v === 'object'] (which holds of [null] too). *)
Definition is_object (v : jsval) : bool :=
  match v with
  | JNull | JObj _ | JRef _ => true
  | _ => false
  end.

(** [a === b].  Two data objects built separately are never identical,
    and [NaN] is not identical to itself; a live object is identical to
    itself. *)
Definition strict_eq (a b : jsval) : bool :=
  match a, b with
  | JUndefined, JUndefined => true
  | JNull, JNull => true
  | JBool x, JBool y => Bool.eqb x y
  | JNum x, JNum y => Z.eqb x y
  | JStr x, JStr y => String.eqb x y
  | JRef x, JRef y => Nat.eqb x y
  | _, _ => false
  end.

(** [a || b]. *)
Definition or_else (a b : jsval) : jsval := if truthy a then a else b.

(** ToString, as used for property keys, selectors and URL arguments. *)
Definition to_string (v : jsval) : string :=
  match v with
  | JUndefined => "undefined"
  | JNull => "null"
  | JBool true => "true"
  | JBool false => "false"
  | JNum n => pretty n
  | JNaN => "NaN"
  | JStr s => s
  | JObj _ | JRef _ => "[object Object]"
  end.

(** Decimal digits of a string, most significant first. *)
Fixpoint digits (s : string) (acc : Z) : option Z :=
  match s with
  | EmptyString => Some acc
  | String c rest =>
      let n := Z.of_nat (Ascii.nat_of_ascii c) in
      if Z.leb 48 n && Z.leb n 57 then digits rest (10 * acc + (n - 48)) else None
  end.

(** ToNumber; [None] stands for NaN.  Strings are read as plain decimal
    digits (the empty string is 0); signs, fractions and exponents are not
    read, and the theorems that compare times fix them as [JNum]. *)
Definition to_number (v : jsval) : option Z :=
  match v with
  | JUndefined => None
  | JNull => Some 0
  | JBool b => Some (if b then 1 else 0)
  | JNum n => Some n
  | JNaN => None
  | JStr s => digits s 0
  | JObj _ | JRef _ => None
  end.

(** The structured clone that [postMessage] makes of a message succeeds:
    the message holds no live object. *)
Fixpoint cloneable (v : jsval) : bool :=
  match v with
  | JRef _ => false
  | JObj fields =>
      (fix all (fs : jsobj) : bool :=
         match fs with
         | [] => true
         | (_, x) :: rest => cloneable x && all rest
         end) fields
  | _ => true
  end.

(** [a > b] on numbers; any comparison with NaN is false. *)
Definition gt (a b : option Z) : bool :=
  match a, b with
  | Some x, Some y => Z.ltb y x
  | _, _ => false
  end.

(** [a * k] and [a - b] on numbers with NaN. *)
Definition mul (a : option Z) (k : Z) : option Z := (fun x => x * k) <$> a.
Definition sub (a b : option Z) : option Z :=
  match a, b with
  | Some x, Some y => Some (x - y)
  | _, _ => None
  end.

End JS.
Import JS.

(** * The browser interface the scripts rely on *)

(** [new URL(s).origin]: [None] when the constructor throws.  The text
    ["null"], which is what a missing setting is converted to, is not an
    absolute URL. *)
Class Platform := {
  URL_origin : string -> option string;
  URL_origin_null : URL_origin "null" = None
}.

(** * chrome.storage.local *)

Module Storage.

(** [chrome.storage.local.set(items)]: the keys of [items] are written,
    every other key of the store keeps its value. *)
Definition set (items : list (string * jsval)) (store : gmap string jsval)
  : gmap string jsval :=
  list_to_map items ∪ store.

(** [result.k] in the callback of [chrome.storage.local.get(keys, ...)]. *)
Definition read (k : string) (store : gmap string jsval) : jsval :=
  default JUndefined (store !! k).

End Storage.

(** * The content script *)

Module Content.

Section Configuration.
Context `{Platform}.

(** [path.split('.')] *)
Fixpoint split_dots (s : string) (cur : string) : list string :=
  match s with
  | EmptyString => [cur]
  | String c rest =>
      if Ascii.eqb c "."%char then cur :: split_dots rest ""
      else split_dots rest (cur +:+ String c "")
  end.

(** The loop of [getConfig]: follow the keys while the value is an object
    that has the key, else give up with the fallback. *)
Fixpoint walk (keys : list string) (value fallback : jsval) : jsval :=
  match keys with
  | [] => value
  | key :: rest =>
      if truthy value && is_object value && has key value
      then walk rest (get key value) fallback
      else fallback
  end.

(** [getConfig(path, fallback)] over the module variable [extensionConfig],
    which is [null] until [loadExtensionConfig] has assigned it.
    [fallback] is the parameter as the body reads it: [null] when the call
    gives none. *)
Definition getConfig (extensionConfig : jsval) (path : string) (fallback : jsval) : jsval :=
  if negb (truthy extensionConfig) then fallback
  else walk (split_dots path "") extensionConfig fallback.

(** [getTrustedOrigin()]: the origin of the configured iframe source, the
    empty string when [new URL] throws. *)
Definition getTrustedOrigin (extensionConfig : jsval) : string :=
  let iframeSrc := getConfig extensionConfig "sidebar.iframeSrc" JNull in
  match URL_origin (to_string iframeSrc) with
  | Some origin => origin
  | None => ""
  end.

(** A [message] event on the window. *)
Record message_event := { origin : string; data : jsval }.

(** The handler a listener hands the message to, with its arguments. *)
Inductive call :=
| InjectWebComponent (request : jsval)
| HandleDomManipulation (selector action value : jsval)
| HandleDomObserver (selector attribute eventType watchId : jsval)
| HandleGetDomInfo (selector attribute requestId : jsval)
| ReplyTabInfo.

(** The origin check of the window listener: the message goes on only when
    [event.origin !== trustedOrigin] is false. *)
Definition origin_accepted (extensionConfig : jsval) (event_origin : string) : bool :=
  String.eqb event_origin (getTrustedOrigin extensionConfig).

(** [window.addEventListener('message', ...)] of the content script:
    [None] when the listener returns without calling a handler. *)
Definition window_message_listener (extensionConfig : jsval) (event : message_event)
  : option call :=
  let d := data event in
  if negb (truthy d) || negb (is_object d) then None
  else if negb (origin_accepted extensionConfig (origin event)) then None
  else
    let type := get "type" d in
    if strict_eq type (JStr "injectWebComponent") then
      Some (InjectWebComponent
              (JObj [("type", JStr "manipulateDom");
                     ("action", JStr "injectWebComponent");
                     ("selector", get "selector" d);
                     ("src", get "src" d);
                     ("name", get "name" d);
                     ("placement", get "placement" d)]))
    else if strict_eq type (JStr "manipulate-dom") then
      Some (HandleDomManipulation (get "selector" d) (get "action" d) (get "value" d))
    else if strict_eq type (JStr "start-dom-observer")
            || strict_eq type (JStr "observe-dom-value") then
      Some (HandleDomObserver (get "selector" d) (get "attribute" d)
                              (get "eventType" d) (get "watchId" d))
    else if strict_eq type (JStr "get-dom-info") then
      Some (HandleGetDomInfo (get "selector" d) (get "attribute" d) (get "requestId" d))
    else if strict_eq type (JStr "get-tab-info") then Some ReplyTabInfo
    else None.

End Configuration.

(** ** Messages from the background script and the side panel *)

Inductive runtime_call :=
| HandleManipulateDomRequest (request : jsval)
| CaptureData
| ToggleCustomSidebar
| CheckSidebarState.

(** [chrome.runtime.onMessage.addListener(...)] of the content script. *)
Definition runtime_message_listener (request : jsval) : option runtime_call :=
  if strict_eq (get "type" request) (JStr "manipulateDom") then
    Some (HandleManipulateDomRequest request)
  else if strict_eq (get "type" request) (JStr "getData") then Some CaptureData
  else if strict_eq (get "action" request) (JStr "showCustomSidebar") then
    Some ToggleCustomSidebar
  else if strict_eq (get "action" request) (JStr "checkSidebarState") then
    Some CheckSidebarState
  else None.

(** The branch [handleManipulateDomRequest] takes. *)
Inductive dom_branch :=
| RemoveElement (selector : jsval)
| ObserveDomValue (selector attribute eventType watchId : jsval)
| InjectBranch (request : jsval)
| PerformDomAction (request : jsval).

Definition handleManipulateDomRequest (request : jsval) : dom_branch :=
  let action := get "action" request in
  if strict_eq action (JStr "removeElement") then RemoveElement (get "selector" request)
  else if strict_eq action (JStr "observeDomValue") then
    ObserveDomValue (get "selector" request) (get "attribute" request)
                    (get "eventType" request) (get "watchId" request)
  else if strict_eq action (JStr "injectWebComponent") then InjectBranch request
  else PerformDomAction request.

(** [performDomAction]: whether the [switch] has a case for the action. *)
Definition performDomAction_known (action : jsval) : bool :=
  match action with
  | JStr a =>
      bool_decide (a ∈ ["setText"; "setHTML"; "setStyle"; "addClass"; "removeClass";
                        "toggleClass"; "appendHTML"; "prependHTML"; "click";
                        "setInputValue"])
  | _ => false
  end.

(** ** Watches on page elements *)

Section Watches.
Context `{Platform}.

(** An element as the watch code sees it: the properties it answers
    [name in el] for, with the value they read, and its content
    attributes. *)
Record element := {
  props : gmap string jsval;
  attributes : gmap string string
}.

(** [(attribute in el) ? el[attribute] : el.getAttribute(attribute)] *)
Definition read_value (attribute : string) (el : element) : jsval :=
  match props el !! attribute with
  | Some v => v
  | None =>
      match attributes el !! attribute with
      | Some s => JStr s
      | None => JNull
      end
  end.

(** What the script sends out. *)
Inductive sent :=
| PostToIframe (message : jsval) (targetOrigin : string)
| RuntimeSend (message : jsval).

(** The target origins that [postMessage] takes, among those [origin] of
    a URL can be: the empty string (no URL) and ["null"] (the origin of a
    URL without a host, as of a [data:] URL) are no absolute URLs and are
    refused with a SyntaxError. *)
Definition postable (targetOrigin : string) : bool :=
  negb (String.eqb targetOrigin "") && negb (String.eqb targetOrigin "null").

(** [iframe.contentWindow.postMessage(message, targetOrigin)]: [None] when
    the call throws, which ends the running callback: a SyntaxError for a
    target origin that is refused, a DataCloneError for a message that
    cannot be cloned. *)
Definition postMessage (message : jsval) (targetOrigin : string) : option sent :=
  if postable targetOrigin && cloneable message
  then Some (PostToIframe message targetOrigin) else None.

(** A listener or observer closure: [OnEvent t] was installed with
    [el.addEventListener(t, ...)], [OnMutation] with a MutationObserver. *)
Inductive trigger := OnEvent (eventType : string) | OnMutation.

(** Where a watch sends: [handleDomObserver] captures the element that
    the lookup of the panel iframe returned ([None] for [null]),
    [observeDomValue] sends through the runtime. *)
Inductive route :=
| ToPanel (iframe : option nat)
| ToRuntime.

(** The variables a watch closure captures; [lastValue] is the one it
    assigns. *)
Record watcher := {
  w_el : nat;
  w_trigger : trigger;
  w_selector : jsval;
  w_attribute : jsval;
  w_watchId : jsval;
  w_route : route;
  lastValue : jsval
}.

(** The part of the page the watch code touches.  Elements are objects
    with an identity; [selected] is what [document.querySelector] returns
    for a selector text at the moment; [panel_frame] is the element that
    [document.getElementById('sidebar-container-nordcraft')] returns at the
    moment; [content_window] says of an element whether its
    [contentWindow] is there at the moment (it is for an iframe in the
    document, and no longer once the iframe has left it). *)
Record page := {
  elements : gmap nat element;
  selected : gmap string nat;
  panel_frame : option nat;
  content_window : nat -> bool;
  watchers : list watcher;
  outbox : list sent
}.

Definition element_of (p : page) (el : nat) : element :=
  default {| props := ∅; attributes := ∅ |} (elements p !! el).

(** [iframe && iframe.contentWindow], as a condition, for the result of
    an earlier or a present lookup. *)
Definition iframe_ready (p : page) (iframe : option nat) : bool :=
  match iframe with
  | Some i => content_window p i
  | None => false
  end.

Definition domValueChanged (selector attribute value watchId : jsval) : jsval :=
  JObj [("type", JStr "domValueChanged"); ("selector", selector);
        ("attribute", attribute); ("value", value); ("watchId", watchId)].

Definition default_attribute (attribute : jsval) : jsval :=
  or_else attribute (JStr "innerText").

Definition default_eventType (attribute eventType : jsval) : jsval :=
  or_else eventType
    (if strict_eq attribute (JStr "value") then JStr "input"
     else JStr "DOMSubtreeModified").

Definition trigger_of (eventType : jsval) : trigger :=
  if strict_eq eventType (JStr "DOMSubtreeModified") then OnMutation
  else OnEvent (to_string eventType).

(** [handleDomObserver(selector, attribute, eventType, watchId)] *)
Definition handleDomObserver (extensionConfig : jsval)
    (selector attribute eventType watchId : jsval) (p : page) : page :=
  match selected p !! to_string selector with
  | None => p
  | Some el =>
      let attribute := default_attribute attribute in
      let eventType := default_eventType attribute eventType in
      let lastValue := read_value (to_string attribute) (element_of p el) in
      let iframe := panel_frame p in
      let first :=
        if iframe_ready p iframe then
          option_map (fun m => [m])
            (postMessage (domValueChanged selector attribute lastValue watchId)
                         (getTrustedOrigin extensionConfig))
        else Some [] in
      match first with
      | None => p    (* the call threw before the listener was added *)
      | Some msgs =>
          {| elements := elements p; selected := selected p;
             panel_frame := panel_frame p; content_window := content_window p;
             watchers := watchers p ++
               [{| w_el := el; w_trigger := trigger_of eventType;
                   w_selector := selector; w_attribute := attribute;
                   w_watchId := watchId; w_route := ToPanel iframe;
                   lastValue := lastValue |}];
             outbox := outbox p ++ msgs |}
      end
  end.

(** The [observeDomValue] branch of [handleManipulateDomRequest]. *)
Definition observeDomValue (selector attribute eventType watchId : jsval) (p : page)
  : page :=
  let attribute := default_attribute attribute in
  let eventType := default_eventType attribute eventType in
  match selected p !! to_string selector with
  | None => p
  | Some el =>
      let lastValue := read_value (to_string attribute) (element_of p el) in
      {| elements := elements p; selected := selected p;
         panel_frame := panel_frame p; content_window := content_window p;
         watchers := watchers p ++
           [{| w_el := el; w_trigger := trigger_of eventType;
               w_selector := selector; w_attribute := attribute;
               w_watchId := watchId; w_route := ToRuntime;
               lastValue := lastValue |}];
         outbox := outbox p ++
           [RuntimeSend (domValueChanged selector attribute lastValue watchId)] |}
  end.

(** What a watch callback sends for a value that differs: through the
    runtime, or to the iframe it captured, if that still has its content
    window. *)
Definition notify (extensionConfig : jsval) (p : page) (w : watcher) (value : jsval)
  : list sent :=
  let m := domValueChanged (w_selector w) (w_attribute w) value (w_watchId w) in
  match w_route w with
  | ToRuntime => [RuntimeSend m]
  | ToPanel iframe =>
      if iframe_ready p iframe then
        match postMessage m (getTrustedOrigin extensionConfig) with
        | Some s => [s]
        | None => []
        end
      else []
  end.

(** The body of a watch callback: re-read, compare with [lastValue],
    remember and notify on a difference. *)
Definition run_watcher (extensionConfig : jsval) (p : page) (w : watcher)
  : watcher * list sent :=
  let value := read_value (to_string (w_attribute w)) (element_of p (w_el w)) in
  if strict_eq value (lastValue w) then (w, [])
  else ({| w_el := w_el w; w_trigger := w_trigger w; w_selector := w_selector w;
           w_attribute := w_attribute w; w_watchId := w_watchId w;
           w_route := w_route w; lastValue := value |},
        notify extensionConfig p w value).

Definition triggered (tr : trigger) (el : nat) (w : watcher) : bool :=
  Nat.eqb (w_el w) el &&
  match tr, w_trigger w with
  | OnEvent a, OnEvent b => String.eqb a b
  | OnMutation, OnMutation => true
  | _, _ => false
  end.

(** The callbacks run in the order they were installed. *)
Fixpoint run_watchers (extensionConfig : jsval) (p : page) (tr : trigger) (el : nat)
    (ws : list watcher) : list watcher * list sent :=
  match ws with
  | [] => ([], [])
  | w :: rest =>
      let '(w', out1) :=
        if triggered tr el w then run_watcher extensionConfig p w else (w, []) in
      let '(rest', out2) := run_watchers extensionConfig p tr el rest in
      (w' :: rest', out1 ++ out2)
  end.

(** An event of type [tr] reaches element [el] (or, for [OnMutation], the
    observers of [el] are called back). *)
Definition deliver (extensionConfig : jsval) (tr : trigger) (el : nat) (p : page) : page :=
  let '(ws, out) := run_watchers extensionConfig p tr el (watchers p) in
  {| elements := elements p; selected := selected p; panel_frame := panel_frame p;
     content_window := content_window p;
     watchers := ws; outbox := outbox p ++ out |}.

(** A property of an element comes to read [v] (after a write, [v] is
    what the element made of the value written). *)
Definition set_prop (el : nat) (name : string) (v : jsval) (p : page) : page :=
  let e := element_of p el in
  {| elements := <[el := {| props := <[name := v]> (props e);
                           attributes := attributes e |}]> (elements p);
     selected := selected p; panel_frame := panel_frame p;
     content_window := content_window p;
     watchers := watchers p; outbox := outbox p |}.


(** [handleGetDomInfo(selector, attribute, requestId)] *)
Definition handleGetDomInfo (extensionConfig : jsval)
    (selector attribute requestId : jsval) (p : page) : page :=
  let value :=
    match selected p !! to_string selector with
    | Some el => read_value (to_string attribute) (element_of p el)
    | None => JNull
    end in
  if iframe_ready p (panel_frame p) then
    match postMessage
            (JObj [("type", JStr "dom-info-result"); ("selector", selector);
                   ("attribute", attribute); ("value", value);
                   ("requestId", requestId)])
            (getTrustedOrigin extensionConfig) with
    | Some s =>
        {| elements := elements p; selected := selected p;
           panel_frame := panel_frame p; content_window := content_window p;
           watchers := watchers p;
           outbox := outbox p ++ [s] |}
    | None => p
    end
  else p.

End Watches.

(** ** URL change detection *)

Section UrlChangeDetection.
Context `{Platform}.

(** The variables of the detector with the part of the browser it reads:
    [currentUrl] is the module variable, [currentTitle] the local of
    [setupTitleObserver], [settle_timers] the 100 ms callbacks that are
    scheduled and have not run yet. *)
Record nav := {
  location_href : string;
  document_title : string;
  nav_frame : bool;
  currentUrl : string;
  currentTitle : string;
  settle_timers : nat;
  nav_outbox : list sent
}.

Definition with_location (href : string) (st : nav) : nav :=
  {| location_href := href; document_title := document_title st;
     nav_frame := nav_frame st; currentUrl := currentUrl st;
     currentTitle := currentTitle st; settle_timers := settle_timers st;
     nav_outbox := nav_outbox st |}.

Definition tab_id (now : Z) : jsval := JStr ("tab-" +:+ pretty now).

(** [notifyUrlChange(newUrl, oldUrl)]: one message to the background
    script, then, when the panel iframe exists, a [url-changed] and a
    [tab-info] message to it. *)
Definition notifyUrlChange (extensionConfig : jsval) (now : Z)
    (newUrl oldUrl : string) (st : nav) : list sent :=
  let title := JStr (document_title st) in
  RuntimeSend (JObj [("type", JStr "NORDCRAFT_ACTION"); ("action", JStr "URL_CHANGED");
                     ("newUrl", JStr newUrl); ("oldUrl", JStr oldUrl);
                     ("title", title)])
  :: (if nav_frame st then
        let trustedOrigin := getTrustedOrigin extensionConfig in
        match postMessage
                (JObj [("type", JStr "url-changed");
                       ("data", JObj [("newUrl", JStr newUrl); ("oldUrl", JStr oldUrl);
                                      ("title", title); ("tabId", tab_id now)])])
                trustedOrigin with
        | None => []
        | Some m1 =>
            m1 :: match postMessage
                          (JObj [("type", JStr "tab-info");
                                 ("data", JObj [("url", JStr newUrl); ("title", title);
                                                ("tabId", tab_id now);
                                                ("changeType", JStr "spa_navigation")])])
                          trustedOrigin with
                  | None => []
                  | Some m2 => [m2]
                  end
        end
      else []).

(** [currentUrl = newUrl; notifyUrlChange(newUrl, oldUrl);] *)
Definition update_and_notify (extensionConfig : jsval) (now : Z)
    (newUrl oldUrl : string) (st : nav) : nav :=
  {| location_href := location_href st; document_title := document_title st;
     nav_frame := nav_frame st; currentUrl := newUrl;
     currentTitle := currentTitle st; settle_timers := settle_timers st;
     nav_outbox := nav_outbox st ++ notifyUrlChange extensionConfig now newUrl oldUrl st |}.

(** What the browser's own [pushState]/[replaceState] does with the
    arguments: leave the URL, set it to a resolved URL, or throw. *)
Inductive history_effect := KeepUrl | NewUrl (href : string) | Refused.

(** The replacement [history.pushState] that [setupHistoryListener]
    installs (and [history.replaceState], which has the same body around
    the other original). *)
Definition history_wrapper (extensionConfig : jsval) (now : Z) (args : history_effect)
    (st : nav) : nav :=
  let oldUrl := currentUrl st in
  match args with
  | Refused => st
  | _ =>
      let st1 := match args with NewUrl href => with_location href st | _ => st end in
      let newUrl := location_href st1 in
      if negb (String.eqb newUrl oldUrl)
      then update_and_notify extensionConfig now newUrl oldUrl st1
      else st1
  end.

(** The [popstate] listener of [setupPopstateListener]. *)
Definition popstate_listener (extensionConfig : jsval) (now : Z) (st : nav) : nav :=
  let oldUrl := currentUrl st in
  let newUrl := location_href st in
  if negb (String.eqb newUrl oldUrl)
  then update_and_notify extensionConfig now newUrl oldUrl st
  else st.

(** The callback of [setInterval(..., 1000)] in [setupUrlPolling]. *)
Definition poll_callback (extensionConfig : jsval) (now : Z) (st : nav) : nav :=
  let newUrl := location_href st in
  if negb (String.eqb newUrl (currentUrl st)) then
    let oldUrl := currentUrl st in
    update_and_notify extensionConfig now newUrl oldUrl st
  else st.

(** A record handed to the title observer. *)
Record mutation_record := { m_type : string; m_target : string }.

(** The MutationObserver callback of [setupTitleObserver]: each record
    about a TITLE child list compares the title and, on a change, remembers
    it and schedules the settle check. *)
Fixpoint title_observer (mutations : list mutation_record) (st : nav) : nav :=
  match mutations with
  | [] => st
  | mutation :: rest =>
      let st' :=
        if String.eqb (m_type mutation) "childList"
           && String.eqb (m_target mutation) "TITLE"
           && negb (String.eqb (document_title st) (currentTitle st))
        then {| location_href := location_href st; document_title := document_title st;
                nav_frame := nav_frame st; currentUrl := currentUrl st;
                currentTitle := document_title st;
                settle_timers := S (settle_timers st);
                nav_outbox := nav_outbox st |}
        else st in
      title_observer rest st'
  end.

(** The callback of [setTimeout(..., 100)] in the title observer; with no
    such timer pending nothing runs. *)
Definition settle_callback (extensionConfig : jsval) (now : Z) (st : nav) : nav :=
  match settle_timers st with
  | O => st
  | S n =>
      let st := {| location_href := location_href st;
                   document_title := document_title st;
                   nav_frame := nav_frame st; currentUrl := currentUrl st;
                   currentTitle := currentTitle st; settle_timers := n;
                   nav_outbox := nav_outbox st |} in
      let newUrl := location_href st in
      if negb (String.eqb newUrl (currentUrl st)) then
        let oldUrl := currentUrl st in
        update_and_notify extensionConfig now newUrl oldUrl st
      else st
  end.

(** What can happen to the detector: the page calls a wrapped history
    function, the four callbacks run, the page changes its title, or the
    location changes behind the wrappers (a fragment change, a traversal). *)
Inductive nav_event :=
| PushState (args : history_effect)
| ReplaceState (args : history_effect)
| Popstate
| PollTick
| TitleMutations (mutations : list mutation_record)
| SettleTimer
| SetTitle (title : string)
| LocationChange (href : string).

Definition nav_step (extensionConfig : jsval) (now : Z) (e : nav_event) (st : nav) : nav :=
  match e with
  | PushState args | ReplaceState args => history_wrapper extensionConfig now args st
  | Popstate => popstate_listener extensionConfig now st
  | PollTick => poll_callback extensionConfig now st
  | TitleMutations ms => title_observer ms st
  | SettleTimer => settle_callback extensionConfig now st
  | SetTitle t =>
      {| location_href := location_href st; document_title := t;
         nav_frame := nav_frame st; currentUrl := currentUrl st;
         currentTitle := currentTitle st; settle_timers := settle_timers st;
         nav_outbox := nav_outbox st |}
  | LocationChange href => with_location href st
  end.

(** Events arrive with the clock reading at which they run. *)
Fixpoint nav_run (extensionConfig : jsval) (es : list (Z * nav_event)) (st : nav) : nav :=
  match es with
  | [] => st
  | (now, e) :: rest => nav_run extensionConfig rest (nav_step extensionConfig now e st)
  end.

(** The message to the background script that announces a navigation,
    and the [url-changed] message to the panel. *)
Definition is_url_changed (m : sent) : bool :=
  match m with
  | RuntimeSend v => strict_eq (get "action" v) (JStr "URL_CHANGED")
  | PostToIframe _ _ => false
  end.

Definition is_panel_url_changed (m : sent) : bool :=
  match m with
  | PostToIframe v _ => strict_eq (get "type" v) (JStr "url-changed")
  | RuntimeSend _ => false
  end.

Definition announced (st : nav) : nat := length (filter is_url_changed (nav_outbox st)).
Definition announced_to_panel (st : nav) : nat :=
  length (filter is_panel_url_changed (nav_outbox st)).

(** The event leaves the location at [href] (a history call may set it to
    [href] again, nothing moves it elsewhere). *)
Definition stays_at (href : string) (e : nav_event) : bool :=
  match e with
  | PushState (NewUrl h) | ReplaceState (NewUrl h) => String.eqb h href
  | LocationChange _ => false
  | _ => true
  end.

(** The event takes the location to [href]. *)
Definition goes_to (href : string) (e : nav_event) : bool :=
  match e with
  | PushState (NewUrl h) | ReplaceState (NewUrl h) | LocationChange h => String.eqb h href
  | _ => false
  end.

(** The event runs one of the four comparisons of the location with
    [currentUrl]. *)
Definition compares (st : nav) (e : nav_event) : bool :=
  match e with
  | PushState Refused | ReplaceState Refused => false
  | PushState _ | ReplaceState _ | Popstate | PollTick => true
  | SettleTimer => negb (Nat.eqb (settle_timers st) 0)
  | TitleMutations _ | SetTitle _ | LocationChange _ => false
  end.

(** Some event of the run makes a comparison. *)
Fixpoint observed (extensionConfig : jsval) (es : list (Z * nav_event)) (st : nav) : bool :=
  match es with
  | [] => false
  | (now, e) :: rest =>
      compares st e || observed extensionConfig rest (nav_step extensionConfig now e st)
  end.

End UrlChangeDetection.

(** ** Web component injection *)

Section Injection.

(** The document as a tree of elements (text is left out). *)
#[warnings="-register-all"]
Inductive node := Elem (tag : string) (attrs : list (string * string)) (children : list node).

Definition tag_of (n : node) : string := match n with Elem t _ _ => t end.
Definition attrs_of (n : node) : list (string * string) := match n with Elem _ a _ => a end.
Definition children_of (n : node) : list node := match n with Elem _ _ ks => ks end.

(** [el.getAttribute(k)] *)
Fixpoint attr (k : string) (l : list (string * string)) : option string :=
  match l with
  | [] => None
  | (k', v) :: rest => if String.eqb k k' then Some v else attr k rest
  end.

(** Selectors in parsed form: a type selector (the component name is
    used as one), an id selector, and [tag[attribute="value"]] (the form of
    the script lookup).  Whether one of them matches an element depends on
    the element alone; selectors with combinators or structural
    pseudo-classes are outside the model. *)
Inductive selector :=
| ByTag (name : string)
| ById (id : string)
| ByAttr (tag attribute value : string).

Definition matches (s : selector) (n : node) : bool :=
  match s with
  | ByTag name => String.eqb (tag_of n) name
  | ById id => bool_decide (attr "id" (attrs_of n) = Some id)
  | ByAttr t a v => String.eqb (tag_of n) t && bool_decide (attr a (attrs_of n) = Some v)
  end.

(** A place in the tree: the child indices from the root down. *)
Abbreviation path := (list nat).

(** The first of the nodes [ks], counted from [i], in which [f] finds
    something. *)
Definition first_below (f : node -> option path) : nat -> list node -> option path :=
  fix go (i : nat) (ks : list node) : option path :=
    match ks with
    | [] => None
    | k :: rest =>
        match f k with
        | Some p => Some (i :: p)
        | None => go (S i) rest
        end
    end.

(** The first match in document order among [n] and its descendants:
    [document.querySelector(s)] when [n] is the root element. *)
Fixpoint find (s : selector) (n : node) : option path :=
  match n with
  | Elem _ _ ks => if matches s n then Some [] else first_below (find s) 0 ks
  end.

(** [n.querySelector(s)]: the first match among the descendants of [n]. *)
Definition querySelector (s : selector) (n : node) : option path :=
  first_below (find s) 0 (children_of n).

Fixpoint node_at (p : path) (n : node) : option node :=
  match p with
  | [] => Some n
  | i :: rest =>
      match children_of n !! i with
      | Some k => node_at rest k
      | None => None
      end
  end.

Fixpoint modify_at (p : path) (f : node -> node) (n : node) : node :=
  match p with
  | [] => f n
  | i :: rest => Elem (tag_of n) (attrs_of n) (alter (modify_at rest f) i (children_of n))
  end.

(** [n.appendChild(k)] and [n.insertBefore(k, n.firstChild)] *)
Definition appendChild (k : node) (n : node) : node :=
  Elem (tag_of n) (attrs_of n) (children_of n ++ [k]).
Definition insertFirst (k : node) (n : node) : node :=
  Elem (tag_of n) (attrs_of n) (k :: children_of n).

(** [document.body]: the first [body] child of the root element. *)
Fixpoint first_tagged (t : string) (i : nat) (ks : list node) : option nat :=
  match ks with
  | [] => None
  | k :: rest => if String.eqb (tag_of k) t then Some i else first_tagged t (S i) rest
  end.

Definition body_path (root : node) : option path :=
  (λ i, [i]) <$> first_tagged "body" 0 (children_of root).

(** The number of nodes of a tree that satisfy [P]. *)
Fixpoint count (P : node -> bool) (n : node) : nat :=
  match n with
  | Elem _ _ ks => ((if P n then 1 else 0) + sum_list_with (count P) ks)%nat
  end.

(** [P] holds of every node of the tree. *)
Fixpoint every (P : node -> bool) (n : node) : bool :=
  match n with
  | Elem _ _ ks => P n && forallb (every P) ks
  end.

(** The fields [injectWebComponent] reads from the request; the selector
    is kept in parsed form, [None] for a missing or empty one.  Names are
    in lower case, as custom element names are. *)
Record inject_request := {
  r_name : jsval;
  r_src : jsval;
  r_selector : option selector;
  r_placement : jsval
}.

(** The document, the custom element registry ([None] when the
    [customElements] API is not there) and the retries of
    [createCustomElement] that wait on a 500 ms timer. *)
Record dom := {
  document : node;
  customElements : option (list string);
  retries : list inject_request
}.

Definition with_document (d : node) (st : dom) : dom :=
  {| document := d; customElements := customElements st; retries := retries st |}.

(** The text can stand between double quotes in a selector and mean
    itself: it has no double quote, backslash, line break or null
    character (with one of them the selector text is refused or means
    another string). *)
Definition quotable (s : string) : bool :=
  forallb (λ c, negb (bool_decide (c ∈ ["034"; "092"; "010"; "012"; "013"; "000"]%char)))
          (list_ascii_of_string s).

(** The text is an element name that is also a type selector for it, in
    the form custom element names have: a lower-case letter, then
    lower-case letters, digits and hyphens. *)
Definition name_char (first : bool) (c : ascii) : bool :=
  let n := Ascii.nat_of_ascii c in
  (Nat.leb 97 n && Nat.leb n 122)
  || (negb first && ((Nat.leb 48 n && Nat.leb n 57) || Nat.eqb n 45)).

Definition element_name (s : string) : bool :=
  match s with
  | EmptyString => false
  | String c rest => name_char true c && forallb (name_char false) (list_ascii_of_string rest)
  end.

(** The selector of the script lookup, [script[src="..."]] with the
    source spliced in, for a source that is [quotable]. *)
Definition script_selector (scriptSrc : string) : selector := ByAttr "script" "src" scriptSrc.

(** [const script = document.createElement('script'); script.type =
    'module'; script.src = scriptSrc;] *)
Definition script_element (scriptSrc : string) : node :=
  Elem "script" [("type", "module"); ("src", scriptSrc)] [].

(** [customEl] with the script appended inside. *)
Definition custom_element (name scriptSrc : string) : node :=
  Elem name [] [script_element scriptSrc].

(** The inner function [createCustomElement()] of the request. *)
Definition createCustomElement (request : inject_request) (st : dom) : dom :=
  let name := to_string (r_name request) in
  let scriptSrc := to_string (r_src request) in
  let placement := or_else (r_placement request) (JStr "append") in
  let defined :=
    match customElements st with
    | None => true
    | Some registry => bool_decide (name ∈ registry)
    end in
  if negb defined then
    {| document := document st; customElements := customElements st;
       retries := retries st ++ [request] |}
  else
    let target :=
      match r_selector request with
      | Some s => find s (document st)
      | None => None
      end in
    match target with
    | None =>
        match body_path (document st) with
        | None => st    (* [document.body] is null: a TypeError, nothing done *)
        | Some b =>
            match node_at b (document st) with
            | Some body =>
                if bool_decide (querySelector (ByTag name) body = None) then
                  with_document
                    (modify_at b (appendChild (custom_element name scriptSrc))
                               (document st)) st
                else st
            | None => st
            end
        end
    | Some t =>
        let inside :=
          match node_at t (document st) with
          | Some target => bool_decide (is_Some (querySelector (ByTag name) target))
          | None => false
          end in
        let beside :=
          match t with
          | [] => bool_decide (is_Some (find (ByTag name) (document st)))
          | _ =>
              match node_at (removelast t) (document st) with
              | Some parent => bool_decide (is_Some (querySelector (ByTag name) parent))
              | None => false
              end
          end in
        if inside || beside then st
        else
          let customEl := custom_element name scriptSrc in
          if strict_eq placement (JStr "replace") then
            with_document (modify_at t (λ _, customEl) (document st)) st
          else if strict_eq placement (JStr "prepend") then
            with_document (modify_at t (insertFirst customEl) (document st)) st
          else
            with_document (modify_at t (appendChild customEl) (document st)) st
    end.

(** [injectWebComponent(request)] *)
Definition injectWebComponent (request : inject_request) (st : dom) : dom :=
  let name := to_string (r_name request) in
  let scriptSrc := to_string (r_src request) in
  if negb (truthy (r_src request)) then st
  else if negb (truthy (r_name request)) then st
  else
    let existingScript := find (script_selector scriptSrc) (document st) in
    let existingCustomEl := find (ByTag name) (document st) in
    match existingScript, existingCustomEl with
    | None, None => createCustomElement request st
    | _, Some q =>
        match node_at q (document st) with
        | Some el =>
            if bool_decide (querySelector (script_selector scriptSrc) el = None) then
              with_document
                (modify_at q (appendChild (script_element scriptSrc)) (document st)) st
            else st
        | None => st
        end
    | Some _, None => st
    end.

(** A retry timer fires: the oldest waiting [createCustomElement] runs. *)
Definition retry (st : dom) : dom :=
  match retries st with
  | [] => st
  | request :: rest =>
      createCustomElement request
        {| document := document st; customElements := customElements st;
           retries := rest |}
  end.

(** The page registers a custom element: [customElements.define(name, ...)]. *)
Definition define (name : string) (st : dom) : dom :=
  {| document := document st;
     customElements := (λ registry, name :: registry) <$> customElements st;
     retries := retries st |}.

(** How many elements of the component type, and how many script tags
    with the given source, the document holds. *)
Definition count_elements (name : string) (d : node) : nat := count (matches (ByTag name)) d.
Definition count_scripts (scriptSrc : string) (d : node) : nat :=
  count (matches (script_selector scriptSrc)) d.

(** An element of the component type has the script mounted inside. *)
Definition mounted (name scriptSrc : string) (n : node) : bool :=
  implb (matches (ByTag name) n)
        (bool_decide (is_Some (querySelector (script_selector scriptSrc) n))).

(** The registry lets [createCustomElement] go ahead for [name]. *)
Definition ready (name : string) (st : dom) : bool :=
  match customElements st with
  | None => true
  | Some registry => bool_decide (name ∈ registry)
  end.

(** What happens around one request: the panel asks for the injection,
    a retry timer fires, the page registers a custom element. *)
Inductive inject_event := Call | RetryTimer | Define (name : string).

Definition inject_step (request : inject_request) (e : inject_event) (st : dom) : dom :=
  match e with
  | Call => injectWebComponent request st
  | RetryTimer => retry st
  | Define name => define name st
  end.

Fixpoint inject_run (request : inject_request) (es : list inject_event) (st : dom) : dom :=
  match es with
  | [] => st
  | e :: rest => inject_run request rest (inject_step request e st)
  end.

Definition is_call (e : inject_event) : bool :=
  match e with
  | Call => true
  | _ => false
  end.

(** The element is where a later [createCustomElement] looks for it: inside
    the target of the selector, or inside the body when there is no
    selector. *)
Definition guarded (request : inject_request) (d : node) : Prop :=
  match r_selector request with
  | Some s => ∃ t m, find s d = Some t ∧ node_at t d = Some m
                     ∧ is_Some (querySelector (ByTag (to_string (r_name request))) m)
  | None => ∃ b m, body_path d = Some b ∧ node_at b d = Some m
                   ∧ is_Some (querySelector (ByTag (to_string (r_name request))) m)
  end.

(** The state of one request over a document that started as [doc0]:
    either nothing was placed yet (and once a call was made a retry is
    waiting), or the one element is in place, mounted and guarded. *)
Definition settled (request : inject_request) (doc0 : node) (called : bool) (st : dom)
  : Prop :=
  Forall (λ r, r = request) (retries st)
  ∧ ((document st = doc0 ∧ (called = true → retries st ≠ []))
     ∨ (count_elements (to_string (r_name request)) (document st) = 1%nat
        ∧ count_scripts (to_string (r_src request)) (document st) = 1%nat
        ∧ every (mounted (to_string (r_name request)) (to_string (r_src request)))
                (document st) = true
        ∧ guarded request (document st))).

End Injection.

(** ** Panel state: toggle, save, restore *)

Section SidebarState.
Context `{Platform}.

(** A [setTimeout] callback of the panel code that has not run yet. *)
Inductive task :=
| SlideInAfterInject     (* 50 ms, in [toggleCustomSidebar] after injecting *)
| RestoreIfAbsent     (* 250 ms, in [restoreSidebarState] *)
| ToggleLater.        (* 100 ms, in the [checkSidebarState] branch *)

(** [wrapper] is the element [#my-chrome-sidebar-wrapper]: absent, or
    present and shown ([style.right] reads ['0px']) or slid out. *)
Record panel := {
  storage : gmap string jsval;
  href : string;
  wrapper : option bool;
  tasks : list task
}.

(** [saveSidebarState(isOpen)] *)
Definition saveSidebarState (now : Z) (isOpen : bool) (st : panel) : panel :=
  {| storage := Storage.set [("sidebarOpen", JBool isOpen);
                             ("sidebarUrl", JStr (href st));
                             ("lastStateChange", JNum now)] (storage st);
     href := href st; wrapper := wrapper st; tasks := tasks st |}.

(** [toggleCustomSidebar()] *)
Definition toggleCustomSidebar (now : Z) (st : panel) : panel :=
  match wrapper st with
  | None =>
      (* injectCustomSidebar() builds the wrapper slid out *)
      {| storage := storage st; href := href st; wrapper := Some false;
         tasks := tasks st ++ [SlideInAfterInject] |}
  | Some isVisible =>
      if isVisible then
        saveSidebarState now false
          {| storage := storage st; href := href st; wrapper := Some false;
             tasks := tasks st |}
      else
        saveSidebarState now true
          {| storage := storage st; href := href st; wrapper := Some true;
             tasks := tasks st |}
  end.

(** [lastStateChange && lastStateChange > limit], read as a condition. *)
Definition wasRecentlyChanged (lastStateChange : jsval) (limit : option Z) : bool :=
  truthy lastStateChange && gt (to_number lastStateChange) limit.

(** The callback of [chrome.storage.local.get] in [restoreSidebarState()]. *)
Definition restoreSidebarState (extensionConfig : jsval) (now : Z) (st : panel) : panel :=
  let sidebarOpen := Storage.read "sidebarOpen" (storage st) in
  let lastStateChange := Storage.read "lastStateChange" (storage st) in
  let autoRestoreMinutes :=
    getConfig extensionConfig "behavior.autoRestoreTimeMinutes" (JNum 5) in
  let autoRestoreTime :=
    JS.sub (Some now) (mul (mul (to_number autoRestoreMinutes) 60) 1000) in
  let recent := wasRecentlyChanged lastStateChange autoRestoreTime in
  if strict_eq sidebarOpen (JBool true) && recent then
    {| storage := storage st; href := href st; wrapper := wrapper st;
       tasks := tasks st ++ [RestoreIfAbsent] |}
  else if strict_eq sidebarOpen (JBool true) && negb recent then
    saveSidebarState now false st
  else st.

(** The click handler of the close button built in [injectCustomSidebar]. *)
Definition closeButton (now : Z) (st : panel) : panel :=
  saveSidebarState now false
    {| storage := storage st; href := href st;
       wrapper := (λ _, false) <$> wrapper st; tasks := tasks st |}.

(** The [checkSidebarState] branch of the runtime listener. *)
Definition checkSidebarState (now : Z) (st : panel) : panel :=
  match wrapper st with
  | Some _ => st
  | None =>
      let sidebarOpen := Storage.read "sidebarOpen" (storage st) in
      let lastStateChange := Storage.read "lastStateChange" (storage st) in
      let fiveMinutesAgo := Some (now - 5 * 60 * 1000) in
      let recent := wasRecentlyChanged lastStateChange fiveMinutesAgo in
      if strict_eq sidebarOpen (JBool true) && recent then
        {| storage := storage st; href := href st; wrapper := wrapper st;
           tasks := tasks st ++ [ToggleLater] |}
      else if strict_eq sidebarOpen (JBool true) && negb recent then
        saveSidebarState now false st
      else st
  end.

(** Running a timer callback. *)
Definition run_task (now : Z) (t : task) (st : panel) : panel :=
  match t with
  | SlideInAfterInject =>
      saveSidebarState now true
        {| storage := storage st; href := href st; wrapper := Some true;
           tasks := tasks st |}
  | RestoreIfAbsent =>
      match wrapper st with
      | None => toggleCustomSidebar now st
      | Some _ => st
      end
  | ToggleLater => toggleCustomSidebar now st
  end.

(** The oldest pending callback runs.  The callbacks have different
    delays, so this is the order of the browser as long as one callback is
    pending at a time, as in the theorems that use it; [PanelTrace.fire]
    lets any pending callback run. *)
Definition run_next (now : Z) (st : panel) : panel :=
  match tasks st with
  | [] => st
  | t :: rest =>
      run_task now t {| storage := storage st; href := href st;
                        wrapper := wrapper st; tasks := rest |}
  end.

End SidebarState.

(** The effect of a runtime message on the watched page. *)
Definition runtime_message_on_page (request : jsval) (p : page) : page :=
  match runtime_message_listener request with
  | Some (HandleManipulateDomRequest request) =>
      match handleManipulateDomRequest request with
      | ObserveDomValue selector attribute eventType watchId =>
          observeDomValue selector attribute eventType watchId p
      | _ => p
      end
  | _ => p
  end.

End Content.

(** * The side-panel script *)

Module Sidebar.
Import Content.

(** What the listeners of the side panel send. *)
Inductive sent :=
| TabsSendMessage (tabId : nat) (message : jsval)
| PostToIframe (message : jsval) (targetOrigin : string).

(** The side-panel page: [active_tab] is [tabs[0]] of the tab query,
    [frame] says whether the iframe [#sidebar-container-nordcraft] exists
    with a content window. *)
Record env := { active_tab : option nat; frame : bool }.

Definition to_active_tab (e : env) (message : jsval) : list sent :=
  match active_tab e with
  | Some tabId => [TabsSendMessage tabId message]
  | None => []
  end.

Definition has_type (d : jsval) (t : string) : bool :=
  truthy d && strict_eq (get "type" d) (JStr t).

(** The [manipulate-dom] listener. *)
Definition manipulate_dom_listener (e : env) (event : message_event) : list sent :=
  let d := data event in
  if has_type d "manipulate-dom" then
    to_active_tab e
      (JObj [("type", JStr "manipulateDom"); ("selector", get "selector" d);
             ("action", get "action" d); ("value", get "value" d)])
  else [].

(** The [injectWebComponent] listener. *)
Definition inject_listener (e : env) (event : message_event) : list sent :=
  let d := data event in
  if has_type d "injectWebComponent" then
    to_active_tab e
      (JObj [("type", JStr "manipulateDom"); ("action", JStr "injectWebComponent");
             ("selector", get "selector" d); ("src", get "src" d);
             ("name", get "name" d); ("placement", get "placement" d)])
  else [].

(** The [start-dom-observer] listener. *)
Definition start_dom_observer_listener (e : env) (event : message_event) : list sent :=
  let d := data event in
  if has_type d "start-dom-observer" then
    to_active_tab e
      (JObj [("type", JStr "manipulateDom"); ("action", JStr "observeDomValue");
             ("selector", get "selector" d); ("attribute", get "attribute" d);
             ("eventType", get "eventType" d); ("watchId", get "watchId" d)])
  else [].

(** The [get-dom-info] listener, up to the request it sends. *)
Definition get_dom_info_listener (e : env) (event : message_event) : list sent :=
  let d := data event in
  if has_type d "get-dom-info" then
    to_active_tab e
      (JObj [("type", JStr "manipulateDom"); ("action", JStr "getDomInfo");
             ("selector", get "selector" d); ("attribute", get "attribute" d)])
  else [].

(** The response callback of the [get-dom-info] listener. *)
Definition get_dom_info_callback (e : env) (d response : jsval) : list sent :=
  if frame e then
    [PostToIframe
       (JObj [("type", JStr "dom-info-result"); ("selector", get "selector" d);
              ("attribute", get "attribute" d);
              ("value", if truthy response then get "value" response else JNull);
              ("requestId", get "requestId" d)]) "*"]
  else [].

(** The [observe-dom-value] listener. *)
Definition observe_dom_value_listener (e : env) (event : message_event) : list sent :=
  let d := data event in
  if has_type d "observe-dom-value" then
    to_active_tab e
      (JObj [("type", JStr "manipulateDom"); ("action", JStr "observeDomValue");
             ("selector", get "selector" d); ("attribute", get "attribute" d);
             ("eventType", get "eventType" d);
             ("iframeSelector", get "iframeSelector" d)])
  else [].

(** The listeners for [message] events that hand a request on to the
    tab, in the order they are installed (the [get-tab-info] listener, which
    answers the iframe from the tab query alone, is left out). *)
Definition window_message_listeners (e : env) (event : message_event) : list sent :=
  manipulate_dom_listener e event ++ inject_listener e event
  ++ start_dom_observer_listener e event ++ get_dom_info_listener e event
  ++ observe_dom_value_listener e event.

(** The runtime listener that relays [domValueChanged] to the iframe. *)
Definition domValueChanged_relay (e : env) (msg : jsval) : list sent :=
  if strict_eq (get "type" msg) (JStr "domValueChanged") && truthy (get "watchId" msg)
  then
    if frame e then
      [PostToIframe
         (JObj [("type", JStr "domValueChanged"); ("selector", get "selector" msg);
                ("attribute", get "attribute" msg); ("value", get "value" msg);
                ("watchId", get "watchId" msg)]) "*"]
    else []
  else [].

End Sidebar.

(** * The background script *)

Module Background.

Inductive sent :=
| TabsSendMessage (tabId : nat) (message : jsval)
| RuntimeSendMessage (message : jsval).

(** The callback of [chrome.storage.local.get] that the [onUpdated]
    listener runs 500 ms after a tab reports [status === 'complete']. *)
Definition restore_check (now : Z) (tabId : nat) (store : gmap string jsval)
  : gmap string jsval * list sent :=
  let sidebarOpen := Storage.read "sidebarOpen" store in
  let lastStateChange := Storage.read "lastStateChange" store in
  let fiveMinutesAgo := Some (now - 5 * 60 * 1000) in
  let wasRecentlyChanged :=
    truthy lastStateChange && gt (to_number lastStateChange) fiveMinutesAgo in
  if strict_eq sidebarOpen (JBool true) && wasRecentlyChanged then
    (store, [TabsSendMessage tabId (JObj [("action", JStr "checkSidebarState")])])
  else if strict_eq sidebarOpen (JBool true) && negb wasRecentlyChanged then
    (Storage.set [("sidebarOpen", JBool false)] store, [])
  else (store, []).

(** The URL_CHANGED branch of the runtime listener. *)
Definition on_url_changed (request : jsval) (sender_tab : option nat) : list sent :=
  if strict_eq (get "type" request) (JStr "NORDCRAFT_ACTION")
     && strict_eq (get "action" request) (JStr "URL_CHANGED") then
    [RuntimeSendMessage
       (JObj [("type", JStr "SIDEBAR_UPDATE_URL"); ("url", get "newUrl" request);
              ("title", get "title" request);
              ("tabId", match sender_tab with
                        | Some t => JNum (Z.of_nat t)
                        | None => JNull
                        end);
              ("changeType", JStr "spa_navigation")])]
  else [].

End Background.

(** * Worked examples: a browser stand-in and sample inputs *)

Module Examples.
Import Content.

(** A stand-in for the URL parser, enough to run examples: an [https]
    URL has the origin that ends before the first slash of the rest. *)
Fixpoint until_slash (s : string) : string :=
  match s with
  | EmptyString => ""
  | String c rest => if Ascii.eqb c "/"%char then "" else String c (until_slash rest)
  end.

Definition https_origin (s : string) : option string :=
  if String.prefix "https://" s
  then Some ("https://" +:+ until_slash (String.substring 8 (String.length s - 8) s))
  else None.

Definition browser : Platform :=
  {| URL_origin := https_origin; URL_origin_null := eq_refl |}.

(** The fallback configuration of [loadExtensionConfig], as far as the
    modelled code reads it. *)
Definition settings : jsval :=
  JObj [("sidebar",
         JObj [("title", JStr "Codelution Assistant");
               ("iframeSrc",
                JStr "https://add-functions-codelution_chrome_extension.toddle.site/");
               ("defaultWidth", JStr "400px");
               ("mobileWidthPercent", JNum 85)]);
        ("behavior",
         JObj [("autoRestoreTimeMinutes", JNum 5);
               ("enableResize", JBool true);
               ("enableMobileOptimization", JBool true);
               ("minWidth", JNum 250);
               ("maxWidthPercent", JNum 90)])].

Definition panel_origin : string :=
  "https://add-functions-codelution_chrome_extension.toddle.site".

(** A [manipulate-dom] request. *)
Definition remove_body : jsval :=
  JObj [("type", JStr "manipulate-dom"); ("selector", JStr "body");
        ("action", JStr "removeElement")].

(** A page with one text field, [<input id="name">], holding ["a"]. *)
Definition name_field : element :=
  {| props := {["value" := JStr "a"]}; attributes := {["id" := "name"]} |}.

Definition sample_page : page :=
  {| elements := {[1%nat := name_field]}; selected := {["#name" := 1%nat]};
     panel_frame := Some 9%nat; content_window := Nat.eqb 9;
     watchers := []; outbox := [] |}.

(** A watch request as the panel posts it. *)
Definition observe_name (type : string) : jsval :=
  JObj [("type", JStr type); ("selector", JStr "#name"); ("attribute", JStr "value");
        ("eventType", JStr "input"); ("watchId", JStr "w1")].

(** The persisted record of a panel that was opened at time 1000. *)
Definition opened_store : gmap string jsval :=
  list_to_map [("sidebarOpen", JBool true); ("sidebarUrl", JStr "https://example.org/");
               ("lastStateChange", JNum 1000)].

(** A single-page application at [/a], in step with its location. *)
Definition nav_start : nav :=
  {| location_href := "https://app.example/a"; document_title := "A";
     nav_frame := true; currentUrl := "https://app.example/a"; currentTitle := "A";
     settle_timers := 0; nav_outbox := [] |}.

(** After a [pushState] to [/b]: a [popstate], a title change with its
    mutation record, the settle timer, a poll tick. *)
Definition nav_signals : list (Z * nav_event) :=
  [(10, Popstate); (20, SetTitle "B");
   (21, TitleMutations [{| m_type := "childList"; m_target := "TITLE" |}]);
   (121, SettleTimer); (1000, PollTick)].

(** [<html><head></head><body><div id="root"></div></body></html>] *)
Definition root_page : node :=
  Elem "html" [] [Elem "head" [] []; Elem "body" [] [Elem "div" [("id", "root")] []]].

(** [inject("x-widget", "a.js", "#root", "append")] *)
Definition widget_request : inject_request :=
  {| r_name := JStr "x-widget"; r_src := JStr "a.js"; r_selector := Some (ById "root");
     r_placement := JStr "append" |}.

(** The page before [x-widget] is registered. *)
Definition waiting_page : dom :=
  {| document := root_page; customElements := Some []; retries := [] |}.

(** A content script with the opened record in storage and no panel. *)
Definition reloaded : panel :=
  {| storage := opened_store; href := "https://example.org/page"; wrapper := None;
     tasks := [] |}.

End Examples.

From Stdlib Require QArith Qminmax Lqa.

(** * DOM actions of the content script *)

Module Actions.
Import Content.

(** A call the action code makes on an element. *)
Inductive dom_call :=
| Remove                                    (* el.remove() *)
| SetTextContent (value : jsval)            (* el.textContent = value *)
| SetInnerHTML (value : jsval)              (* el.innerHTML = value *)
| AssignStyle (value : jsval)               (* Object.assign(el.style, value) *)
| ClassListAdd (value : jsval)
| ClassListRemove (value : jsval)
| ClassListToggle (value : jsval)
| InsertAdjacentHTML (position : string) (value : jsval)
| Click                                     (* el.click() *)
| SetValue (value : jsval)                  (* el.value = value *)
| DispatchEvent (type : string).            (* new Event(type, {bubbles: true}) *)

Section DomActions.
Context `{Platform}.

(** ['value' in el] *)
Definition has_value (p : page) (el : nat) : bool :=
  bool_decide (is_Some (props (element_of p el) !! "value")).

(** The [setInputValue] case, which both functions have. *)
Definition setInputValue_calls (p : page) (el : nat) (value : jsval)
  : list (nat * dom_call) :=
  if has_value p el
  then [(el, SetValue value); (el, DispatchEvent "input"); (el, DispatchEvent "change")]
  else [].

(** [performDomAction(request)]: the calls it makes, on which element. *)
Definition performDomAction (p : page) (request : jsval) : list (nat * dom_call) :=
  match selected p !! to_string (get "selector" request) with
  | None => []
  | Some el =>
      let action := get "action" request in
      let value := get "value" request in
      if strict_eq action (JStr "setText") then [(el, SetTextContent value)]
      else if strict_eq action (JStr "setHTML") then [(el, SetInnerHTML value)]
      else if strict_eq action (JStr "setStyle") then [(el, AssignStyle value)]
      else if strict_eq action (JStr "addClass") then [(el, ClassListAdd value)]
      else if strict_eq action (JStr "removeClass") then [(el, ClassListRemove value)]
      else if strict_eq action (JStr "toggleClass") then [(el, ClassListToggle value)]
      else if strict_eq action (JStr "appendHTML") then
        [(el, InsertAdjacentHTML "beforeend" value)]
      else if strict_eq action (JStr "prependHTML") then
        [(el, InsertAdjacentHTML "afterbegin" value)]
      else if strict_eq action (JStr "click") then [(el, Click)]
      else if strict_eq action (JStr "setInputValue") then setInputValue_calls p el value
      else []
  end.

(** [handleDomManipulation(selector, action, value)] *)
Definition handleDomManipulation (p : page) (selector action value : jsval)
  : list (nat * dom_call) :=
  match selected p !! to_string selector with
  | None => []
  | Some el =>
      if strict_eq action (JStr "removeElement") then [(el, Remove)]
      else if strict_eq action (JStr "setText") then [(el, SetTextContent value)]
      else if strict_eq action (JStr "setHTML") then [(el, SetInnerHTML value)]
      else if strict_eq action (JStr "setStyle") then [(el, AssignStyle value)]
      else if strict_eq action (JStr "addClass") then [(el, ClassListAdd value)]
      else if strict_eq action (JStr "removeClass") then [(el, ClassListRemove value)]
      else if strict_eq action (JStr "toggleClass") then [(el, ClassListToggle value)]
      else if strict_eq action (JStr "click") then [(el, Click)]
      else if strict_eq action (JStr "setInputValue") then setInputValue_calls p el value
      else []
  end.

(** The DOM calls of [handleManipulateDomRequest(request)]: its own
    [removeElement] branch and [performDomAction]; the branches that start a
    watch or an injection make none themselves. *)
Definition handleManipulateDomRequest_calls (p : page) (request : jsval)
  : list (nat * dom_call) :=
  match handleManipulateDomRequest request with
  | RemoveElement selector =>
      match selected p !! to_string selector with
      | Some el => [(el, Remove)]
      | None => []
      end
  | PerformDomAction request => performDomAction p request
  | ObserveDomValue _ _ _ _ | InjectBranch _ => []
  end.


(** The calls a runtime message leads to in the content script. *)
Definition runtime_route (p : page) (request : jsval) : list (nat * dom_call) :=
  match runtime_message_listener request with
  | Some (HandleManipulateDomRequest request) => handleManipulateDomRequest_calls p request
  | _ => []
  end.

(** An event of the given type is dispatched on an element and bubbles:
    the listeners of the element run, then those of its ancestors, from
    the parent up. *)
Definition dispatchEvent (extensionConfig : jsval) (type : string) (path : list nat)
    (p : page) : page :=
  foldl (λ q el, deliver extensionConfig (OnEvent type) el q) p path.

(** Events that reach their elements one after the other. *)
Definition deliver_all (extensionConfig : jsval) (events : list (trigger * nat))
    (p : page) : page :=
  foldl (λ q ev, deliver extensionConfig ev.1 ev.2 q) p events.

(** What the three calls of the [setInputValue] case do to the watched
    page: the property is written, then [input] and [change] are
    dispatched.  What the property reads after [el.value = value] is up to
    the element (a text field drops line breaks, a number field keeps
    numbers only, a select keeps the values of its options), and some
    elements refuse the write with an exception (a file input, a progress
    bar given a text): [assign] is that behaviour of the element, the
    value read after the write, or [None] when the write throws, which
    ends the handler before any event is dispatched. *)
Definition setInputValue (extensionConfig : jsval) (el : nat) (ancestors : list nat)
    (assign : jsval → option jsval) (value : jsval) (p : page) : page :=
  if has_value p el then
    match assign value with
    | Some written =>
        dispatchEvent extensionConfig "change" (el :: ancestors)
          (dispatchEvent extensionConfig "input" (el :: ancestors)
             (set_prop el "value" written p))
    | None => p
    end
  else p.

(** What the callback of a runtime request is called with: the content
    script calls [sendResponse] in the [getData] branch alone, every other
    request is answered with [undefined]. *)
Definition runtime_response (request page_data : jsval) : jsval :=
  match runtime_message_listener request with
  | Some CaptureData => page_data
  | _ => JUndefined
  end.

(** Every message to the iframe is addressed to [origin], which is not
    empty. *)
Definition addressed_to (origin : string) (out : list Content.sent) : Prop :=
  ∀ m target, Content.PostToIframe m target ∈ out → target = origin ∧ origin ≠ "".

(** A value that is identical to itself under [===]: anything but [NaN]
    and a data object built anew on every read. *)
Definition self_identical (v : jsval) : bool := strict_eq v v.

(** Every property of every element reads as such a value. *)
Definition plain_page (p : page) : Prop :=
  ∀ el e k v, elements p !! el = Some e → props e !! k = Some v → self_identical v = true.

(** The [get-tab-info] branch of the window listener. *)
Definition replyTabInfo (extensionConfig : jsval) (href title : string) (now : Z)
    (p : page) : page :=
  if iframe_ready p (panel_frame p) then
    match postMessage
            (JObj [("type", JStr "tab-info");
                   ("data", JObj [("url", JStr href); ("title", JStr title);
                                  ("tabId", tab_id now)])])
            (getTrustedOrigin extensionConfig) with
    | Some s =>
        {| elements := elements p; selected := selected p;
           panel_frame := panel_frame p; content_window := content_window p;
           watchers := watchers p;
           outbox := outbox p ++ [s] |}
    | None => p
    end
  else p.

(** What happens on a watched page: a message from the panel or a runtime
    request is handled (with the location, the title and the time the
    handler reads), an event or a mutation callback reaches an element,
    a property of an element is written.  A DOM action shows here as the
    writes and the events it causes (see [setInputValue] below). *)
Inductive page_event :=
| WindowMessage (event : message_event) (href title : string) (now : Z)
| RuntimeMessage (request : jsval)
| Fires (tr : trigger) (el : nat)
| Writes (el : nat) (name : string) (v : jsval).

Definition window_message_on_page (extensionConfig : jsval) (event : message_event)
    (href title : string) (now : Z) (p : page) : page :=
  match window_message_listener extensionConfig event with
  | Some (HandleDomObserver selector attribute eventType watchId) =>
      handleDomObserver extensionConfig selector attribute eventType watchId p
  | Some (HandleGetDomInfo selector attribute requestId) =>
      handleGetDomInfo extensionConfig selector attribute requestId p
  | Some ReplyTabInfo => replyTabInfo extensionConfig href title now p
  | _ => p
  end.

Definition page_step (extensionConfig : jsval) (e : page_event) (p : page) : page :=
  match e with
  | WindowMessage event href title now =>
      window_message_on_page extensionConfig event href title now p
  | RuntimeMessage request => runtime_message_on_page request p
  | Fires tr el => deliver extensionConfig tr el p
  | Writes el name v => set_prop el name v p
  end.

Fixpoint page_run (extensionConfig : jsval) (es : list page_event) (p : page) : page :=
  match es with
  | [] => p
  | e :: rest => page_run extensionConfig rest (page_step extensionConfig e p)
  end.

(** What the panel iframe receives of the messages the content script
    sends: a message posted to the iframe arrives as it is, a runtime message
    arrives as the relay of the side panel posts it.  This is for messages
    of data that both transports carry unchanged ([json_field] below): the
    structured clone of [postMessage] and the JSON of a runtime message
    differ on [NaN] and on live objects. *)
Definition relayed (e : Sidebar.env) (message : jsval) : list jsval :=
  omap (λ s, match s with
             | Sidebar.PostToIframe v _ => Some v
             | Sidebar.TabsSendMessage _ _ => None
             end) (Sidebar.domValueChanged_relay e message).

Definition heard (e : Sidebar.env) (out : list Content.sent) : list jsval :=
  flat_map (λ m, match m with
                 | Content.PostToIframe v _ => [v]
                 | RuntimeSend v => relayed e v
                 end) out.

(** A value that arrives as it was sent on either transport, the
    structured clone of [postMessage] and the JSON of a runtime message:
    [null], a boolean, an integer, a string, or a data object of such. *)
Fixpoint json_value (v : jsval) : bool :=
  match v with
  | JNull | JBool _ | JNum _ | JStr _ => true
  | JObj fields =>
      (fix all (fs : jsobj) : bool :=
         match fs with
         | [] => true
         | (_, x) :: rest => json_value x && all rest
         end) fields
  | JUndefined | JNaN | JRef _ => false
  end.

(** The same for a field of a message: [undefined] is left out by
    JSON, and is what the receiver reads for a field left out. *)
Definition json_field (v : jsval) : bool :=
  json_value v || strict_eq v JUndefined.

(** Every property of every element reads as such a value. *)
Definition data_page (p : page) : Prop :=
  ∀ el e k v, elements p !! el = Some e → props e !! k = Some v → json_field v = true.

(** The event brings no other value to the page. *)
Definition data_event (ev : page_event) : Prop :=
  match ev with
  | Writes _ _ v => json_field v = true
  | _ => True
  end.

(** Two watches that differ in the route alone: the first posts to the
    iframe [i] it found, the second sends through the runtime; both have a
    [watchId] that the relay lets pass, and carry data. *)
Definition twin (i : nat) (w1 w2 : watcher) : Prop :=
  w_route w1 = ToPanel (Some i) ∧ truthy (w_watchId w1) = true
  ∧ json_field (w_selector w1) = true ∧ json_field (w_attribute w1) = true
  ∧ json_field (w_watchId w1) = true
  ∧ w2 = {| w_el := w_el w1; w_trigger := w_trigger w1; w_selector := w_selector w1;
            w_attribute := w_attribute w1; w_watchId := w_watchId w1;
            w_route := ToRuntime; lastValue := lastValue w1 |}.

(** Two pages that differ in the route of some watches alone, and from
    which the iframe [i], which has its content window, has received the
    same; the properties of their elements read as data. *)
Definition alike (e : Sidebar.env) (i : nat) (p1 p2 : page) : Prop :=
  elements p1 = elements p2 ∧ selected p1 = selected p2
  ∧ panel_frame p1 = panel_frame p2
  ∧ content_window p1 = content_window p2
  ∧ content_window p1 i = true
  ∧ data_page p1
  ∧ Forall2 (λ w1 w2, w1 = w2 ∨ twin i w1 w2) (watchers p1) (watchers p2)
  ∧ heard e (outbox p1) = heard e (outbox p2).



(** The watch has seen the value its element has now. *)
Definition up_to_date (p : page) (w : watcher) : bool :=
  strict_eq (read_value (to_string (w_attribute w)) (element_of p (w_el w))) (lastValue w).

(** What a delivery does to one watch. *)
Definition after_event (extensionConfig : jsval) (p : page) (tr : trigger) (el : nat)
    (w : watcher) : watcher :=
  if triggered tr el w then (run_watcher extensionConfig p w).1 else w.

End DomActions.

End Actions.

(** * Reading the configuration by path *)

Module ConfigPath.
Import Content.

(** [keys.join('.')] *)
Fixpoint join_dots (keys : list string) : string :=
  match keys with
  | [] => ""
  | [k] => k
  | k :: rest => k +:+ "." +:+ join_dots rest
  end.

(** The string has no dot. *)
Fixpoint dotless (s : string) : bool :=
  match s with
  | EmptyString => true
  | String c rest => negb (Ascii.eqb c "."%char) && dotless rest
  end.

(** The names every object inherits from [Object.prototype], for which
    [key in value] holds of any object. *)
Definition inherited : list string :=
  ["constructor"; "hasOwnProperty"; "isPrototypeOf"; "propertyIsEnumerable";
   "toLocaleString"; "toString"; "valueOf"; "__proto__"; "__defineGetter__";
   "__defineSetter__"; "__lookupGetter__"; "__lookupSetter__"].

(** A key that an object has only if it is a field of its own. *)
Definition own_key (key : string) : bool := negb (bool_decide (key ∈ inherited)).

(** Following the keys through nested objects; [None] when a key is
    missing or a value on the way is not an object. *)
Fixpoint descend (keys : list string) (value : jsval) : option jsval :=
  match keys with
  | [] => Some value
  | key :: rest =>
      match value with
      | JObj fields =>
          match lookup_field key fields with
          | Some v => descend rest v
          | None => None
          end
      | _ => None
      end
  end.

End ConfigPath.

(** * Observations on the URL change detector *)

Module UrlTrace.
Import Content.

(** The old and the new URL of a URL_CHANGED message. *)
Definition url_change (m : Content.sent) : option (string * string) :=
  match m with
  | RuntimeSend v =>
      if strict_eq (get "action" v) (JStr "URL_CHANGED") then
        match get "oldUrl" v, get "newUrl" v with
        | JStr old, JStr new => Some (old, new)
        | _, _ => None
        end
      else None
  | Content.PostToIframe _ _ => None
  end.

Definition url_changes (out : list Content.sent) : list (string * string) :=
  omap url_change out.

(** The changes lead from [start] step by step, each from where the one
    before ended and to a different URL; the result is where they end. *)
Fixpoint chain_end (start : string) (changes : list (string * string)) : option string :=
  match changes with
  | [] => Some start
  | (old, new) :: rest =>
      if String.eqb old start && negb (String.eqb new old) then chain_end new rest
      else None
  end.

(** The event moves the location (to the same URL, possibly). *)
Definition moves (e : nav_event) : bool :=
  match e with
  | PushState (NewUrl _) | ReplaceState (NewUrl _) | LocationChange _ => true
  | _ => false
  end.

(** One when [currentUrl] is behind the location. *)
Definition behind (st : nav) : nat :=
  if String.eqb (location_href st) (currentUrl st) then 0%nat else 1%nat.

(** The records of a batch that are about the child list of the TITLE
    element. *)
Definition about_title (m : mutation_record) : bool :=
  String.eqb (m_type m) "childList" && String.eqb (m_target m) "TITLE".

End UrlTrace.

(** * Events on the panel *)

Module PanelTrace.
Import Content.






(** The content script of a page that was loaded anew, over the same
    storage. *)
Definition reload (href : string) (st : panel) : panel :=
  {| storage := storage st; href := href; wrapper := None; tasks := [] |}.

End PanelTrace.

(** * Resizing the panel *)

Module Resize.
Import QArith_base.

(** The variables of [setupResizeHandle] that the drag uses; the numbers
    are rationals, the two bounds are given as computed. *)
Record drag := {
  dragging : bool;
  startX : Q;
  startWidth : Q;
  minWidth : Q;
  maxWidth : Q
}.

(** The [mousedown] listener of the handle. *)
Definition mousedown (clientX offsetWidth : Q) (d : drag) : drag :=
  {| dragging := true; startX := clientX; startWidth := offsetWidth;
     minWidth := minWidth d; maxWidth := maxWidth d |}.

(** [resizeMove(e)]: the width it asks for, [None] when it returns at
    once. *)
Definition resizeMove (clientX : Q) (d : drag) : option Q :=
  if negb (dragging d) then None
  else
    let delta := Qminus (startX d) clientX in
    Some (Qminmax.Qmax (minWidth d)
            (Qminmax.Qmin (maxWidth d) (Qplus (startWidth d) delta))).

(** The [resize] listener of the window: the upper bound follows the
    window, and a panel wider than the new bound is set to it.  [product]
    is the number the code computes for
    [window.innerWidth * (maxWidthPercent / 100)], rounding included. *)
Definition window_resize (product offsetWidth : Q) (d : drag) : drag * option Q :=
  ({| dragging := dragging d; startX := startX d; startWidth := startWidth d;
      minWidth := minWidth d; maxWidth := product |},
   if Qlt_le_dec product offsetWidth then Some product else None).

(** [resizeStop(e)] *)
Definition resizeStop (d : drag) : drag :=
  {| dragging := false; startX := startX d; startWidth := startWidth d;
     minWidth := minWidth d; maxWidth := maxWidth d |}.

End Resize.

(** * The runtime listener of the background script *)

Module BackgroundListener.

(** What the listener does with a request. *)
Inductive effect :=
| CaptureVisibleTab                          (* chrome.tabs.captureVisibleTab *)
| ToTab (tabId : nat) (message : jsval)      (* chrome.tabs.sendMessage *)
| Broadcast (message : jsval)                (* chrome.runtime.sendMessage *)
| Respond (response : jsval).                (* sendResponse, at once *)

(** [chrome.runtime.onMessage.addListener(...)] of the background script:
    the effects, and whether the listener returns [true] to keep the
    channel open.  [sender_tab] is [sender.tab.id] when the sender is a
    tab, [active_tab] is [tabs[0].id] of the tab query. *)
Definition runtime_listener (request : jsval) (sender_tab active_tab : option nat)
  : list effect * bool :=
  let action := get "action" request in
  if strict_eq action (JStr "captureScreenshot") then ([CaptureVisibleTab], true)
  else
    ((if strict_eq action (JStr "overwriteText") then
        match active_tab with
        | Some tabId =>
            [ToTab tabId (JObj [("action", JStr "overwriteText");
                                ("text", get "text" request)])]
        | None => []
        end
      else [])
     ++ (if strict_eq action (JStr "getUserData")
         then [Respond (JObj [("userData", JObj [])])] else [])
     ++ (if strict_eq (get "type" request) (JStr "NORDCRAFT_ACTION") then
           if strict_eq action (JStr "READ_URL") then []
           else if strict_eq action (JStr "URL_CHANGED") then
             [Broadcast
                (JObj [("type", JStr "SIDEBAR_UPDATE_URL");
                       ("url", get "newUrl" request);
                       ("title", get "title" request);
                       ("tabId", match sender_tab with
                                 | Some t => JNum (Z.of_nat t)
                                 | None => JNull
                                 end);
                       ("changeType", JStr "spa_navigation")])]
           else []
         else [])
     ++ (if strict_eq action (JStr "openSidebar") then
           match sender_tab with
           | Some tabId => [ToTab tabId (JObj [("action", JStr "showCustomSidebar")])]
           | None => []
           end
         else []),
     false).

(** The messages of the effects that go to the tab [tabId]. *)
Definition to_tab (tabId : nat) (effects : list effect) : list jsval :=
  omap (λ e, match e with
             | ToTab t message => if Nat.eqb t tabId then Some message else None
             | _ => None
             end) effects.

End BackgroundListener.

(** * Properties *)

Import Content.

(** ** URL change detection *)

Section UrlChangeDetectionFacts.
Context `{Platform}.
Variable extensionConfig : jsval.

Lemma notify_announces_once now newUrl oldUrl st :
  length (filter is_url_changed (notifyUrlChange extensionConfig now newUrl oldUrl st)) = 1%nat.
Proof.
  unfold notifyUrlChange, postMessage.
  destruct (nav_frame st); [|reflexivity].
  destruct (postable _); reflexivity.
Qed.

Lemma notify_panel_at_most_once now newUrl oldUrl st :
  (length (filter is_panel_url_changed
            (notifyUrlChange extensionConfig now newUrl oldUrl st)) <= 1)%nat.
Proof.
  unfold notifyUrlChange, postMessage.
  destruct (nav_frame st); [|simpl; lia].
  destruct (postable _); simpl; lia.
Qed.

Lemma title_observer_keeps ms st :
  location_href (title_observer ms st) = location_href st
  ∧ currentUrl (title_observer ms st) = currentUrl st
  ∧ nav_outbox (title_observer ms st) = nav_outbox st.
Proof.
  revert st. induction ms as [|m ms IH]; intros st; [done|].
  simpl. destruct (_ && _); [|apply IH].
  destruct (IH {| location_href := location_href st; document_title := document_title st;
                  nav_frame := nav_frame st; currentUrl := currentUrl st;
                  currentTitle := document_title st;
                  settle_timers := S (settle_timers st);
                  nav_outbox := nav_outbox st |}) as (-> & -> & ->).
  done.
Qed.

(** One step either leaves [currentUrl] and the outbox alone, or sets
    [currentUrl] to the location and announces once. *)
Lemma nav_step_cases now e st :
  let st' := nav_step extensionConfig now e st in
  (currentUrl st' = currentUrl st ∧ nav_outbox st' = nav_outbox st
   ∧ (compares st e = true → currentUrl st = location_href st'))
  ∨ (compares st e = true ∧ currentUrl st ≠ location_href st'
     ∧ currentUrl st' = location_href st'
     ∧ ∃ oldUrl st0, nav_outbox st' =
         nav_outbox st ++ notifyUrlChange extensionConfig now (location_href st') oldUrl st0).
Proof.
  (* every comparison is [newUrl !== currentUrl] on some location [l] *)
  assert (∀ l, let '(b, P) := (String.eqb l (currentUrl st), l = currentUrl st) in
               (b = true ∧ P) ∨ (b = false ∧ ¬ P)) as Hcmp.
  { intros l. destruct (String.eqb_spec l (currentUrl st)); auto. }
  destruct e as [args|args| | |ms| |t|h]; simpl;
    try (unfold history_wrapper; destruct args as [|h|]; simpl);
    try unfold popstate_listener; try unfold poll_callback;
    try (by left);
    try (destruct (Hcmp (location_href st)) as [[-> Heq]|[-> Hne]]; simpl;
         [left; by rewrite Heq | right; repeat split; [congruence | eauto]]).
  - destruct (Hcmp h) as [[-> Heq]|[-> Hne]]; simpl;
      [left; by rewrite Heq | right; repeat split; [congruence | eauto]].
  - destruct (Hcmp h) as [[-> Heq]|[-> Hne]]; simpl;
      [left; by rewrite Heq | right; repeat split; [congruence | eauto]].
  - left. destruct (title_observer_keeps ms st) as (_ & -> & ->). done.
  - unfold settle_callback. destruct (settle_timers st) as [|n]; simpl; [left; done|].
    destruct (Hcmp (location_href st)) as [[-> Heq]|[-> Hne]]; simpl;
      [left; by rewrite Heq | right; repeat split; [congruence | eauto]].
Qed.

Lemma stays_location now e st href :
  stays_at href e = true → location_href st = href →
  location_href (nav_step extensionConfig now e st) = href.
Proof.
  intros Hs Hl. destruct e as [args|args| | |ms| |t|h]; simpl in *; try done.
  - unfold history_wrapper. destruct args as [|h|]; simpl in *; try done.
    + by destruct (negb _).
    + apply String.eqb_eq in Hs. subst h. by destruct (negb _).
  - unfold history_wrapper. destruct args as [|h|]; simpl in *; try done.
    + by destruct (negb _).
    + apply String.eqb_eq in Hs. subst h. by destruct (negb _).
  - unfold popstate_listener. by destruct (negb _).
  - unfold poll_callback. by destruct (negb _).
  - by destruct (title_observer_keeps ms st) as (-> & _ & _).
  - unfold settle_callback. destruct (settle_timers st); [done|]. simpl. by destruct (negb _).
Qed.

Lemma goes_location now e st href :
  goes_to href e = true → location_href (nav_step extensionConfig now e st) = href.
Proof.
  intros Hg. destruct e as [args|args| | |ms| |t|h]; simpl in *; try done.
  - destruct args as [|h|]; try done. apply String.eqb_eq in Hg. subst h.
    unfold history_wrapper. simpl. by destruct (negb _).
  - destruct args as [|h|]; try done. apply String.eqb_eq in Hg. subst h.
    unfold history_wrapper. simpl. by destruct (negb _).
  - by apply String.eqb_eq in Hg.
Qed.

(** Once [currentUrl] equals the location, a signal is silent. *)
Lemma synced_step_silent now e st :
  currentUrl st = location_href st → stays_at (location_href st) e = true →
  let st' := nav_step extensionConfig now e st in
  nav_outbox st' = nav_outbox st ∧ currentUrl st' = currentUrl st
  ∧ location_href st' = location_href st.
Proof.
  intros Hsync Hs. cbv zeta.
  pose proof (stays_location now e st _ Hs eq_refl) as Hl.
  destruct (nav_step_cases now e st) as [(Hc & Ho & _)|(_ & Hne & _)].
  - done.
  - congruence.
Qed.

Lemma synced_run_silent es st :
  currentUrl st = location_href st →
  Forall (λ s, stays_at (location_href st) s.2 = true) es →
  let st' := nav_run extensionConfig es st in
  nav_outbox st' = nav_outbox st ∧ currentUrl st' = currentUrl st
  ∧ location_href st' = location_href st.
Proof.
  revert st. induction es as [|[now e] es IH]; intros st Hsync Hall; [done|].
  apply Forall_cons in Hall as [Hs Hall]. simpl in Hs.
  destruct (synced_step_silent now e st Hsync Hs) as (Ho & Hc & Hl).
  simpl. destruct (IH (nav_step extensionConfig now e st)) as (Ho' & Hc' & Hl').
  - congruence.
  - by rewrite Hl.
  - split_and!; congruence.
Qed.

(** With the location ahead of [currentUrl], the first comparison that
    runs announces the change, and it is the only one that does. *)
Lemma pending_run_once es st :
  currentUrl st ≠ location_href st →
  Forall (λ s, stays_at (location_href st) s.2 = true) es →
  observed extensionConfig es st = true →
  let st' := nav_run extensionConfig es st in
  announced st' = S (announced st)
  ∧ (announced_to_panel st' <= S (announced_to_panel st))%nat
  ∧ currentUrl st' = location_href st ∧ location_href st' = location_href st.
Proof.
  revert st. induction es as [|[now e] es IH]; intros st Hne Hall Hobs; [done|].
  apply Forall_cons in Hall as [Hs Hall]. simpl in Hs, Hobs.
  pose proof (stays_location now e st _ Hs eq_refl) as Hl.
  destruct (nav_step_cases now e st) as [(Hc & Ho & Himp)|(_ & _ & Hc & old & st0 & Ho)].
  - destruct (compares st e) eqn:Hcmp.
    { specialize (Himp eq_refl). congruence. }
    simpl in Hobs. simpl.
    destruct (IH (nav_step extensionConfig now e st)) as (Ha & Hp & Hc' & Hl').
    + congruence.
    + by rewrite Hl.
    + done.
    + unfold announced, announced_to_panel in *. rewrite Ho in Ha, Hp.
      split_and!; [done | done | congruence | congruence].
  - simpl.
    destruct (synced_run_silent es (nav_step extensionConfig now e st))
      as (Ho' & Hc' & Hl').
    + congruence.
    + by rewrite Hl.
    + unfold announced, announced_to_panel. rewrite Ho', Ho, !filter_app, !length_app.
      rewrite notify_announces_once.
      pose proof (notify_panel_at_most_once now (location_href (nav_step extensionConfig now e st)) old st0).
      split_and!; [lia | lia | congruence | congruence].
Qed.

(** C1. One navigation, announced once: from a detector whose [currentUrl]
    equals the location, let the location change to [href] (through a
    wrapped history call or behind the wrappers) and let any signals follow
    in any order while the location stays there.  If at least one of the
    four comparisons runs, exactly one URL_CHANGED message has been sent (and
    at most one [url-changed] message to the panel), [currentUrl] equals the
    final location, and any signal that runs afterwards sends nothing. *)
Theorem navigation_announced_exactly_once
    (st : nav) (href : string) (now : Z) (e : nav_event) (signals : list (Z * nav_event)) :
  currentUrl st = location_href st →
  location_href st ≠ href →
  goes_to href e = true →
  Forall (λ s, stays_at href s.2 = true) signals →
  observed extensionConfig ((now, e) :: signals) st = true →
  let st' := nav_run extensionConfig ((now, e) :: signals) st in
  announced st' = S (announced st)
  ∧ (announced_to_panel st' <= S (announced_to_panel st))%nat
  ∧ currentUrl st' = href
  ∧ location_href st' = href
  ∧ ∀ later e', stays_at href e' = true →
      nav_outbox (nav_step extensionConfig later e' st') = nav_outbox st'.
Proof.
  intros Hsync Hne Hgo Hall Hobs st'.
  pose proof (goes_location now e st href Hgo) as Hl.
  assert (announced st' = S (announced st)
          ∧ (announced_to_panel st' <= S (announced_to_panel st))%nat
          ∧ currentUrl st' = href ∧ location_href st' = href) as (Ha & Hp & Hc & Hl').
  { subst st'. simpl in *.
    destruct (nav_step_cases now e st) as [(Hc & Ho & Himp)|(_ & _ & Hc & old & st0 & Ho)].
    - destruct (compares st e) eqn:Hcmp.
      { specialize (Himp eq_refl). congruence. }
      simpl in Hobs.
      destruct (pending_run_once signals (nav_step extensionConfig now e st))
        as (Ha & Hp & Hc' & Hl').
      + congruence.
      + by rewrite Hl.
      + done.
      + unfold announced, announced_to_panel in *. rewrite Ho in Ha, Hp.
        split_and!; [done | done | congruence | congruence].
    - destruct (synced_run_silent signals (nav_step extensionConfig now e st))
        as (Ho' & Hc' & Hl').
      + congruence.
      + by rewrite Hl.
      + unfold announced, announced_to_panel. rewrite Ho', Ho, !filter_app, !length_app.
        rewrite notify_announces_once.
        pose proof (notify_panel_at_most_once now
                      (location_href (nav_step extensionConfig now e st)) old st0).
        split_and!; [lia | lia | congruence | congruence]. }
  split_and!; try done.
  intros later e' Hs.
  destruct (synced_step_silent later e' st') as (Ho & _ & _); [congruence | by rewrite Hl' | done].
Qed.

End UrlChangeDetectionFacts.

(** ** Web component injection *)

Section InjectionFacts.

Local Arguments String.eqb : simpl never.

(** Induction over the tree, with the hypothesis for every child. *)
Lemma node_induction (P : node → Prop) :
  (∀ t a ks, Forall P ks → P (Elem t a ks)) → ∀ n, P n.
Proof.
  intros Hstep. fix IH 1. intros [t a ks]. apply Hstep.
  induction ks as [|k ks IHks]; constructor; [apply IH | apply IHks].
Qed.

Lemma first_below_none f i ks :
  first_below f i ks = None ↔ Forall (λ k, f k = None) ks.
Proof.
  revert i. induction ks as [|k ks IH]; intros i; simpl.
  - split; [constructor | done].
  - destruct (f k) eqn:Hk.
    + split; [done | intros HF; apply Forall_cons in HF as [? _]; congruence].
    + rewrite IH. split; [by constructor | by intros HF; apply Forall_cons in HF as [_ ?]].
Qed.

Lemma first_below_some f i ks p :
  first_below f i ks = Some p →
  ∃ j k q, p = (i + j)%nat :: q ∧ ks !! j = Some k ∧ f k = Some q.
Proof.
  revert i. induction ks as [|k ks IH]; intros i; simpl; [done|].
  destruct (f k) as [q|] eqn:Hk.
  - intros [= <-]. exists 0%nat, k, q. rewrite Nat.add_0_r. done.
  - intros Hgo. destruct (IH _ Hgo) as (j & k' & q & -> & Hj & Hq).
    exists (S j), k', q. split_and!; [f_equal; lia | done | done].
Qed.

Lemma sum_zero_Forall (f : node → nat) ks :
  sum_list_with f ks = 0%nat ↔ Forall (λ k, f k = 0%nat) ks.
Proof.
  induction ks as [|k ks IH]; simpl.
  - split; [constructor | done].
  - split.
    + intros Hs. constructor; [lia | apply IH; lia].
    + intros HF. apply Forall_cons in HF as [Hk HF]. apply IH in HF. lia.
Qed.

(** Nothing found means nothing there. *)
Lemma find_none_count s n : find s n = None ↔ count (matches s) n = 0%nat.
Proof.
  induction n as [t a ks IH] using node_induction. simpl.
  destruct (matches s (Elem t a ks)); simpl.
  - split; [done | lia].
  - rewrite first_below_none, sum_zero_Forall.
    rewrite !Forall_forall in *. split; intros Hall k Hk; apply IH; auto.
Qed.

(** What is found is in the tree and matches. *)
Lemma find_some_at s n p :
  find s n = Some p → ∃ m, node_at p n = Some m ∧ matches s m = true.
Proof.
  revert p. induction n as [t a ks IH] using node_induction. intros p. simpl.
  destruct (matches s (Elem t a ks)) eqn:Hm.
  - intros [= <-]. eauto.
  - intros Hb. apply first_below_some in Hb as (j & k & q & -> & Hj & Hq).
    rewrite Forall_forall in IH.
    destruct (IH k (list_elem_of_lookup_2 _ _ _ Hj) q Hq) as (m & Hat & Hmm).
    exists m. simpl. rewrite Hj. done.
Qed.

Lemma querySelector_some_at s n p :
  querySelector s n = Some p → ∃ m, node_at p n = Some m ∧ matches s m = true.
Proof.
  unfold querySelector. intros Hb.
  apply first_below_some in Hb as (j & k & q & -> & Hj & Hq).
  destruct (find_some_at s k q Hq) as (m & Hat & Hm).
  exists m. simpl. rewrite Hj. done.
Qed.

Lemma querySelector_none_count s n :
  querySelector s n = None ↔ sum_list_with (count (matches s)) (children_of n) = 0%nat.
Proof.
  unfold querySelector. rewrite first_below_none, sum_zero_Forall.
  rewrite !Forall_forall. split; intros Hall k Hk; apply find_none_count; auto.
Qed.

Lemma sum_alter (f : node → nat) (g : node → node) i ks k :
  ks !! i = Some k →
  (sum_list_with f (alter g i ks) + f k = sum_list_with f ks + f (g k))%nat.
Proof.
  revert i. induction ks as [|x ks IH]; intros [|i] Hi; simpl in *; try done.
  - injection Hi as ->. lia.
  - specialize (IH i Hi). change (list_alter g i ks) with (alter g i ks). lia.
Qed.

Lemma matches_children s t a ks ks' : matches s (Elem t a ks) = matches s (Elem t a ks').
Proof. by destruct s. Qed.

(** Counting after a change at a place of the tree. *)
Lemma count_modify_at s p f n m :
  node_at p n = Some m →
  (count (matches s) (modify_at p f n) + count (matches s) m
   = count (matches s) n + count (matches s) (f m))%nat.
Proof.
  revert n. induction p as [|i p IH]; intros n Hat; simpl in *.
  - injection Hat as ->. lia.
  - destruct n as [t a ks]. simpl in *.
    destruct (ks !! i) as [k|] eqn:Hi; [|done].
    specialize (IH k Hat).
    pose proof (sum_alter (count (matches s)) (modify_at p f) i ks k Hi) as Hsum.
    rewrite (matches_children s t a (alter (modify_at p f) i ks) ks).
    lia.
Qed.

Lemma sum_lookup_le (f : node → nat) ks i k :
  ks !! i = Some k → (f k <= sum_list_with f ks)%nat.
Proof.
  revert i. induction ks as [|x ks IH]; intros [|i] Hi; simpl in *; try done.
  - injection Hi as ->. lia.
  - specialize (IH i Hi). lia.
Qed.

Lemma count_node_at_le P p n m : node_at p n = Some m → (count P m <= count P n)%nat.
Proof.
  revert n. induction p as [|i p IH]; intros n Hat; simpl in *.
  - injection Hat as ->. lia.
  - destruct n as [t a ks]. simpl in *.
    destruct (ks !! i) as [k|] eqn:Hi; [|done].
    specialize (IH k Hat). pose proof (sum_lookup_le (count P) ks i k Hi). lia.
Qed.

Lemma forallb_lookup (Q : node → bool) ks i k :
  forallb Q ks = true → ks !! i = Some k → Q k = true.
Proof.
  revert i. induction ks as [|x ks IH]; intros [|i] Hall Hi; simpl in *; try done;
    apply andb_prop in Hall as [Hx Hall].
  - by injection Hi as <-.
  - eauto.
Qed.

Lemma forallb_alter (Q R : node → bool) (g : node → node) ks i :
  forallb R ks = true → (∀ k, R k = true → Q k = true) →
  (∀ k, ks !! i = Some k → Q (g k) = true) →
  forallb Q (alter g i ks) = true.
Proof.
  intros Hall Himp. revert i.
  induction ks as [|x ks IH]; intros i Hi; [done|].
  simpl in Hall. apply andb_prop in Hall as [Hx Hall].
  destruct i as [|i]; simpl.
  - rewrite (Hi x eq_refl). simpl.
    clear -Hall Himp. induction ks as [|y ks IH]; [done|].
    simpl in *. apply andb_prop in Hall as [Hy Hall]. by rewrite (Himp y Hy), IH.
  - rewrite (Himp x Hx). simpl. change (list_alter g i ks) with (alter g i ks).
    apply IH; [done|]. intros k Hk. by apply (Hi k).
Qed.

Lemma every_node_at P p n m :
  every P n = true → node_at p n = Some m → P m = true.
Proof.
  revert n. induction p as [|i p IH]; intros n Hall Hat; simpl in *.
  - injection Hat as <-. destruct n. simpl in Hall. by apply andb_prop in Hall as [? _].
  - destruct n as [t a ks]. simpl in *.
    destruct (ks !! i) as [k|] eqn:Hi; [|done].
    apply andb_prop in Hall as [_ Hall]. eauto using forallb_lookup.
Qed.

Lemma forallb_Forall_impl (F G : node → bool) ks :
  Forall (λ k, F k = true → G k = true) ks → forallb F ks = true → forallb G ks = true.
Proof.
  induction 1 as [|k ks Hk _ IH]; [done|]. simpl.
  intros Hall. apply andb_prop in Hall as [HF Hall]. by rewrite Hk, IH.
Qed.

Lemma every_impl (P Q : node → bool) n :
  (∀ x, P x = true → Q x = true) → every P n = true → every Q n = true.
Proof.
  intros Himp. induction n as [t a ks IH] using node_induction. simpl.
  intros Hall. apply andb_prop in Hall as [Hn Hall].
  rewrite (Himp _ Hn). simpl. by apply (forallb_Forall_impl (every P)).
Qed.

(** No match anywhere, said with [every]. *)
Lemma count_zero_every s n :
  count (matches s) n = 0%nat → every (λ x, negb (matches s x)) n = true.
Proof.
  induction n as [t a ks IH] using node_induction. simpl.
  destruct (matches s (Elem t a ks)); simpl; [lia|].
  intros Hsum. apply sum_zero_Forall in Hsum.
  induction ks as [|k ks IHks]; [done|].
  simpl. apply Forall_cons in IH as [IHk IH]. apply Forall_cons in Hsum as [Hk Hsum].
  by rewrite IHk, IHks.
Qed.

(** A change below nodes that are not of the component type keeps every
    component mounted, when the changed part is. *)
Lemma mounted_modify_at name src p f n m :
  every (λ x, negb (matches (ByTag name) x)) n = true →
  node_at p n = Some m →
  every (mounted name src) (f m) = true →
  every (mounted name src) (modify_at p f n) = true.
Proof.
  revert n. induction p as [|i p IH]; intros n Hno Hat Hf; simpl in *.
  - by injection Hat as ->.
  - destruct n as [t a ks]. simpl in *.
    destruct (ks !! i) as [k|] eqn:Hi; [|done].
    apply andb_prop in Hno as [Ht Hno].
    apply andb_true_intro. split.
    + unfold mounted. simpl in *. by destruct (String.eqb t name).
    + apply (forallb_alter _ (every (λ x, negb (matches (ByTag name) x)))); [done| |].
      * intros x. apply every_impl.
        intros y Hy. unfold mounted. by destruct (matches (ByTag name) y).
      * intros k' Hk'. assert (k' = k) as -> by congruence.
        apply IH; [|done|done]. by apply (forallb_lookup _ ks i).
Qed.

Lemma first_tagged_lookup t i ks j :
  first_tagged t i ks = Some j →
  ∃ k, ks !! (j - i)%nat = Some k ∧ tag_of k = t ∧ (i <= j)%nat.
Proof.
  revert i. induction ks as [|x ks IH]; intros i; simpl; [done|].
  destruct (String.eqb_spec (tag_of x) t) as [Heq|_].
  - intros [= <-]. exists x. rewrite Nat.sub_diag. done.
  - intros Hf. destruct (IH _ Hf) as (k & Hk & Ht & Hle).
    exists k. replace (j - i)%nat with (S (j - S i)) by lia. split_and!; [done|done|lia].
Qed.

Lemma body_path_at root b : body_path root = Some b → is_Some (node_at b root).
Proof.
  unfold body_path. destruct (first_tagged _ _ _) as [i|] eqn:Hf; [|done].
  intros [= <-]. apply first_tagged_lookup in Hf as (k & Hk & _ & _).
  rewrite Nat.sub_0_r in Hk. simpl. rewrite Hk. eauto.
Qed.

Section Placing.
Variables name src : string.
Hypothesis name_not_script : name ≠ "script".

Let X := custom_element name src.

Lemma custom_element_elements : count_elements name X = 1%nat.
Proof.
  unfold count_elements, X, custom_element, script_element. simpl.
  rewrite String.eqb_refl.
  destruct (String.eqb_spec "script" name) as [Heq|_]; [by destruct name_not_script|done].
Qed.

Lemma custom_element_scripts : count_scripts src X = 1%nat.
Proof.
  unfold count_scripts, X, custom_element, script_element, script_selector. simpl.
  destruct (String.eqb_spec name "script") as [Heq|_]; [done|]. simpl.
  by rewrite bool_decide_eq_true_2.
Qed.

Lemma custom_element_mounted : every (mounted name src) X = true.
Proof.
  unfold X, custom_element, script_element, mounted, querySelector, script_selector.
  simpl. rewrite String.eqb_refl. simpl.
  rewrite (bool_decide_eq_true_2 (Some src = Some src)); [|done]. simpl.
  destruct (String.eqb_spec "script" name) as [Heq|_]; [by destruct name_not_script|done].
Qed.

Lemma count_appendChild s k m :
  count (matches s) (appendChild k m)
  = (count (matches s) m + count (matches s) k)%nat.
Proof.
  destruct m as [t a ks]. unfold appendChild. simpl.
  rewrite (matches_children s t a (ks ++ [k]) ks), sum_list_with_app. simpl. lia.
Qed.

Lemma count_insertFirst s k m :
  count (matches s) (insertFirst k m)
  = (count (matches s) m + count (matches s) k)%nat.
Proof.
  destruct m as [t a ks]. unfold insertFirst. simpl.
  rewrite (matches_children s t a (k :: ks) ks). lia.
Qed.

Lemma mounted_unnamed n :
  every (λ x, negb (matches (ByTag name) x)) n = true → every (mounted name src) n = true.
Proof.
  apply every_impl. intros y Hy. unfold mounted. by destruct (matches (ByTag name) y).
Qed.

Lemma mounted_appendChild k m :
  every (mounted name src) k = true →
  every (λ x, negb (matches (ByTag name) x)) m = true →
  every (mounted name src) (appendChild k m) = true.
Proof.
  destruct m as [t a ks]. unfold appendChild. simpl. intros Hk Hno.
  apply andb_prop in Hno as [Ht Hno]. apply andb_true_intro. split.
  - unfold mounted. simpl in *. by destruct (String.eqb t name).
  - rewrite forallb_app. apply andb_true_intro. split.
    + apply (forallb_Forall_impl (every (λ x, negb (matches (ByTag name) x)))); [|done].
      apply Forall_forall. intros k' _. apply mounted_unnamed.
    + simpl. by rewrite Hk.
Qed.

Lemma mounted_insertFirst k m :
  every (mounted name src) k = true →
  every (λ x, negb (matches (ByTag name) x)) m = true →
  every (mounted name src) (insertFirst k m) = true.
Proof.
  destruct m as [t a ks]. unfold insertFirst. simpl. intros Hk Hno.
  apply andb_prop in Hno as [Ht Hno]. apply andb_true_intro. split.
  - unfold mounted. simpl in *. by destruct (String.eqb t name).
  - rewrite Hk. simpl.
    apply (forallb_Forall_impl (every (λ x, negb (matches (ByTag name) x)))); [|done].
    apply Forall_forall. intros k' _. apply mounted_unnamed.
Qed.

(** Putting the new element into a document that has neither the element
    nor the script gives exactly one of each, with the script mounted. *)
Lemma placed_once (F : node → node) t d m :
  count_elements name d = 0%nat → count_scripts src d = 0%nat →
  node_at t d = Some m →
  (∀ s, count (matches s) m = 0%nat →
        count (matches s) (F m) = (count (matches s) m + count (matches s) X)%nat) →
  (every (λ x, negb (matches (ByTag name) x)) m = true →
   every (mounted name src) (F m) = true) →
  count_elements name (modify_at t F d) = 1%nat
  ∧ count_scripts src (modify_at t F d) = 1%nat
  ∧ every (mounted name src) (modify_at t F d) = true.
Proof.
  intros He Hs Hat Hcount Hmounted.
  pose proof (count_node_at_le (matches (ByTag name)) t d m Hat) as Hle1.
  pose proof (count_node_at_le (matches (script_selector src)) t d m Hat) as Hle2.
  unfold count_elements, count_scripts in *.
  assert (count (matches (ByTag name)) m = 0%nat) as Hm1 by lia.
  assert (count (matches (script_selector src)) m = 0%nat) as Hm2 by lia.
  pose proof (count_modify_at (ByTag name) t F d m Hat) as H1.
  pose proof (count_modify_at (script_selector src) t F d m Hat) as H2.
  rewrite (Hcount _ Hm1) in H1. rewrite (Hcount _ Hm2) in H2.
  pose proof custom_element_elements as HX1. pose proof custom_element_scripts as HX2.
  unfold count_elements, count_scripts in *.
  split_and!; [lia | lia |].
  apply (mounted_modify_at name src t F d m); [by apply count_zero_every | done |].
  apply Hmounted. by apply count_zero_every.
Qed.

(** [createCustomElement] on a document without the element and the
    script, with the registry ready and a place to put the element. *)
Lemma createCustomElement_first (request : inject_request) (st : dom) :
  to_string (r_name request) = name → to_string (r_src request) = src →
  ready name st = true →
  count_elements name (document st) = 0%nat →
  count_scripts src (document st) = 0%nat →
  (∃ s t, r_selector request = Some s ∧ find s (document st) = Some t)
  ∨ (r_selector request ≫= (λ s, find s (document st)) = None
     ∧ is_Some (body_path (document st))) →
  let st1 := createCustomElement request st in
  count_elements name (document st1) = 1%nat
  ∧ count_scripts src (document st1) = 1%nat
  ∧ every (mounted name src) (document st1) = true
  ∧ customElements st1 = customElements st ∧ retries st1 = retries st.
Proof.
  intros Hname Hsrc Hready He Hs Hplace. cbv zeta.
  unfold createCustomElement. rewrite Hname, Hsrc.
  unfold ready in Hready. 
  replace (match customElements st with
           | Some registry => bool_decide (name ∈ registry)
           | None => true
           end) with true.
  cbn [negb].
  assert (∀ p m, node_at p (document st) = Some m →
                 querySelector (ByTag name) m = None) as Hnone.
  { intros p m Hat. apply querySelector_none_count.
    pose proof (count_node_at_le (matches (ByTag name)) p _ m Hat) as Hle.
    unfold count_elements in He. destruct m as [t a ks]. simpl in *. lia. }
  destruct Hplace as [(s & t & Hsel & Hfind)|(Hsel & Hbody)].
  - rewrite Hsel, Hfind.
    destruct (find_some_at s _ t Hfind) as (m & Hat & _).
    rewrite Hat, (Hnone t m Hat).
    rewrite (bool_decide_eq_false_2 (is_Some None)); [|by intros [? ?]].
    assert (match t with
            | [] => bool_decide (is_Some (find (ByTag name) (document st)))
            | _ :: _ =>
                match node_at (removelast t) (document st) with
                | Some parent => bool_decide (is_Some (querySelector (ByTag name) parent))
                | None => false
                end
            end = false) as ->.
    { destruct t as [|i t'].
      - apply bool_decide_eq_false_2. intros [q Hq].
        apply (proj2 (find_none_count (ByTag name) (document st))) in He. congruence.
      - destruct (node_at (removelast (i :: t')) (document st)) as [parent|] eqn:Hp; [|done].
        rewrite (Hnone _ _ Hp). apply bool_decide_eq_false_2. by intros [? ?]. }
    cbn [orb].
    destruct (strict_eq _ (JStr "replace")); [|destruct (strict_eq _ (JStr "prepend"))];
      cbn [document customElements retries with_document].
    + destruct (placed_once (λ _, X) t (document st) m He Hs Hat) as (? & ? & ?); [| |done].
      * intros s0 ->. done.
      * intros _. apply custom_element_mounted.
    + destruct (placed_once (insertFirst X) t (document st) m He Hs Hat) as (? & ? & ?);
        [| |done].
      * intros s0 _. apply count_insertFirst.
      * apply mounted_insertFirst, custom_element_mounted.
    + destruct (placed_once (appendChild X) t (document st) m He Hs Hat) as (? & ? & ?);
        [| |done].
      * intros s0 _. apply count_appendChild.
      * apply mounted_appendChild, custom_element_mounted.
  - assert (match r_selector request with
            | Some s => find s (document st)
            | None => None
            end = None) as ->.
    { by destruct (r_selector request). }
    destruct Hbody as [b Hb]. rewrite Hb.
    destruct (body_path_at _ _ Hb) as [body Hat]. rewrite Hat, (Hnone b body Hat).
    rewrite bool_decide_eq_true_2; [|done].
    cbn [document customElements retries with_document].
    destruct (placed_once (appendChild X) b (document st) body He Hs Hat) as (? & ? & ?);
      [| |done].
    + intros s0 _. apply count_appendChild.
    + apply mounted_appendChild, custom_element_mounted.
Qed.

End Placing.

(** ** Stability of lookups under a change inside the match *)

Lemma matches_same_shape s n n' :
  tag_of n' = tag_of n → attrs_of n' = attrs_of n → matches s n' = matches s n.
Proof. intros Ht Ha. destruct s; simpl; by rewrite ?Ht, ?Ha. Qed.

Lemma first_below_alter f (g : node → node) i ks j q k :
  first_below f i ks = Some ((i + j)%nat :: q) →
  ks !! j = Some k → f (g k) = Some q →
  first_below f i (alter g j ks) = Some ((i + j)%nat :: q).
Proof.
  revert i j. induction ks as [|x ks IH]; intros i j Hfirst Hj Hg; [done|].
  destruct j as [|j]; simpl in *.
  - injection Hj as ->. by rewrite Hg, Nat.add_0_r.
  - destruct (f x) as [p|] eqn:Hx.
    + injection Hfirst as Hi _. lia.
    + change (list_alter g j ks) with (alter g j ks).
      replace (i + S j)%nat with (S i + j)%nat in * by lia.
      by apply IH.
Qed.

Lemma find_modify_stable s (F : node → node) :
  (∀ n, tag_of (F n) = tag_of n ∧ attrs_of (F n) = attrs_of n) →
  ∀ d t, find s d = Some t → find s (modify_at t F d) = Some t.
Proof.
  intros HF d. induction d as [tg a ks IH] using node_induction. intros t. simpl.
  destruct (matches s (Elem tg a ks)) eqn:Hm.
  - intros [= <-]. simpl.
    destruct (F (Elem tg a ks)) as [tg' a' ks'] eqn:HFd.
    destruct (HF (Elem tg a ks)) as [Ht Ha]. rewrite HFd in Ht, Ha.
    simpl. rewrite (matches_same_shape s (Elem tg a ks) (Elem tg' a' ks')) by done.
    by rewrite Hm.
  - intros Hfirst.
    destruct (first_below_some _ _ _ _ Hfirst) as (j & k & q & -> & Hj & Hq).
    simpl. rewrite (matches_children s tg a _ ks), Hm.
    apply (first_below_alter _ _ 0 ks j q k); [done | done |].
    rewrite Forall_forall in IH.
    apply (IH k (list_elem_of_lookup_2 _ _ _ Hj)), Hq.
Qed.

Lemma node_at_modify t F d m :
  node_at t d = Some m → node_at t (modify_at t F d) = Some (F m).
Proof.
  revert d. induction t as [|i t IH]; intros d Hat; simpl in *.
  - by injection Hat as ->.
  - destruct (children_of d !! i) as [k|] eqn:Hi; [|done].
    rewrite list_lookup_alter_eq, Hi. simpl. by apply IH.
Qed.

Lemma first_tagged_alter t (g : node → node) i ks j :
  (∀ n, tag_of (g n) = tag_of n) →
  first_tagged t i (alter g j ks) = first_tagged t i ks.
Proof.
  intros Hg. revert i j. induction ks as [|x ks IH]; intros i j; [done|].
  destruct j as [|j]; simpl.
  - by rewrite Hg.
  - change (list_alter g j ks) with (alter g j ks). by rewrite IH.
Qed.

Lemma body_path_modify b F d :
  (∀ n, tag_of (F n) = tag_of n) →
  body_path d = Some b → body_path (modify_at b F d) = Some b.
Proof.
  intros HF. unfold body_path.
  destruct (first_tagged "body" 0 (children_of d)) as [i|] eqn:Hi; [|done].
  intros [= <-]. simpl. by rewrite first_tagged_alter, Hi.
Qed.

(** ** Calls, retries and registrations in any order *)

Section Idempotence.
Variable request : inject_request.
Let name := to_string (r_name request).
Let src := to_string (r_src request).
Let X := custom_element name src.

Hypothesis name_given : truthy (r_name request) = true.
Hypothesis src_given : truthy (r_src request) = true.
Hypothesis name_not_script : name ≠ "script".
Hypothesis not_replace :
  strict_eq (or_else (r_placement request) (JStr "append")) (JStr "replace") = false.

Lemma create_not_ready st :
  ready name st = false →
  createCustomElement request st
  = {| document := document st; customElements := customElements st;
       retries := retries st ++ [request] |}.
Proof.
  unfold ready, createCustomElement. fold name. intros Hr.
  by replace (match customElements st with
              | Some registry => bool_decide (name ∈ registry)
              | None => true
              end) with false.
Qed.

Lemma create_guarded st :
  guarded request (document st) →
  document (createCustomElement request st) = document st
  ∧ customElements (createCustomElement request st) = customElements st
  ∧ (retries (createCustomElement request st) = retries st
     ∨ retries (createCustomElement request st) = retries st ++ [request]).
Proof.
  intros Hg. destruct (ready name st) eqn:Hr.
  - unfold ready in Hr. unfold createCustomElement. fold name src.
    replace (match customElements st with
             | Some registry => bool_decide (name ∈ registry)
             | None => true
             end) with true.
    cbn [negb]. unfold guarded in Hg. fold name in Hg.
    destruct (r_selector request) as [s|].
    + destruct Hg as (t & m & -> & -> & Hin).
      rewrite (bool_decide_eq_true_2 _ Hin). cbn [orb]. auto.
    + destruct Hg as (b & m & -> & -> & [q Hq]). rewrite Hq.
      rewrite bool_decide_eq_false_2; [auto | done].
  - rewrite (create_not_ready st Hr). simpl. auto.
Qed.

Lemma has_component_appendChild m : is_Some (querySelector (ByTag name) (appendChild X m)).
Proof.
  destruct (querySelector (ByTag name) (appendChild X m)) eqn:Hq; [eauto|].
  apply querySelector_none_count in Hq. destruct m as [t a ks]. simpl in Hq.
  rewrite sum_list_with_app in Hq. simpl in Hq.
  unfold X, custom_element in Hq. simpl in Hq. rewrite String.eqb_refl in Hq. lia.
Qed.

Lemma has_component_insertFirst m : is_Some (querySelector (ByTag name) (insertFirst X m)).
Proof.
  destruct (querySelector (ByTag name) (insertFirst X m)) eqn:Hq; [eauto|].
  apply querySelector_none_count in Hq. destruct m as [t a ks]. simpl in Hq.
  unfold X, custom_element in Hq. simpl in Hq. rewrite String.eqb_refl in Hq. lia.
Qed.

(** A call on a document that has the element with its script changes
    nothing. *)
Lemma inject_mounted_noop st :
  count_elements name (document st) = 1%nat →
  every (mounted name src) (document st) = true →
  injectWebComponent request st = st.
Proof.
  intros H1 Hm. unfold injectWebComponent. rewrite name_given, src_given.
  cbn [negb]. fold name src.
  destruct (find (ByTag name) (document st)) as [q|] eqn:Hq.
  - destruct (find_some_at _ _ _ Hq) as (el & Hat & Hel).
    pose proof (every_node_at _ _ _ _ Hm Hat) as Hmounted.
    unfold mounted in Hmounted. rewrite Hel in Hmounted. cbn [implb] in Hmounted.
    apply bool_decide_eq_true_1 in Hmounted as [p Hp].
    rewrite Hat, Hp. rewrite bool_decide_eq_false_2; [|done].
    by destruct (find (script_selector src) (document st)).
  - apply find_none_count in Hq. unfold count_elements in H1. lia.
Qed.

Variable doc0 : node.
Hypothesis no_element : count_elements name doc0 = 0%nat.
Hypothesis no_script : count_scripts src doc0 = 0%nat.
Hypothesis place :
  match r_selector request with
  | Some s => is_Some (find s doc0)
  | None => is_Some (body_path doc0)
  end.

Lemma place_first :
  (∃ s t, r_selector request = Some s ∧ find s doc0 = Some t)
  ∨ (r_selector request ≫= (λ s, find s doc0) = None ∧ is_Some (body_path doc0)).
Proof.
  destruct (r_selector request) as [s|].
  - left. destruct place as [t Ht]. eauto.
  - right. done.
Qed.

(** A ready [createCustomElement] on the untouched document puts the
    element where the next one will look. *)
Lemma create_first_guarded st :
  document st = doc0 → ready name st = true →
  guarded request (document (createCustomElement request st)).
Proof.
  intros Hdoc Hr. unfold ready in Hr. unfold createCustomElement. fold name src X.
  replace (match customElements st with
           | Some registry => bool_decide (name ∈ registry)
           | None => true
           end) with true.
  cbn [negb]. rewrite Hdoc.
  assert (∀ p m, node_at p doc0 = Some m → querySelector (ByTag name) m = None) as Hnone.
  { intros p m Hat. apply querySelector_none_count.
    pose proof (count_node_at_le (matches (ByTag name)) p _ m Hat) as Hle.
    pose proof no_element as He. unfold count_elements in He.
    destruct m as [t a ks]. simpl in *. lia. }
  unfold guarded. fold name. pose proof place as Hplace.
  destruct (r_selector request) as [s|].
  - destruct Hplace as [t Hfind]. rewrite Hfind.
    destruct (find_some_at s _ t Hfind) as (m & Hat & _).
    rewrite Hat, (Hnone t m Hat).
    rewrite (bool_decide_eq_false_2 (is_Some None)); [|by intros [? ?]].
    assert (match t with
            | [] => bool_decide (is_Some (find (ByTag name) doc0))
            | _ :: _ =>
                match node_at (removelast t) doc0 with
                | Some parent => bool_decide (is_Some (querySelector (ByTag name) parent))
                | None => false
                end
            end = false) as ->.
    { destruct t as [|i t'].
      - apply bool_decide_eq_false_2. intros [q Hq].
        pose proof no_element as He.
        apply (proj2 (find_none_count (ByTag name) doc0)) in He. congruence.
      - destruct (node_at (removelast (i :: t')) doc0) as [parent|] eqn:Hp; [|done].
        rewrite (Hnone _ _ Hp). apply bool_decide_eq_false_2. by intros [? ?]. }
    cbn [orb]. rewrite not_replace.
    destruct (strict_eq _ (JStr "prepend")); cbn [document with_document].
    + exists t, (insertFirst X m). split_and!.
      * apply find_modify_stable; [by intros [? ? ?]|done].
      * by apply node_at_modify.
      * apply has_component_insertFirst.
    + exists t, (appendChild X m). split_and!.
      * apply find_modify_stable; [by intros [? ? ?]|done].
      * by apply node_at_modify.
      * apply has_component_appendChild.
  - destruct Hplace as [b Hb]. rewrite Hb.
    destruct (body_path_at _ _ Hb) as [body Hat]. rewrite Hat, (Hnone b body Hat).
    rewrite bool_decide_eq_true_2; [|done]. cbn [document with_document].
    exists b, (appendChild X body). split_and!.
    + apply body_path_modify; [by intros [? ? ?]|done].
    + by apply node_at_modify.
    + apply has_component_appendChild.
Qed.

Lemma inject_first st :
  document st = doc0 → injectWebComponent request st = createCustomElement request st.
Proof.
  intros Hdoc. unfold injectWebComponent. rewrite name_given, src_given, Hdoc.
  cbn [negb]. fold name src.
  rewrite (proj2 (find_none_count (script_selector src) doc0) no_script).
  by rewrite (proj2 (find_none_count (ByTag name) doc0) no_element).
Qed.

Lemma create_settles called st :
  Forall (λ r, r = request) (retries st) →
  (document st = doc0
   ∨ (count_elements name (document st) = 1%nat
      ∧ count_scripts src (document st) = 1%nat
      ∧ every (mounted name src) (document st) = true
      ∧ guarded request (document st))) →
  settled request doc0 called (createCustomElement request st).
Proof.
  intros Hall Hstate. destruct Hstate as [Hdoc|(H1 & H2 & Hm & Hg)].
  - destruct (ready name st) eqn:Hr.
    + assert (count_elements name (document st) = 0%nat) as He by by rewrite Hdoc.
      assert (count_scripts src (document st) = 0%nat) as Hs by by rewrite Hdoc.
      pose proof place_first as Hp. rewrite <- Hdoc in Hp.
      destruct (createCustomElement_first name src name_not_script request st
                  eq_refl eq_refl Hr He Hs Hp) as (H1 & H2 & Hm & _ & Hret).
      split; [by rewrite Hret|]. right. split_and!; try done.
      by apply create_first_guarded.
    + rewrite (create_not_ready st Hr). split; simpl.
      * apply Forall_app. split; [done|]. by constructor.
      * left. split; [done|]. intros _. by destruct (retries st).
  - destruct (create_guarded st Hg) as (Hd & _ & Hret).
    split.
    + destruct Hret as [-> | ->]; [done|].
      apply Forall_app. split; [done|]. by constructor.
    + right. rewrite Hd. done.
Qed.

Lemma step_settles called e st :
  settled request doc0 called st →
  settled request doc0 (called || is_call e) (inject_step request e st).
Proof.
  intros [Hall Hstate]. destruct e as [| |n]; simpl.
  - destruct Hstate as [[Hdoc _]|(H1 & H2 & Hm & Hg)].
    + rewrite (inject_first st Hdoc). apply create_settles; auto.
    + rewrite (inject_mounted_noop st H1 Hm). split; [done|]. by right.
  - rewrite orb_false_r. unfold retry.
    destruct (retries st) as [|r rest] eqn:Hret.
    + split; [by rewrite Hret|]. by rewrite Hret.
    + apply Forall_cons in Hall as [-> Hall].
      apply create_settles; simpl; [done|].
      destruct Hstate as [[Hdoc _]|?]; auto.
  - rewrite orb_false_r. split; [done|]. done.
Qed.

Lemma run_settles called es st :
  settled request doc0 called st →
  settled request doc0 (called || existsb is_call es) (inject_run request es st).
Proof.
  revert called st. induction es as [|e es IH]; intros called st Hs; simpl.
  - by rewrite orb_false_r.
  - apply step_settles with (e := e) in Hs. apply IH in Hs.
    by rewrite orb_assoc.
Qed.

End Idempotence.

(** With the registry ready, [createCustomElement] schedules nothing. *)
Lemma create_ready_keeps request st :
  ready (to_string (r_name request)) st = true →
  retries (createCustomElement request st) = retries st
  ∧ customElements (createCustomElement request st) = customElements st.
Proof.
  intros Hr. unfold ready in Hr. unfold createCustomElement.
  replace (match customElements st with
           | Some registry => bool_decide (to_string (r_name request) ∈ registry)
           | None => true
           end) with true.
  cbn [negb].
  repeat match goal with
         | |- context [match ?x with _ => _ end] => destruct x
         end; done.
Qed.

(** Once the name is registered the waiting retries run out: as many
    timers as there are retries leave none waiting. *)
Lemma waiting_retries_drain request st :
  Forall (λ r, r = request) (retries st) →
  ready (to_string (r_name request)) st = true →
  retries (inject_run request (replicate (length (retries st)) RetryTimer) st) = [].
Proof.
  remember (length (retries st)) as n eqn:Hn. revert st Hn.
  induction n as [|n IH]; intros st Hn Hall Hready; simpl.
  - by destruct (retries st).
  - unfold retry. destruct (retries st) as [|r rest] eqn:Hret; [done|].
    apply Forall_cons in Hall as [-> Hall]. simpl in Hn.
    set (st0 := {| document := document st; customElements := customElements st;
                   retries := rest |}).
    assert (ready (to_string (r_name request)) st0 = true) as Hready0 by done.
    destruct (create_ready_keeps request st0 Hready0) as [Hkeep Hreg].
    apply IH.
    + rewrite Hkeep. simpl. lia.
    + by rewrite Hkeep.
    + unfold ready. rewrite Hreg. done.
Qed.

(** X28. With the registry ready the two calls are enough, for every
    placement, and also when the selector resolves to nothing and the body
    takes the element: for an element name other than [script] and a source
    that can stand between double quotes, the document holds one element
    and one script tag, and the second call changed nothing. *)
Lemma inject_twice_when_ready (request : inject_request) (st : dom) :
  truthy (r_name request) = true →
  truthy (r_src request) = true →
  element_name (to_string (r_name request)) = true →
  quotable (to_string (r_src request)) = true →
  to_string (r_name request) ≠ "script" →
  ready (to_string (r_name request)) st = true →
  count_elements (to_string (r_name request)) (document st) = 0%nat →
  count_scripts (to_string (r_src request)) (document st) = 0%nat →
  (∃ s t, r_selector request = Some s ∧ find s (document st) = Some t)
  ∨ (r_selector request ≫= (λ s, find s (document st)) = None
     ∧ is_Some (body_path (document st))) →
  let st1 := injectWebComponent request st in
  let st2 := injectWebComponent request st1 in
  count_elements (to_string (r_name request)) (document st2) = 1%nat
  ∧ count_scripts (to_string (r_src request)) (document st2) = 1%nat
  ∧ st2 = st1.
Proof.
  intros Hn Hs _ _ Hscript Hready He Hsc Hplace.
  set (name := to_string (r_name request)) in *.
  set (src := to_string (r_src request)) in *.
  assert (injectWebComponent request st = createCustomElement request st) as Hfirst.
  { unfold injectWebComponent. rewrite Hn, Hs. cbn [negb].
    fold name src.
    rewrite (proj2 (find_none_count (script_selector src) (document st)) Hsc).
    by rewrite (proj2 (find_none_count (ByTag name) (document st)) He). }
  destruct (createCustomElement_first name src Hscript request st eq_refl eq_refl
              Hready He Hsc Hplace) as (H1 & H2 & Hm & _ & _).
  cbv zeta. rewrite Hfirst.
  set (st1 := createCustomElement request st) in *.
  assert (injectWebComponent request st1 = st1) as Hsecond.
  { unfold injectWebComponent. rewrite Hn, Hs. cbn [negb]. fold name src.
    destruct (find (ByTag name) (document st1)) as [q|] eqn:Hq.
    - destruct (find_some_at _ _ _ Hq) as (el & Hat & Hel).
      pose proof (every_node_at _ _ _ _ Hm Hat) as Hmounted.
      unfold mounted in Hmounted. rewrite Hel in Hmounted. cbn [implb] in Hmounted.
      apply bool_decide_eq_true_1 in Hmounted as [p Hp].
      rewrite Hat, Hp. rewrite bool_decide_eq_false_2; [|done].
      by destruct (find (script_selector src) (document st1)).
    - apply find_none_count in Hq. unfold count_elements in H1. lia. }
  rewrite Hsecond. done.
Qed.

(** C7, as the code has it.  Injecting twice with the same request never
    gives a second element or a second script tag, and gives one of each
    as soon as no creation is waiting.  The request names the component by
    an element name (a lower-case letter, then lower-case letters, digits
    and hyphens; not [script]) and the script by a source that can stand
    between double quotes in a selector, and places by [append] (or
    [prepend]); the document starts without an element of the component
    type and without a script tag of that source; the selector is a type,
    id or attribute selector that resolves in it, or there is no selector
    and the document has a body; no retry is waiting.  After the two
    calls, and after any further calls, retry timers and registrations of
    custom elements in any order, the document never holds more than one
    element of the type or more than one script tag of the source, and it
    holds exactly one of each whenever no retry is waiting.  When the
    registry is absent or knows the name at the first call, no retry is ever
    scheduled: the two calls alone give exactly one of each, and the second
    call changes nothing. *)
Theorem inject_twice_exactly_one (request : inject_request) (st : dom)
    (es : list inject_event) :
  truthy (r_name request) = true →
  truthy (r_src request) = true →
  element_name (to_string (r_name request)) = true →
  quotable (to_string (r_src request)) = true →
  to_string (r_name request) ≠ "script" →
  strict_eq (or_else (r_placement request) (JStr "append")) (JStr "replace") = false →
  count_elements (to_string (r_name request)) (document st) = 0%nat →
  count_scripts (to_string (r_src request)) (document st) = 0%nat →
  match r_selector request with
  | Some s => is_Some (find s (document st))
  | None => is_Some (body_path (document st))
  end →
  retries st = [] →
  let st2 := inject_run request [Call; Call] st in
  let st' := inject_run request es st2 in
  let elements d := count_elements (to_string (r_name request)) d in
  let scripts d := count_scripts (to_string (r_src request)) d in
  (elements (document st') <= 1)%nat ∧ (scripts (document st') <= 1)%nat
  ∧ (retries st' = [] → elements (document st') = 1%nat ∧ scripts (document st') = 1%nat)
  ∧ (ready (to_string (r_name request)) st = true →
     retries st2 = [] ∧ st2 = inject_run request [Call] st).
Proof.
  intros Hn Hs _ _ Hscript Hrep He Hsc Hplace Hret. cbv zeta.
  assert (settled request (document st) false st) as Hinit.
  { split; [by rewrite Hret|]. left. done. }
  pose proof (run_settles request Hn Hs Hscript Hrep (document st) He Hsc Hplace
                false (Call :: Call :: es) st Hinit) as [_ Hend].
  change (inject_run request (Call :: Call :: es) st)
    with (inject_run request es (inject_run request [Call; Call] st)) in Hend.
  simpl existsb in Hend. simpl orb in Hend.
  split_and!.
  - destruct Hend as [[-> _]|(-> & _)]; lia.
  - destruct Hend as [[-> _]|(_ & -> & _)]; lia.
  - intros Hnone. destruct Hend as [[_ Hwait]|(? & ? & _)]; [|done].
    by destruct (Hwait eq_refl).
  - intros Hready. simpl.
    rewrite (inject_first request Hn Hs (document st) He Hsc st eq_refl).
    destruct (createCustomElement_first _ _ Hscript request st eq_refl eq_refl
                Hready He Hsc
                (place_first request (document st) Hplace)) as (H1 & _ & Hm & _ & Hr).
    rewrite (inject_mounted_noop request Hn Hs _ H1 Hm).
    split; [by rewrite Hr|done].
Qed.

End InjectionFacts.

(** ** Origin check and dispatch *)

Section OriginFacts.
Context `{Platform}.

(** The check is string equality with the trusted origin. *)
Lemma origin_accepted_iff extensionConfig event_origin :
  origin_accepted extensionConfig event_origin = true
  ↔ event_origin = getTrustedOrigin extensionConfig.
Proof. unfold origin_accepted. apply String.eqb_eq. Qed.

(** With a configured source that parses, the trusted origin is the
    origin of that source. *)
Lemma trusted_origin_configured extensionConfig o :
  URL_origin (to_string (getConfig extensionConfig "sidebar.iframeSrc" JNull)) = Some o →
  getTrustedOrigin extensionConfig = o.
Proof. unfold getTrustedOrigin. by intros ->. Qed.

(** Without a configuration, or with a source that does not parse, it is
    the empty string. *)
Lemma trusted_origin_unconfigured extensionConfig :
  truthy extensionConfig = false
  ∨ URL_origin (to_string (getConfig extensionConfig "sidebar.iframeSrc" JNull)) = None →
  getTrustedOrigin extensionConfig = "".
Proof.
  unfold getTrustedOrigin. intros [Hcfg|Hurl].
  - unfold getConfig. rewrite Hcfg. simpl. by rewrite URL_origin_null.
  - by rewrite Hurl.
Qed.

(** The content script hands a message on only when the origin is the
    trusted one. *)
Lemma content_listener_checks_origin extensionConfig event c :
  window_message_listener extensionConfig event = Some c →
  origin event = getTrustedOrigin extensionConfig.
Proof.
  unfold window_message_listener.
  destruct (negb (truthy (data event)) || negb (is_object (data event))); [done|].
  destruct (origin_accepted extensionConfig (origin event)) eqn:Hacc; [|done].
  intros _. by apply origin_accepted_iff.
Qed.

(** C10. Before the configuration is loaded [extensionConfig] is null:
    [getTrustedOrigin] returns the empty string, and the window listener of
    the content script returns without calling a handler for every message
    that carries an origin, as every message posted across frames does, the
    one from the panel included. *)
Theorem unconfigured_listener_drops_messages (event : message_event) :
  origin event ≠ "" →
  getTrustedOrigin JNull = "" ∧ window_message_listener JNull event = None.
Proof.
  intros Hne.
  assert (getTrustedOrigin JNull = "") as Hempty.
  { apply trusted_origin_unconfigured. by left. }
  split; [done|].
  destruct (window_message_listener JNull event) as [c|] eqn:Hc; [|done].
  apply content_listener_checks_origin in Hc. congruence.
Qed.

End OriginFacts.

(** C3. The check accepts exactly the trusted origin, and the trusted
    origin is the empty string when the configuration is missing or its
    source does not parse (see the lemmas above); but then the check does
    not reject every message: a [message] event whose origin is the empty
    string, as a page script can dispatch on its own window, passes the
    check of the content script and reaches the handler. *)
Lemma empty_origin_passes_unconfigured `{Platform} :
  origin_accepted JNull "" = true
  ∧ window_message_listener JNull {| origin := ""; data := Examples.remove_body |}
    = Some (HandleDomManipulation (JStr "body") (JStr "removeElement") JUndefined).
Proof.
  assert (getTrustedOrigin JNull = "") as Hempty.
  { apply trusted_origin_unconfigured. by left. }
  unfold window_message_listener, origin_accepted. rewrite Hempty. done.
Qed.

(** No listener of the side panel depends on the origin of the event. *)
Lemma sidebar_ignores_origin e o o' d :
  Sidebar.window_message_listeners e {| origin := o; data := d |}
  = Sidebar.window_message_listeners e {| origin := o'; data := d |}.
Proof. reflexivity. Qed.

(** ** Correlation ids on the relay paths *)

(** The [start-dom-observer] listener of the side panel passes the
    [watchId] on. *)
Lemma start_dom_observer_keeps_watchId e d tabId :
  Sidebar.active_tab e = Some tabId →
  Sidebar.has_type d "start-dom-observer" = true →
  ∃ request,
    Sidebar.start_dom_observer_listener e {| origin := ""; data := d |}
    = [Sidebar.TabsSendMessage tabId request]
    ∧ get "watchId" request = get "watchId" d.
Proof.
  intros Htab Htype. unfold Sidebar.start_dom_observer_listener, Sidebar.to_active_tab.
  simpl. rewrite Htype, Htab. eauto.
Qed.

(** The [observe-dom-value] listener does not: whatever [watchId] the
    request carries, the message to the tab has none. *)
Lemma observe_dom_value_drops_watchId e d tabId :
  Sidebar.active_tab e = Some tabId →
  Sidebar.has_type d "observe-dom-value" = true →
  ∃ request,
    Sidebar.observe_dom_value_listener e {| origin := ""; data := d |}
    = [Sidebar.TabsSendMessage tabId request]
    ∧ get "watchId" request = JUndefined.
Proof.
  intros Htab Htype. unfold Sidebar.observe_dom_value_listener, Sidebar.to_active_tab.
  simpl. rewrite Htype, Htab. eauto.
Qed.

(** ** Watches *)

Section WatchFacts.
Context `{Platform}.
Variable extensionConfig : jsval.

Lemma run_watchers_outbox p tr el ws :
  (run_watchers extensionConfig p tr el ws).2
  = concat (map (λ w, if triggered tr el w then (run_watcher extensionConfig p w).2 else [])
                ws).
Proof.
  induction ws as [|w ws IH]; [done|]. simpl.
  destruct (run_watchers extensionConfig p tr el ws) as [ws' out2] eqn:Hrest.
  simpl in IH. subst out2.
  destruct (triggered tr el w); [|done].
  by destruct (run_watcher extensionConfig p w).
Qed.

End WatchFacts.

(** ** Panel state *)

Section PanelFacts.
Context `{Platform}.

Lemma read_set_here k v items store :
  list_to_map (M := gmap string jsval) items !! k = Some v →
  Storage.read k (Storage.set items store) = v.
Proof.
  intros Hk. unfold Storage.read, Storage.set.
  by rewrite (lookup_union_Some_l _ _ _ _ Hk).
Qed.

(** [saveSidebarState] writes the three keys together, with the current
    time. *)
Lemma saveSidebarState_writes_record now isOpen st :
  let st' := saveSidebarState now isOpen st in
  Storage.read "sidebarOpen" (storage st') = JBool isOpen
  ∧ Storage.read "sidebarUrl" (storage st') = JStr (href st)
  ∧ Storage.read "lastStateChange" (storage st') = JNum now
  ∧ wrapper st' = wrapper st ∧ tasks st' = tasks st.
Proof. cbv zeta. unfold saveSidebarState. simpl. split_and!; by try apply read_set_here. Qed.

Lemma wasRecentlyChanged_number ts limit :
  wasRecentlyChanged (JNum ts) (Some limit) = negb (Z.eqb ts 0) && Z.ltb limit ts.
Proof. done. Qed.

(** X30. The restore evaluation of [restoreSidebarState], with a restore
    window of [minutes] minutes, as configured, and a persisted timestamp
    [ts].  When [sidebarOpen] is true and the timestamp lies a full window
    or more back, no reopening is scheduled, the panel stays as it is, and
    the record is rewritten with [sidebarOpen = false].  When [sidebarOpen] is true and the timestamp
    lies within the window, the reopening is scheduled; on a page without
    the panel the scheduled callbacks build it and show it, and the record
    says open again.  When [sidebarOpen] is not true, nothing changes. *)
Theorem restore_evaluation (extensionConfig : jsval) (now minutes ts : Z) (st : panel) :
  getConfig extensionConfig "behavior.autoRestoreTimeMinutes" (JNum 5) = JNum minutes →
  Storage.read "lastStateChange" (storage st) = JNum ts →
  0 < ts →
  let window := minutes * 60 * 1000 in
  let st1 := restoreSidebarState extensionConfig now st in
  (Storage.read "sidebarOpen" (storage st) = JBool true → window <= now - ts →
     tasks st1 = tasks st ∧ wrapper st1 = wrapper st
     ∧ Storage.read "sidebarOpen" (storage st1) = JBool false)
  ∧ (Storage.read "sidebarOpen" (storage st) = JBool true → now - ts < window →
     tasks st1 = tasks st ++ [RestoreIfAbsent] ∧ storage st1 = storage st
     ∧ wrapper st1 = wrapper st
     ∧ (wrapper st = None → tasks st = [] →
        ∀ later later',
          let st2 := run_next later st1 in
          let st3 := run_next later' st2 in
          wrapper st2 = Some false ∧ tasks st2 = [SlideInAfterInject]
          ∧ wrapper st3 = Some true ∧ tasks st3 = []
          ∧ Storage.read "sidebarOpen" (storage st3) = JBool true))
  ∧ (strict_eq (Storage.read "sidebarOpen" (storage st)) (JBool true) = false →
     st1 = st).
Proof.
  intros Hcfg Hts Hpos. cbv zeta. unfold restoreSidebarState.
  rewrite Hcfg, Hts. simpl to_number. simpl mul. simpl JS.sub.
  rewrite wasRecentlyChanged_number.
  assert (Z.eqb ts 0 = false) as -> by lia. simpl negb. simpl andb.
  split_and!.
  - intros -> Hstale. simpl strict_eq. simpl andb.
    assert (Z.ltb (now - minutes * 60 * 1000) ts = false) as -> by lia.
    simpl. split_and!; [done | done |]. by apply read_set_here.
  - intros -> Hfresh. simpl strict_eq. simpl andb.
    assert (Z.ltb (now - minutes * 60 * 1000) ts = true) as -> by lia.
    split_and!; [done | done | done |].
    intros Hw Ht later later'. unfold run_next. simpl. rewrite Ht. simpl.
    rewrite Hw. simpl. unfold toggleCustomSidebar. simpl.
    split_and!; [done | done | done | done |]. by apply read_set_here.
  - intros ->. done.
Qed.

End PanelFacts.

(** The background script and the [checkSidebarState] branch decide as
    [restoreSidebarState] does, with the window fixed at five minutes; the
    reset of the background script leaves every key but [sidebarOpen] as
    it was. *)
Lemma restore_check_paths (now ts : Z) (tabId : nat) (st : panel) :
  wrapper st = None →
  Storage.read "sidebarOpen" (storage st) = JBool true →
  Storage.read "lastStateChange" (storage st) = JNum ts →
  0 < ts →
  (5 * 60 * 1000 <= now - ts →
     tasks (checkSidebarState now st) = tasks st
     ∧ Storage.read "sidebarOpen" (storage (checkSidebarState now st)) = JBool false
     ∧ Storage.read "lastStateChange" (storage (checkSidebarState now st)) = JNum now
     ∧ (Background.restore_check now tabId (storage st)).2 = []
     ∧ (∀ k, k ≠ "sidebarOpen" →
          (Background.restore_check now tabId (storage st)).1 !! k = storage st !! k)
     ∧ (Background.restore_check now tabId (storage st)).1 !! "sidebarOpen"
       = Some (JBool false))
  ∧ (now - ts < 5 * 60 * 1000 →
     checkSidebarState now st
     = {| storage := storage st; href := href st; wrapper := wrapper st;
          tasks := tasks st ++ [ToggleLater] |}
     ∧ Background.restore_check now tabId (storage st)
       = (storage st,
          [Background.TabsSendMessage tabId (JObj [("action", JStr "checkSidebarState")])])).
Proof.
  intros Hw Hopen Hts Hpos.
  unfold checkSidebarState, Background.restore_check, wasRecentlyChanged.
  rewrite Hw, Hopen, Hts. simpl.
  assert (Z.eqb ts 0 = false) as -> by lia. simpl.
  split.
  - intros Hstale.
    repeat match goal with
           | |- context [Z.ltb ?a ts] => destruct (Z.ltb_spec a ts); [lia|]
           end.
    simpl. split_and!; try done; try (by apply read_set_here).
    + intros k Hk. unfold Storage.set. simpl.
      rewrite lookup_union_r; [done|]. by rewrite insert_empty, lookup_singleton_ne.
    + unfold Storage.set. by apply lookup_union_Some_l.
  - intros Hfresh.
    repeat match goal with
           | |- context [Z.ltb ?a ts] => destruct (Z.ltb_spec a ts); [|lia]
           end.
    done.
Qed.


(** * Further properties of the scripts *)

(** ** DOM actions on the two routes *)

Section ActionFacts.
Context `{Platform}.
Import Actions.

Local Arguments String.eqb : simpl never.

(** The request the side panel builds for a [manipulate-dom] message. *)
Lemma manipulateDom_fields selector action value :
  let request := JObj [("type", JStr "manipulateDom"); ("selector", selector);
                       ("action", action); ("value", value)] in
  get "type" request = JStr "manipulateDom" ∧ get "selector" request = selector
  ∧ get "action" request = action ∧ get "value" request = value.
Proof. done. Qed.

Lemma strict_eq_text a s : strict_eq a (JStr s) = true ↔ a = JStr s.
Proof.
  destruct a; simpl; try (split; [discriminate | discriminate]).
  rewrite String.eqb_eq. split; [by intros -> | by intros [= ->]].
Qed.


(** X2. The action that only the runtime route knows: [appendHTML] and
    [prependHTML] reach the element through the side panel and do nothing
    when posted to the page window. *)
Theorem adjacent_html_on_runtime_route_only
    (p : page) (selector value : jsval) (el : nat) (action position : string) :
  selected p !! to_string selector = Some el →
  (action, position) ∈ [("appendHTML", "beforeend"); ("prependHTML", "afterbegin")] →
  runtime_route p (JObj [("type", JStr "manipulateDom"); ("selector", selector);
                         ("action", JStr action); ("value", value)])
  = [(el, InsertAdjacentHTML position value)]
  ∧ handleDomManipulation p selector (JStr action) value = [].
Proof.
  intros Hel Hin.
  assert (action = "appendHTML" ∧ position = "beforeend"
          ∨ action = "prependHTML" ∧ position = "afterbegin") as Hcase.
  { apply elem_of_cons in Hin as [[= -> ->]|Hin]; [by left|].
    apply elem_of_cons in Hin as [[= -> ->]|Hin]; [by right|].
    by apply elem_of_nil in Hin. }
  unfold runtime_route.
  set (request := JObj [("type", JStr "manipulateDom"); ("selector", selector);
                        ("action", JStr action); ("value", value)]).
  replace (runtime_message_listener request)
    with (Some (HandleManipulateDomRequest request)) by reflexivity.
  unfold handleManipulateDomRequest_calls, handleDomManipulation, performDomAction.
  destruct Hcase as [[-> ->]|[-> ->]].
  - replace (handleManipulateDomRequest request) with (PerformDomAction request)
      by reflexivity.
    replace (get "selector" request) with selector by reflexivity.
    rewrite Hel. split; reflexivity.
  - replace (handleManipulateDomRequest request) with (PerformDomAction request)
      by reflexivity.
    replace (get "selector" request) with selector by reflexivity.
    rewrite Hel. split; reflexivity.
Qed.

(** X3. Nothing to act on, nothing done: when the selector matches no
    element, or the action is none of the known ones, neither route makes
    a DOM call; and [setInputValue] makes none on an element without a
    [value] property. *)
Theorem dom_action_without_target_or_case
    (p : page) (selector action value : jsval) :
  let request := JObj [("type", JStr "manipulateDom"); ("selector", selector);
                       ("action", action); ("value", value)] in
  (selected p !! to_string selector = None →
     handleDomManipulation p selector action value = []
     ∧ performDomAction p request = []
     ∧ handleManipulateDomRequest_calls p request = [])
  ∧ (performDomAction_known action = false →
     strict_eq action (JStr "removeElement") = false →
     handleDomManipulation p selector action value = []
     ∧ performDomAction p request = [])
  ∧ (∀ el, selected p !! to_string selector = Some el → has_value p el = false →
     handleDomManipulation p selector (JStr "setInputValue") value = []
     ∧ performDomAction p (JObj [("type", JStr "manipulateDom"); ("selector", selector);
                                 ("action", JStr "setInputValue"); ("value", value)])
       = []).
Proof.
  cbv zeta.
  destruct (manipulateDom_fields selector action value) as (_ & Hs & Hact & _).
  split_and!.
  - intros Hnone. split_and!.
    + unfold handleDomManipulation. by rewrite Hnone.
    + unfold performDomAction. by rewrite Hs, Hnone.
    + unfold handleManipulateDomRequest_calls, handleManipulateDomRequest.
      rewrite Hact.
      destruct (strict_eq action (JStr "removeElement")); [by rewrite Hs, Hnone|].
      destruct (strict_eq action (JStr "observeDomValue")); [done|].
      destruct (strict_eq action (JStr "injectWebComponent")); [done|].
      unfold performDomAction. by rewrite Hs, Hnone.
  - intros Hunknown Hrem.
    assert (∀ s, s ∈ ["setText"; "setHTML"; "setStyle"; "addClass"; "removeClass";
                      "toggleClass"; "appendHTML"; "prependHTML"; "click";
                      "setInputValue"] → strict_eq action (JStr s) = false) as Hno.
    { intros s Hin. destruct action as [| | | | |a| |]; try done.
      unfold performDomAction_known in Hunknown.
      apply bool_decide_eq_false_1 in Hunknown.
      simpl. apply String.eqb_neq. intros ->. done. }
    split.
    + unfold handleDomManipulation. rewrite Hrem.
      destruct (selected p !! to_string selector); [|done].
      rewrite !Hno by set_solver. done.
    + unfold performDomAction. rewrite Hs, Hact.
      destruct (selected p !! to_string selector); [|done].
      rewrite !Hno by set_solver. done.
  - intros el Hel Hval. split.
    + unfold handleDomManipulation, setInputValue_calls. rewrite Hel, Hval. done.
    + unfold performDomAction, setInputValue_calls.
      replace (get "selector" _) with selector by reflexivity.
      rewrite Hel, Hval. done.
Qed.

End ActionFacts.

(** ** Delivering events to watches *)

Section DeliveryFacts.
Context `{Platform}.
Variable extensionConfig : jsval.
Import Actions.

Lemma run_watchers_watchers p tr el ws :
  (run_watchers extensionConfig p tr el ws).1 = map (after_event extensionConfig p tr el) ws.
Proof.
  induction ws as [|w ws IH]; [done|]. simpl.
  destruct (run_watchers extensionConfig p tr el ws) as [ws' out2] eqn:Hrest.
  simpl in IH. subst ws'. unfold after_event at 2.
  destruct (triggered tr el w); [|done].
  by destruct (run_watcher extensionConfig p w).
Qed.

Lemma deliver_watchers tr el p :
  watchers (deliver extensionConfig tr el p) = map (after_event extensionConfig p tr el) (watchers p).
Proof.
  unfold deliver. rewrite <- run_watchers_watchers.
  by destruct (run_watchers extensionConfig p tr el (watchers p)).
Qed.

Lemma deliver_outbox tr el p :
  outbox (deliver extensionConfig tr el p)
  = outbox p ++ concat (map (λ w, if triggered tr el w
                                  then (run_watcher extensionConfig p w).2 else [])
                            (watchers p)).
Proof.
  unfold deliver. rewrite <- run_watchers_outbox.
  by destruct (run_watchers extensionConfig p tr el (watchers p)).
Qed.

Lemma deliver_page tr el p :
  elements (deliver extensionConfig tr el p) = elements p
  ∧ selected (deliver extensionConfig tr el p) = selected p
  ∧ panel_frame (deliver extensionConfig tr el p) = panel_frame p.
Proof.
  unfold deliver. by destruct (run_watchers extensionConfig p tr el (watchers p)).
Qed.

Lemma deliver_content_window tr el p :
  content_window (deliver extensionConfig tr el p) = content_window p.
Proof.
  unfold deliver. by destruct (run_watchers extensionConfig p tr el (watchers p)).
Qed.

Lemma run_watcher_keeps p w :
  let w' := (run_watcher extensionConfig p w).1 in
  w_el w' = w_el w ∧ w_trigger w' = w_trigger w ∧ w_selector w' = w_selector w
  ∧ w_attribute w' = w_attribute w ∧ w_watchId w' = w_watchId w
  ∧ w_route w' = w_route w.
Proof. cbv zeta. unfold run_watcher. by destruct (strict_eq _ _). Qed.

Lemma after_event_triggered p tr el tr' el' w :
  triggered tr' el' (after_event extensionConfig p tr el w) = triggered tr' el' w.
Proof.
  unfold after_event. destruct (triggered tr el w); [|done].
  destruct (run_watcher_keeps p w) as (He & Ht & _).
  unfold triggered. by rewrite He, Ht.
Qed.

Lemma read_self_identical p a el :
  plain_page p → self_identical (read_value a (element_of p el)) = true.
Proof.
  intros Hplain. unfold read_value, element_of.
  destruct (elements p !! el) as [e|] eqn:He; simpl.
  - destruct (props e !! a) as [v|] eqn:Hv; [by apply (Hplain el e a v)|].
    destruct (attributes e !! a); [|done].
    apply String.eqb_refl.
  - rewrite lookup_empty. done.
Qed.

Lemma strict_eq_eq a b : strict_eq a b = true → a = b.
Proof.
  destruct a, b; simpl; try discriminate; try done.
  - intros Hb. by apply Bool.eqb_prop in Hb as ->.
  - intros Hn. by apply Z.eqb_eq in Hn as ->.
  - intros Hs. by apply String.eqb_eq in Hs as ->.
  - intros Hn. by apply Nat.eqb_eq in Hn as ->.
Qed.

(** A watch that has run is up to date on a plain page, and a watch that
    is up to date runs silently. *)
Lemma run_watcher_up_to_date p w :
  plain_page p → up_to_date p (run_watcher extensionConfig p w).1 = true.
Proof.
  intros Hplain. unfold run_watcher, up_to_date.
  destruct (strict_eq _ (lastValue w)) eqn:Hcmp; simpl; [done|].
  by apply read_self_identical.
Qed.

Lemma run_watcher_silent p w :
  up_to_date p w = true → run_watcher extensionConfig p w = (w, []).
Proof. unfold run_watcher, up_to_date. by intros ->. Qed.

Lemma up_to_date_elements p q w : elements p = elements q → up_to_date p w = up_to_date q w.
Proof. intros He. unfold up_to_date, element_of. by rewrite He. Qed.

Lemma run_watcher_elements p q w :
  elements p = elements q → content_window p = content_window q →
  run_watcher extensionConfig p w = run_watcher extensionConfig q w.
Proof.
  intros He Hc. unfold run_watcher, notify, iframe_ready, element_of.
  by rewrite He, Hc.
Qed.

(** Delivering to watches that are up to date changes nothing. *)
Lemma deliver_quiet tr el p :
  (∀ w, w ∈ watchers p → triggered tr el w = true → up_to_date p w = true) →
  deliver extensionConfig tr el p = p.
Proof.
  intros Hup.
  assert (map (after_event extensionConfig p tr el) (watchers p) = watchers p) as Hws.
  { revert Hup. generalize (watchers p) as ws.
    induction ws as [|w ws IH]; intros Hup; [done|]. simpl.
    rewrite IH by (intros w' Hw'; apply Hup; by right). f_equal.
    unfold after_event. destruct (triggered tr el w) eqn:Htr; [|done].
    rewrite (run_watcher_silent p w); [done|]. apply Hup; [by left|done]. }
  assert (concat (map (λ w, if triggered tr el w
                            then (run_watcher extensionConfig p w).2 else [])
                      (watchers p)) = []) as Hout.
  { clear Hws. revert Hup. generalize (watchers p) as ws.
    induction ws as [|w ws IH]; intros Hup; [done|]. simpl.
    rewrite IH by (intros w' Hw'; apply Hup; by right).
    destruct (triggered tr el w) eqn:Htr; [|done].
    rewrite (run_watcher_silent p w); [done|]. apply Hup; [by left|done]. }
  destruct (deliver_page tr el p) as (He1 & Hs1 & Hf1).
  pose proof (deliver_content_window tr el p) as Hc1.
  pose proof (deliver_watchers tr el p) as Hw1.
  pose proof (deliver_outbox tr el p) as Ho1.
  rewrite Hws in Hw1. rewrite Hout, app_nil_r in Ho1.
  destruct (deliver extensionConfig tr el p) as [e2 s2 f2 c2 w2 o2].
  destruct p as [e1 s1 f1 c1 w1 o1]. simpl in *. by subst.
Qed.

Lemma plain_page_elements p q : elements q = elements p → plain_page p → plain_page q.
Proof. intros He Hp el e k v. rewrite He. apply Hp. Qed.

Lemma handleDomObserver_elements selector attribute eventType watchId p :
  elements (handleDomObserver extensionConfig selector attribute eventType watchId p)
  = elements p.
Proof.
  unfold handleDomObserver. destruct (selected p !! _); [|done].
  destruct (iframe_ready p (panel_frame p)); simpl; [|done].
  by destruct (postMessage _ _).
Qed.

Lemma deliver_plain tr el p : plain_page p → plain_page (deliver extensionConfig tr el p).
Proof.
  intros Hp el' e k v. destruct (deliver_page tr el p) as (-> & _ & _). apply Hp.
Qed.

(** After a delivery on a plain page a watch is up to date if it was
    called, and stays up to date if it was. *)
Lemma deliver_up_to_date tr el p w' :
  plain_page p →
  w' ∈ watchers (deliver extensionConfig tr el p) →
  ∃ w, w ∈ watchers p
       ∧ (∀ tr' el', triggered tr' el' w' = triggered tr' el' w)
       ∧ (triggered tr el w = true ∨ up_to_date p w = true →
          up_to_date (deliver extensionConfig tr el p) w' = true).
Proof.
  intros Hplain Hw'. rewrite deliver_watchers in Hw'.
  apply list_elem_of_fmap in Hw' as (w & -> & Hw).
  destruct (deliver_page tr el p) as (He & _ & _).
  exists w. split_and!; [done | intros; apply after_event_triggered |].
  intros Hor. rewrite (up_to_date_elements _ p) by done.
  unfold after_event. destruct (triggered tr el w) eqn:Htr.
  - by apply run_watcher_up_to_date.
  - by destruct Hor.
Qed.

Lemma deliver_all_settles events seen p :
  plain_page p →
  (∀ ev w, ev ∈ seen → w ∈ watchers p → triggered ev.1 ev.2 w = true →
           up_to_date p w = true) →
  let p' := deliver_all extensionConfig events p in
  plain_page p'
  ∧ ∀ ev w, ev ∈ seen ++ events → w ∈ watchers p' → triggered ev.1 ev.2 w = true →
            up_to_date p' w = true.
Proof.
  cbv zeta. unfold deliver_all. revert seen p.
  induction events as [|[tr el] events IH]; intros seen p Hplain Hseen.
  - rewrite app_nil_r. done.
  - simpl foldl.
    destruct (IH (seen ++ [(tr, el)]) (deliver extensionConfig tr el p)) as [Hp' Hall].
    + by apply deliver_plain.
    + intros ev w' Hev Hw' Htr.
      destruct (deliver_up_to_date tr el p w' Hplain Hw') as (w & Hw & Hsame & Hup).
      apply Hup. rewrite Hsame in Htr.
      apply elem_of_app in Hev as [Hev|Hev].
      * right. by apply (Hseen ev).
      * apply list_elem_of_singleton in Hev. subst ev. by left.
    + split; [done|]. intros ev w Hev. apply Hall.
      by rewrite <- app_assoc.
Qed.

Lemma deliver_all_quiet events p :
  (∀ ev w, ev ∈ events → w ∈ watchers p → triggered ev.1 ev.2 w = true →
           up_to_date p w = true) →
  deliver_all extensionConfig events p = p.
Proof.
  unfold deliver_all. induction events as [|[tr el] events IH]; intros Hall; [done|].
  simpl foldl. rewrite deliver_quiet.
  - apply IH. intros ev w Hev. apply Hall. by right.
  - intros w Hw Htr. apply (Hall (tr, el)); [by left|done|done].
Qed.

Lemma deliver_all_twice events p :
  plain_page p →
  deliver_all extensionConfig events (deliver_all extensionConfig events p)
  = deliver_all extensionConfig events p.
Proof.
  intros Hplain.
  destruct (deliver_all_settles events [] p Hplain) as [_ Hall].
  { intros ev w Hev. by apply not_elem_of_nil in Hev. }
  by apply deliver_all_quiet.
Qed.

(** X6. Events that come again while the page has not changed are not heard
    again.  On a page where no property reads [NaN] or an object made anew
    on each read (each value is identical to itself), delivering a
    sequence of events a second time leaves the page, the watches and the
    outbox as the first delivery left them: no watch sends twice for one
    change. *)
Theorem events_again_are_silent (events : list (trigger * nat)) (p : page) :
  plain_page p →
  deliver_all extensionConfig events (deliver_all extensionConfig events p)
  = deliver_all extensionConfig events p.
Proof. apply deliver_all_twice. Qed.

Lemma dispatchEvent_deliver_all type path p :
  dispatchEvent extensionConfig type path p
  = deliver_all extensionConfig (map (λ el, (OnEvent type, el)) path) p.
Proof.
  unfold dispatchEvent, deliver_all. revert p.
  induction path as [|el path IH]; intros p; [done|]. simpl. apply IH.
Qed.

Lemma set_prop_plain el name v p :
  plain_page p → self_identical v = true → plain_page (set_prop el name v p).
Proof.
  intros Hplain Hv el' e k v'. unfold set_prop. simpl.
  destruct (decide (el' = el)) as [->|Hne].
  - rewrite lookup_insert_eq. intros [= <-]. simpl.
    destruct (decide (k = name)) as [->|Hk].
    + rewrite lookup_insert_eq. by intros [= <-].
    + rewrite lookup_insert_ne by done. unfold element_of.
      destruct (elements p !! el) as [e|] eqn:He; simpl; [by apply (Hplain el e)|].
      by rewrite lookup_empty.
  - rewrite lookup_insert_ne by done. apply Hplain.
Qed.

Lemma set_prop_again el name v p q :
  elements q = elements (set_prop el name v p) → set_prop el name v q = q.
Proof.
  intros He. unfold set_prop, element_of in *. simpl in He.
  rewrite He, lookup_insert_eq. simpl. rewrite !insert_insert_eq.
  destruct q. simpl in *. by subst.
Qed.

Lemma deliver_all_elements events p :
  elements (deliver_all extensionConfig events p) = elements p.
Proof.
  unfold deliver_all. revert p. induction events as [|[tr el] events IH]; intros p; [done|].
  simpl. rewrite IH. by destruct (deliver_page tr el p) as (-> & _ & _).
Qed.

(** X5. Writing the same value into an input again notifies nobody.  On a
    page where no property reads [NaN] or an object made anew on each
    read, let the element make of the value written a value of that kind
    too (or refuse the write with an exception).  Then a [setInputValue]
    action repeated with the same value, with nothing else in between,
    writes the property and dispatches its two events as before, and the
    page, the watches and the outbox stay as the first action left
    them. *)
Theorem set_input_value_again_is_silent
    (p : page) (el : nat) (ancestors : list nat)
    (assign : jsval → option jsval) (value : jsval) :
  plain_page p →
  (∀ written, assign value = Some written → strict_eq written written = true) →
  setInputValue extensionConfig el ancestors assign value
    (setInputValue extensionConfig el ancestors assign value p)
  = setInputValue extensionConfig el ancestors assign value p.
Proof.
  intros Hplain Hself. unfold setInputValue at 2 3.
  destruct (has_value p el) eqn:Hhas; [|unfold setInputValue; by rewrite Hhas].
  destruct (assign value) as [written|] eqn:Hassign;
    [|unfold setInputValue; by rewrite Hhas, Hassign].
  rewrite !dispatchEvent_deliver_all.
  set (first := map (λ el0, (OnEvent "input", el0)) (el :: ancestors)).
  set (second := map (λ el0, (OnEvent "change", el0)) (el :: ancestors)).
  set (wrote := set_prop el "value" written p).
  assert (deliver_all extensionConfig second (deliver_all extensionConfig first wrote)
          = deliver_all extensionConfig (first ++ second) wrote) as Hboth
    by (unfold deliver_all; by rewrite foldl_app).
  rewrite Hboth.
  set (p1 := deliver_all extensionConfig (first ++ second) wrote).
  assert (elements p1 = elements wrote) as He by apply deliver_all_elements.
  unfold setInputValue.
  assert (has_value p1 el = true) as ->.
  { unfold has_value, element_of. rewrite He. unfold wrote, set_prop. simpl.
    rewrite lookup_insert_eq. simpl. rewrite lookup_insert_eq.
    by apply bool_decide_eq_true_2. }
  rewrite Hassign.
  rewrite (set_prop_again el "value" written p p1 He).
  rewrite !dispatchEvent_deliver_all. fold first second.
  assert (deliver_all extensionConfig second (deliver_all extensionConfig first p1)
          = deliver_all extensionConfig (first ++ second) p1) as ->
    by (unfold deliver_all; by rewrite foldl_app).
  apply deliver_all_twice. apply set_prop_plain; [done|].
  unfold self_identical. by apply Hself.
Qed.

(** X7. A delivery changes nothing but what the called watches remember: the
    page and the channel stay, no watch is added or dropped, each watch
    keeps its element, trigger, selector, attribute, [watchId] and route, a
    watch on another element or for another event is left as it is, and
    the outbox only grows. *)
Theorem deliver_changes_last_values_only (tr : trigger) (el : nat) (p : page) :
  let p' := deliver extensionConfig tr el p in
  elements p' = elements p ∧ selected p' = selected p ∧ panel_frame p' = panel_frame p
  ∧ outbox p `prefix_of` outbox p'
  ∧ Forall2 (λ w w',
       w_el w' = w_el w ∧ w_trigger w' = w_trigger w ∧ w_selector w' = w_selector w
       ∧ w_attribute w' = w_attribute w ∧ w_watchId w' = w_watchId w
       ∧ w_route w' = w_route w
       ∧ (triggered tr el w = false → w' = w))
      (watchers p) (watchers p').
Proof.
  cbv zeta. destruct (deliver_page tr el p) as (He & Hs & Hf).
  split_and!; try done.
  - rewrite deliver_outbox. by apply prefix_app_r.
  - rewrite deliver_watchers. apply Forall2_fmap_r, Forall2_same_length_lookup.
    split; [done|]. intros i w w' Hw Hw'. assert (w' = w) as -> by congruence.
    unfold after_event. destruct (run_watcher_keeps p w) as (? & ? & ? & ? & ? & ?).
    unfold compose. cbv beta. destruct (triggered tr el w); split_and!; done.
Qed.

Lemma deliver_sends tr el p w m :
  w ∈ watchers p → triggered tr el w = true →
  m ∈ (run_watcher extensionConfig p w).2 →
  m ∈ outbox (deliver extensionConfig tr el p).
Proof.
  intros Hw Htr Hm. rewrite deliver_outbox. apply elem_of_app. right.
  apply list_elem_of_In, in_concat.
  exists (run_watcher extensionConfig p w).2. split; [|by apply list_elem_of_In].
  apply in_map_iff. exists w. rewrite Htr. split; [done|by apply list_elem_of_In].
Qed.


Lemma dispatchEvent_outbox type path p :
  outbox p `prefix_of` outbox (dispatchEvent extensionConfig type path p).
Proof.
  unfold dispatchEvent. revert p.
  induction path as [|el path IH]; intros p; [done|]. simpl.
  etrans; [|apply IH]. rewrite deliver_outbox. by apply prefix_app_r.
Qed.

Lemma prefix_elem_of {A} (l k : list A) x : l `prefix_of` k → x ∈ l → x ∈ k.
Proof. intros [r ->] Hx. apply elem_of_app. by left. Qed.

Lemma element_of_found p el e : elements p !! el = Some e → element_of p el = e.
Proof. unfold element_of. by intros ->. Qed.

Lemma postMessage_ok m o :
  o ≠ "" → o ≠ "null" → cloneable m = true →
  postMessage m o = Some (Content.PostToIframe m o).
Proof.
  intros H1 H2 Hc. unfold postMessage, postable.
  apply String.eqb_neq in H1. apply String.eqb_neq in H2. by rewrite H1, H2, Hc.
Qed.

(** A registration from the panel that gets its first value out. *)
Lemma handleDomObserver_posted selector attribute eventType watchId p el i :
  selected p !! to_string selector = Some el →
  panel_frame p = Some i → content_window p i = true →
  getTrustedOrigin extensionConfig ≠ "" → getTrustedOrigin extensionConfig ≠ "null" →
  let a := default_attribute attribute in
  let seen := read_value (to_string a) (element_of p el) in
  cloneable (domValueChanged selector a seen watchId) = true →
  handleDomObserver extensionConfig selector attribute eventType watchId p
  = {| elements := elements p; selected := selected p; panel_frame := panel_frame p;
       content_window := content_window p;
       watchers := watchers p ++
         [{| w_el := el; w_trigger := trigger_of (default_eventType a eventType);
             w_selector := selector; w_attribute := a; w_watchId := watchId;
             w_route := ToPanel (Some i); lastValue := seen |}];
       outbox := outbox p ++
         [Content.PostToIframe (domValueChanged selector a seen watchId)
            (getTrustedOrigin extensionConfig)] |}.
Proof.
  intros Hel Hframe Hcw Ho1 Ho2 a seen Hclone. unfold handleDomObserver.
  rewrite Hel. fold a. fold seen. unfold iframe_ready. rewrite Hframe, Hcw.
  by rewrite (postMessage_ok _ _ Ho1 Ho2 Hclone).
Qed.


(** What a callback sends for a value that differs, when the message
    can go out. *)
Lemma notify_posted q w value i :
  w_route w = ToPanel (Some i) → content_window q i = true →
  getTrustedOrigin extensionConfig ≠ "" → getTrustedOrigin extensionConfig ≠ "null" →
  cloneable (domValueChanged (w_selector w) (w_attribute w) value (w_watchId w)) = true →
  notify extensionConfig q w value
  = [Content.PostToIframe
       (domValueChanged (w_selector w) (w_attribute w) value (w_watchId w))
       (getTrustedOrigin extensionConfig)].
Proof.
  intros Hroute Hcw Ho1 Ho2 Hclone. unfold notify, iframe_ready.
  by rewrite Hroute, Hcw, (postMessage_ok _ _ Ho1 Ho2 Hclone).
Qed.

Lemma triggered_own w : triggered (w_trigger w) (w_el w) w = true.
Proof.
  unfold triggered. rewrite Nat.eqb_refl.
  destruct (w_trigger w); [apply String.eqb_refl|done].
Qed.












(** X4. The [setInputValue] action is heard by a watch on [value].  A watch
    started from the panel on an element for the attribute [value] without
    an event type listens for [input].  When the action then writes a
    value, and what the element reads after the write is not identical to
    the value the watch saw, the events the action dispatches make the
    watch post the value the element reads now to the panel iframe, under
    the [watchId] of the watch (the iframe being there with its content
    window, the trusted origin neither empty nor ["null"], and the
    messages cloneable). *)
Theorem set_input_value_reaches_value_watch
    (p : page) (selector eventType watchId : jsval) (el i : nat) (e : element)
    (ancestors : list nat) (assign : jsval → option jsval) (value old written : jsval) :
  selected p !! to_string selector = Some el →
  elements p !! el = Some e →
  props e !! "value" = Some old →
  panel_frame p = Some i →
  content_window p i = true →
  getTrustedOrigin extensionConfig ≠ "" →
  getTrustedOrigin extensionConfig ≠ "null" →
  cloneable selector = true → cloneable watchId = true →
  cloneable old = true → cloneable written = true →
  truthy eventType = false →
  assign value = Some written →
  strict_eq written old = false →
  let watched :=
    handleDomObserver extensionConfig selector (JStr "value") eventType watchId p in
  handleDomManipulation watched selector (JStr "setInputValue") value
  = [(el, SetValue value); (el, DispatchEvent "input"); (el, DispatchEvent "change")]
  ∧ Content.PostToIframe
      (JObj [("type", JStr "domValueChanged"); ("selector", selector);
             ("attribute", JStr "value"); ("value", written); ("watchId", watchId)])
      (getTrustedOrigin extensionConfig)
    ∈ outbox (setInputValue extensionConfig el ancestors assign value watched).
Proof.
  intros Hel He Hold Hframe Hcw Ho1 Ho2 Hcs Hcid Hcold Hcw' Hev Hassign Hdiff.
  cbv zeta.
  assert (read_value "value" (element_of p el) = old) as Hread.
  { rewrite (element_of_found p el e He). unfold read_value. by rewrite Hold. }
  set (w0 := {| w_el := el; w_trigger := OnEvent "input"; w_selector := selector;
                w_attribute := JStr "value"; w_watchId := watchId;
                w_route := ToPanel (Some i); lastValue := old |}).
  assert (∀ v, cloneable v = true →
               cloneable (domValueChanged selector (JStr "value") v watchId) = true)
    as Hclone.
  { intros v Hv. unfold domValueChanged. simpl. by rewrite Hcs, Hv, Hcid. }
  assert (handleDomObserver extensionConfig selector (JStr "value") eventType watchId p
          = {| elements := elements p; selected := selected p;
               panel_frame := panel_frame p; content_window := content_window p;
               watchers := watchers p ++ [w0];
               outbox := outbox p ++
                 [Content.PostToIframe
                    (domValueChanged selector (JStr "value") old watchId)
                    (getTrustedOrigin extensionConfig)] |}) as ->.
  { rewrite (handleDomObserver_posted selector (JStr "value") eventType watchId p el i
               Hel Hframe Hcw Ho1 Ho2).
    - replace (default_attribute (JStr "value")) with (JStr "value") by reflexivity.
      replace (default_eventType (JStr "value") eventType) with (JStr "input")
        by (unfold default_eventType, or_else; by rewrite Hev).
      replace (to_string (JStr "value")) with "value" by reflexivity.
      replace (trigger_of (JStr "input")) with (OnEvent "input") by reflexivity.
      by rewrite Hread.
    - cbv zeta.
      replace (default_attribute (JStr "value")) with (JStr "value") by reflexivity.
      replace (to_string (JStr "value")) with "value" by reflexivity.
      rewrite Hread. by apply Hclone. }
  set (watched := {| elements := elements p; watchers := watchers p ++ [w0] |}).
  assert (has_value watched el = true) as Hval'.
  { unfold has_value. rewrite (element_of_found watched el e He), Hold.
    by apply bool_decide_eq_true_2. }
  split.
  - unfold handleDomManipulation. simpl selected. rewrite Hel.
    replace (strict_eq (JStr "setInputValue") (JStr "removeElement")) with false
      by reflexivity.
    unfold setInputValue_calls. by rewrite Hval'.
  - unfold setInputValue. rewrite Hval', Hassign.
    eapply prefix_elem_of; [apply dispatchEvent_outbox|].
    unfold dispatchEvent at 1. simpl foldl.
    eapply prefix_elem_of.
    { apply (dispatchEvent_outbox "input" ancestors). }
    apply (deliver_sends _ _ _ w0).
    + simpl. apply elem_of_app. right. by left.
    + apply (triggered_own w0).
    + unfold run_watcher. simpl w_attribute. simpl w_el. simpl lastValue.
      replace (to_string (JStr "value")) with "value" by reflexivity.
      assert (read_value "value" (element_of (set_prop el "value" written watched) el)
              = written) as ->.
      { unfold read_value, element_of, set_prop. simpl.
        rewrite lookup_insert_eq. simpl. by rewrite lookup_insert_eq. }
      rewrite Hdiff.
      rewrite (notify_posted _ w0 written i); try done; [by left|].
      by apply Hclone.
Qed.


End DeliveryFacts.

(** ** Where the content script posts to *)

Section TargetOrigin.
Context `{Platform}.
Variable extensionConfig : jsval.
Import Actions.

Lemma addressed_to_app o a b :
  addressed_to o a → addressed_to o b → addressed_to o (a ++ b).
Proof.
  intros Ha Hb m t Hin. apply elem_of_app in Hin as [Hin|Hin]; eauto.
Qed.

Lemma addressed_to_nil o : addressed_to o [].
Proof. intros m t Hin. by apply not_elem_of_nil in Hin. Qed.

Lemma postMessage_addressed m o s : postMessage m o = Some s → addressed_to o [s].
Proof.
  unfold postMessage, postable. destruct (String.eqb_spec o ""); [done|].
  destruct (_ && _); [|done].
  intros [= <-] m' t Hin. apply list_elem_of_singleton in Hin. by injection Hin as _ <-.
Qed.

Lemma notify_addressed q w v :
  addressed_to (getTrustedOrigin extensionConfig) (notify extensionConfig q w v).
Proof.
  unfold notify. destruct (w_route w) as [iframe|].
  - destruct (iframe_ready q iframe); [|apply addressed_to_nil].
    destruct (postMessage _ _) as [s|] eqn:Hpost; [|apply addressed_to_nil].
    by apply postMessage_addressed in Hpost.
  - intros m t Hin. apply list_elem_of_singleton in Hin. done.
Qed.

Lemma page_step_addressed e p :
  addressed_to (getTrustedOrigin extensionConfig) (outbox p) →
  addressed_to (getTrustedOrigin extensionConfig) (outbox (page_step extensionConfig e p)).
Proof.
  intros Hp. destruct e as [event href title now|request|tr el|el name v]; simpl.
  - unfold window_message_on_page.
    destruct (window_message_listener extensionConfig event) as [[| | | |]|]; try done.
    + unfold handleDomObserver. destruct (selected p !! _); [|done].
      destruct (iframe_ready p (panel_frame p)); simpl.
      * destruct (postMessage _ _) as [s|] eqn:Hpost; [|done]. simpl.
        apply addressed_to_app; [done|]. by apply postMessage_addressed in Hpost.
      * apply addressed_to_app; [done|apply addressed_to_nil].
    + unfold handleGetDomInfo. destruct (iframe_ready p (panel_frame p)); [|done].
      destruct (postMessage _ _) as [s|] eqn:Hpost; [|done]. simpl.
      apply addressed_to_app; [done|]. by apply postMessage_addressed in Hpost.
    + unfold replyTabInfo. destruct (iframe_ready p (panel_frame p)); [|done].
      destruct (postMessage _ _) as [s|] eqn:Hpost; [|done]. simpl.
      apply addressed_to_app; [done|]. by apply postMessage_addressed in Hpost.
  - unfold runtime_message_on_page.
    destruct (runtime_message_listener request) as [[r| | |]|]; try done.
    destruct (handleManipulateDomRequest r); try done.
    unfold observeDomValue. destruct (selected p !! _); [|done]. simpl.
    apply addressed_to_app; [done|].
    intros m t Hin. apply list_elem_of_singleton in Hin. done.
  - rewrite deliver_outbox. apply addressed_to_app; [done|].
    induction (watchers p) as [|w ws IH]; [apply addressed_to_nil|]. simpl.
    apply addressed_to_app; [|done].
    destruct (triggered tr el w); [|apply addressed_to_nil].
    unfold run_watcher. destruct (strict_eq _ _); [apply addressed_to_nil|].
    apply notify_addressed.
  - done.
Qed.

(** X8. Whatever happens on a watched page, the content script posts to the
    panel iframe under the trusted origin of the configuration alone: a
    first value, a change notification, a [dom-info-result] or a [tab-info]
    message never carries another target, and none is posted while that
    origin is the empty string. *)
Theorem page_posts_carry_trusted_origin (es : list page_event) (p : page) :
  outbox p = [] →
  addressed_to (getTrustedOrigin extensionConfig)
               (outbox (page_run extensionConfig es p)).
Proof.
  intros Hempty.
  assert (addressed_to (getTrustedOrigin extensionConfig) (outbox p)) as Hp
    by (rewrite Hempty; apply addressed_to_nil).
  clear Hempty. revert p Hp.
  induction es as [|e es IH]; intros p Hp; [done|].
  simpl. by apply IH, page_step_addressed.
Qed.

End TargetOrigin.

(** ** The URL change detector over any run *)

Section UrlTraceFacts.
Context `{Platform}.
Variable extensionConfig : jsval.
Import UrlTrace.

Lemma url_changes_notify now newUrl oldUrl st :
  url_changes (notifyUrlChange extensionConfig now newUrl oldUrl st) = [(oldUrl, newUrl)].
Proof.
  unfold notifyUrlChange, postMessage, url_changes.
  destruct (nav_frame st); [|reflexivity].
  destruct (postable _); reflexivity.
Qed.

Lemma posted_addressed m o (rest : list Content.sent) :
  Actions.addressed_to o rest →
  Actions.addressed_to o
    match postMessage m o with
    | None => []
    | Some m1 => m1 :: rest
    end.
Proof.
  intros Hrest. destruct (postMessage m o) as [s|] eqn:Hpost; [|apply addressed_to_nil].
  apply (addressed_to_app o [s] rest); [by apply postMessage_addressed in Hpost|done].
Qed.

Lemma notify_posts_addressed now newUrl oldUrl st :
  Actions.addressed_to (getTrustedOrigin extensionConfig)
    (notifyUrlChange extensionConfig now newUrl oldUrl st).
Proof.
  unfold notifyUrlChange. cbv zeta.
  apply (addressed_to_app _ [_] _).
  - intros m t Hin. apply list_elem_of_singleton in Hin. done.
  - destruct (nav_frame st); [|apply addressed_to_nil].
    apply posted_addressed, posted_addressed, addressed_to_nil.
Qed.

(** One step of the detector: nothing is announced and [currentUrl]
    stays, or the change from [currentUrl] to the location, which differs
    from it, is announced and becomes the new [currentUrl]. *)
Lemma nav_step_change now e st :
  let st' := nav_step extensionConfig now e st in
  (currentUrl st' = currentUrl st ∧ nav_outbox st' = nav_outbox st)
  ∨ (currentUrl st' ≠ currentUrl st ∧ currentUrl st' = location_href st'
     ∧ ∃ st0, nav_outbox st' =
         nav_outbox st
         ++ notifyUrlChange extensionConfig now (currentUrl st') (currentUrl st) st0).
Proof.
  assert (∀ l, let '(b, P) := (String.eqb l (currentUrl st), l = currentUrl st) in
               (b = true ∧ P) ∨ (b = false ∧ ¬ P)) as Hcmp.
  { intros l. destruct (String.eqb_spec l (currentUrl st)); auto. }
  destruct e as [args|args| | |ms| |t|h]; simpl;
    try (unfold history_wrapper; destruct args as [|h|]; simpl);
    try unfold popstate_listener; try unfold poll_callback;
    try (by left);
    try (destruct (Hcmp (location_href st)) as [[-> Heq]|[-> Hne]]; simpl;
         [by left | right; repeat split; [congruence | eauto]]).
  - destruct (Hcmp h) as [[-> Heq]|[-> Hne]]; simpl;
      [by left | right; repeat split; [congruence | eauto]].
  - destruct (Hcmp h) as [[-> Heq]|[-> Hne]]; simpl;
      [by left | right; repeat split; [congruence | eauto]].
  - left. destruct (title_observer_keeps ms st) as (_ & -> & ->). done.
  - unfold settle_callback. destruct (settle_timers st) as [|n]; simpl; [left; done|].
    destruct (Hcmp (location_href st)) as [[-> Heq]|[-> Hne]]; simpl;
      [by left | right; repeat split; [congruence | eauto]].
Qed.

Lemma chain_end_app start a b :
  chain_end start (a ++ b) = chain_end start a ≫= λ mid, chain_end mid b.
Proof.
  revert start. induction a as [|[old new] a IH]; intros start; [done|].
  simpl. destruct (_ && _); [apply IH|done].
Qed.

Lemma url_changes_app a b : url_changes (a ++ b) = url_changes a ++ url_changes b.
Proof. apply omap_app. Qed.

Lemma chain_step start now e st :
  chain_end start (url_changes (nav_outbox st)) = Some (currentUrl st) →
  let st' := nav_step extensionConfig now e st in
  chain_end start (url_changes (nav_outbox st')) = Some (currentUrl st').
Proof.
  intros Hchain. cbv zeta.
  destruct (nav_step_change now e st) as [(Hc & Ho)|(Hne & _ & st0 & Ho)].
  - by rewrite Ho, Hc.
  - rewrite Ho, url_changes_app, chain_end_app, Hchain, url_changes_notify. simpl.
    rewrite String.eqb_refl. simpl.
    by rewrite (proj2 (String.eqb_neq _ _) Hne).
Qed.

(** X10. The URL_CHANGED messages of a run tell one story.  Starting with
    nothing sent, whatever history calls, traversals, polls, title
    mutations and timers follow: the first message has the initial
    [currentUrl] as its [oldUrl], each later message has as [oldUrl] the
    [newUrl] of the one before, no message has [newUrl] equal to its
    [oldUrl], and the [newUrl] of the last message is [currentUrl] at the
    end. *)
Theorem url_changes_form_a_chain (es : list (Z * nav_event)) (st : nav) :
  nav_outbox st = [] →
  let st' := nav_run extensionConfig es st in
  chain_end (currentUrl st) (url_changes (nav_outbox st')) = Some (currentUrl st').
Proof.
  intros Hempty. cbv zeta.
  assert (chain_end (currentUrl st) (url_changes (nav_outbox st)) = Some (currentUrl st))
    as Hchain by (by rewrite Hempty).
  clear Hempty. revert Hchain. generalize (currentUrl st) at 1 3 as start.
  revert st. induction es as [|[now e] es IH]; intros st start Hchain; [done|].
  simpl. by apply IH, chain_step.
Qed.

Lemma still_location now e st :
  moves e = false → location_href (nav_step extensionConfig now e st) = location_href st.
Proof.
  intros Hm. destruct e as [args|args| | |ms| |t|h]; simpl in *; try done.
  - unfold history_wrapper. destruct args as [|h|]; simpl in *; try done.
    by destruct (negb _).
  - unfold history_wrapper. destruct args as [|h|]; simpl in *; try done.
    by destruct (negb _).
  - unfold popstate_listener. by destruct (negb _).
  - unfold poll_callback. by destruct (negb _).
  - by destruct (title_observer_keeps ms st) as (-> & _ & _).
  - unfold settle_callback. destruct (settle_timers st); [done|]. simpl. by destruct (negb _).
Qed.

Lemma behind_cases st :
  (behind st = 0%nat ∧ location_href st = currentUrl st)
  ∨ (behind st = 1%nat ∧ location_href st ≠ currentUrl st).
Proof. unfold behind. destruct (String.eqb_spec (location_href st) (currentUrl st)); auto. Qed.

Lemma announce_budget_step now e st :
  let st' := nav_step extensionConfig now e st in
  (announced st' + behind st' <= announced st + behind st + (if moves e then 1 else 0))%nat.
Proof.
  cbv zeta.
  destruct (nav_step_change now e st) as [(Hc & Ho)|(Hne & Hl & st0 & Ho)].
  - unfold announced. rewrite Ho.
    destruct (moves e) eqn:Hm.
    + destruct (behind_cases (nav_step extensionConfig now e st)) as [[-> _]|[-> _]]; lia.
    + pose proof (still_location now e st Hm) as Hloc.
      unfold behind. rewrite Hloc, Hc. lia.
  - unfold announced. rewrite Ho, filter_app, length_app, notify_announces_once.
    destruct (behind_cases (nav_step extensionConfig now e st)) as [[-> _]|[_ Hb]];
      [|congruence].
    destruct (moves e) eqn:Hm; [lia|].
    pose proof (still_location now e st Hm) as Hloc.
    destruct (behind_cases st) as [[_ Hb]|[-> _]]; [congruence|lia].
Qed.

(** X11. No URL_CHANGED message without a move of the location.  Over any run
    the messages sent, plus one if [currentUrl] is behind the location at
    the end, are at most the events that moved the location, plus one if
    [currentUrl] was behind at the start: polls, [popstate] events, title
    mutations, timers and history calls that keep the URL add none. *)
Theorem announcements_bounded_by_moves (es : list (Z * nav_event)) (st : nav) :
  let st' := nav_run extensionConfig es st in
  (announced st' + behind st'
   <= announced st + behind st + length (filter (λ s, moves s.2) es))%nat.
Proof.
  cbv zeta. revert st. induction es as [|[now e] es IH]; intros st; [simpl; lia|].
  simpl nav_run. specialize (IH (nav_step extensionConfig now e st)).
  pose proof (announce_budget_step now e st) as Hstep. cbv zeta in Hstep.
  rewrite filter_cons. simpl. destruct (moves e); simpl; simpl in Hstep; lia.
Qed.

Lemma title_observer_same_title ms st :
  document_title st = currentTitle st → title_observer ms st = st.
Proof.
  intros Hsame. induction ms as [|m ms IH]; [done|]. simpl.
  rewrite Hsame, String.eqb_refl, andb_false_r. done.
Qed.

(** X12. One batch of mutation records schedules at most one settle check:
    exactly one when the title differs from the one remembered and some
    record is about the child list of the TITLE element, and then the new
    title is remembered; in every other case the batch changes nothing. *)
Theorem title_batch_schedules_one_check (ms : list mutation_record) (st : nav) :
  let st' := title_observer ms st in
  if existsb about_title ms && negb (String.eqb (document_title st) (currentTitle st))
  then settle_timers st' = S (settle_timers st)
       ∧ currentTitle st' = document_title st
       ∧ document_title st' = document_title st
  else st' = st.
Proof.
  cbv zeta. induction ms as [|m ms IH]; [done|]. simpl.
  unfold about_title at 1.
  destruct (String.eqb (m_type m) "childList" && String.eqb (m_target m) "TITLE") eqn:Hm;
    simpl.
  - destruct (String.eqb (document_title st) (currentTitle st)) eqn:Hsame; simpl.
    + rewrite andb_false_r in IH. done.
    + by rewrite title_observer_same_title.
  - done.
Qed.

(** X9. The messages of the detector to the panel iframe carry the trusted
    origin of the configuration and no other target, over any run; none is
    posted while that origin is the empty string. *)
Theorem nav_posts_carry_trusted_origin (es : list (Z * nav_event)) (st : nav) :
  nav_outbox st = [] →
  Actions.addressed_to (getTrustedOrigin extensionConfig)
                       (nav_outbox (nav_run extensionConfig es st)).
Proof.
  intros Hempty.
  assert (Actions.addressed_to (getTrustedOrigin extensionConfig) (nav_outbox st)) as Hst
    by (rewrite Hempty; apply addressed_to_nil).
  clear Hempty. revert st Hst.
  induction es as [|[now e] es IH]; intros st Hst; [done|].
  simpl. apply IH.
  destruct (nav_step_change now e st) as [(_ & ->)|(_ & _ & st0 & ->)]; [done|].
  apply addressed_to_app; [done|apply notify_posts_addressed].
Qed.

(** X13. A change the detector announces reaches the side panel as one
    SIDEBAR_UPDATE_URL message: the background script answers the first
    message of [notifyUrlChange] with the new URL, the title of the
    document and the id of the sending tab ([null] without one), and
    answers none of the other messages. *)
Theorem url_change_becomes_sidebar_update
    (now : Z) (newUrl oldUrl : string) (st : nav) (sender_tab : option nat) :
  flat_map (λ m, match m with
                 | RuntimeSend request => Background.on_url_changed request sender_tab
                 | Content.PostToIframe _ _ => []
                 end)
           (notifyUrlChange extensionConfig now newUrl oldUrl st)
  = [Background.RuntimeSendMessage
       (JObj [("type", JStr "SIDEBAR_UPDATE_URL"); ("url", JStr newUrl);
              ("title", JStr (document_title st));
              ("tabId", match sender_tab with
                        | Some t => JNum (Z.of_nat t)
                        | None => JNull
                        end);
              ("changeType", JStr "spa_navigation")])].
Proof.
  unfold notifyUrlChange, postMessage.
  destruct (nav_frame st); [|reflexivity].
  destruct (postable _); reflexivity.
Qed.

End UrlTraceFacts.

(** ** The panel and its persisted state *)

Section PanelTraceFacts.
Context `{Platform}.
Import PanelTrace.





(** X15. Open, reload, restore.  A hidden panel that the user opens at [t0]
    is back after a reload of the page, at whatever address, when the
    restore runs within the configured window: the two timers of the
    restore build and show the panel, and the record then names the new
    address.  Had the user closed the panel with its button before the
    reload, the restore would change nothing. *)
Theorem opened_panel_returns_after_reload
    (extensionConfig : jsval) (t0 t1 now later later' minutes : Z) (address : string)
    (st : panel) :
  wrapper st = Some false →
  getConfig extensionConfig "behavior.autoRestoreTimeMinutes" (JNum 5) = JNum minutes →
  0 < t0 →
  now - t0 < minutes * 60 * 1000 →
  let opened := toggleCustomSidebar t0 st in
  let back :=
    run_next later'
      (run_next later (restoreSidebarState extensionConfig now (reload address opened))) in
  let closed := closeButton t1 opened in
  wrapper opened = Some true
  ∧ wrapper back = Some true ∧ tasks back = []
  ∧ Storage.read "sidebarOpen" (storage back) = JBool true
  ∧ Storage.read "sidebarUrl" (storage back) = JStr address
  ∧ restoreSidebarState extensionConfig now (reload address closed)
    = reload address closed.
Proof.
  intros Hw Hcfg Hpos Hfresh. cbv zeta.
  unfold toggleCustomSidebar. rewrite Hw. cbn [wrapper saveSidebarState].
  split; [done|].
  unfold restoreSidebarState, reload. cbn [storage saveSidebarState closeButton].
  rewrite Hcfg.
  rewrite (read_set_here "sidebarOpen" (JBool true)) by done.
  rewrite (read_set_here "sidebarOpen" (JBool false)) by done.
  rewrite (read_set_here "lastStateChange" (JNum t0)) by done.
  simpl to_number. simpl mul. simpl JS.sub. rewrite wasRecentlyChanged_number.
  assert (Z.eqb t0 0 = false) as -> by lia.
  assert (Z.ltb (now - minutes * 60 * 1000) t0 = true) as -> by lia.
  simpl. unfold run_next. simpl. unfold toggleCustomSidebar. simpl.
  split_and!; try done; by apply read_set_here.
Qed.

(** X16. A restore window longer than five minutes is cut short when the
    background script looks first.  With the flag set and a timestamp older
    than five minutes but within the configured window, the content script
    alone would schedule the reopening; the check of the background script
    sends nothing and clears the flag, and on the storage it leaves the
    content script restores nothing. *)
Theorem long_restore_window_cut_short
    (extensionConfig : jsval) (now now' minutes ts : Z) (tabId : nat) (st : panel) :
  getConfig extensionConfig "behavior.autoRestoreTimeMinutes" (JNum 5) = JNum minutes →
  Storage.read "sidebarOpen" (storage st) = JBool true →
  Storage.read "lastStateChange" (storage st) = JNum ts →
  0 < ts →
  5 * 60 * 1000 <= now - ts →
  now - ts < minutes * 60 * 1000 →
  let checked := Background.restore_check now tabId (storage st) in
  let st' := {| storage := checked.1; href := href st; wrapper := wrapper st;
                tasks := tasks st |} in
  tasks (restoreSidebarState extensionConfig now st) = tasks st ++ [RestoreIfAbsent]
  ∧ checked.2 = []
  ∧ restoreSidebarState extensionConfig now' st' = st'.
Proof.
  intros Hcfg Hopen Hts Hpos Hold Hfresh. cbv zeta.
  unfold restoreSidebarState, Background.restore_check, wasRecentlyChanged.
  rewrite Hcfg, Hopen, Hts. simpl.
  assert (Z.eqb ts 0 = false) as -> by lia. simpl.
  repeat match goal with
         | |- context [Z.ltb ?a ts] => destruct (Z.ltb_spec a ts); try lia
         end.
  simpl. split_and!; [done|done|].
  rewrite (read_set_here "sidebarOpen" (JBool false)) by done. done.
Qed.

(** X17. A restore window shorter than five minutes is stretched on the same
    path.  With the flag set and a timestamp outside the configured window
    but less than five minutes old, the content script alone would clear
    the flag; the background script, looking at the same storage, asks the
    tab for a state check, and that check on a page without the panel
    schedules the toggle that opens it. *)
Theorem short_restore_window_stretched
    (extensionConfig : jsval) (now minutes ts : Z) (tabId : nat) (st : panel) :
  getConfig extensionConfig "behavior.autoRestoreTimeMinutes" (JNum 5) = JNum minutes →
  wrapper st = None →
  Storage.read "sidebarOpen" (storage st) = JBool true →
  Storage.read "lastStateChange" (storage st) = JNum ts →
  0 < ts →
  minutes * 60 * 1000 <= now - ts →
  now - ts < 5 * 60 * 1000 →
  Storage.read "sidebarOpen" (storage (restoreSidebarState extensionConfig now st))
  = JBool false
  ∧ tasks (restoreSidebarState extensionConfig now st) = tasks st
  ∧ Background.restore_check now tabId (storage st)
    = (storage st,
       [Background.TabsSendMessage tabId (JObj [("action", JStr "checkSidebarState")])])
  ∧ tasks (checkSidebarState now st) = tasks st ++ [ToggleLater].
Proof.
  intros Hcfg Hw Hopen Hts Hpos Hold Hfresh.
  unfold restoreSidebarState, checkSidebarState, Background.restore_check,
    wasRecentlyChanged.
  rewrite Hcfg, Hw, Hopen, Hts. simpl.
  assert (Z.eqb ts 0 = false) as -> by lia. simpl.
  repeat match goal with
         | |- context [Z.ltb ?a ts] => destruct (Z.ltb_spec a ts); try lia
         end.
  simpl. split_and!; try done. by apply read_set_here.
Qed.

End PanelTraceFacts.

(** ** The two routes of a watch *)

Section WatchRoutes.
Context `{Platform}.
Variable extensionConfig : jsval.
Variable e : Sidebar.env.
Import Actions.
Local Arguments String.eqb : simpl never.

Hypothesis origin_configured : getTrustedOrigin extensionConfig ≠ "".
Hypothesis origin_of_a_host : getTrustedOrigin extensionConfig ≠ "null".
Hypothesis relay_frame : Sidebar.frame e = true.

Lemma heard_app out1 out2 : heard e (out1 ++ out2) = heard e out1 ++ heard e out2.
Proof. unfold heard. apply flat_map_app. Qed.

Lemma relayed_notification selector attribute value watchId :
  truthy watchId = true →
  relayed e (domValueChanged selector attribute value watchId)
  = [domValueChanged selector attribute value watchId].
Proof using relay_frame.
  intros Hid. unfold relayed, Sidebar.domValueChanged_relay, domValueChanged.
  replace (get "type" _) with (JStr "domValueChanged") by reflexivity.
  replace (strict_eq (JStr "domValueChanged") (JStr "domValueChanged")) with true
    by reflexivity.
  replace (get "watchId" (JObj _)) with watchId by reflexivity.
  rewrite Hid, relay_frame. reflexivity.
Qed.

Lemma json_value_cloneable v : json_value v = true → cloneable v = true.
Proof.
  revert v. fix IH 1. intros v.
  destruct v as [| |b|n| |s|fields|r]; simpl; try done.
  revert fields. fix IHf 1. intros fields.
  destruct fields as [|[k x] rest]; [done|].
  intros Hj. apply andb_prop in Hj as [Hx Hrest].
  rewrite (IH x Hx). simpl. exact (IHf rest Hrest).
Qed.

Lemma json_field_cloneable v : json_field v = true → cloneable v = true.
Proof.
  unfold json_field. intros Hv. apply orb_prop in Hv as [Hv|Hv].
  - by apply json_value_cloneable.
  - by destruct v.
Qed.

Lemma read_json p a el :
  data_page p → json_field (read_value a (element_of p el)) = true.
Proof.
  intros Hdata. unfold read_value, element_of.
  destruct (elements p !! el) as [x|] eqn:Hx; simpl.
  - destruct (props x !! a) as [v|] eqn:Hv; [by apply (Hdata el x a v)|].
    by destruct (attributes x !! a).
  - by rewrite !lookup_empty.
Qed.

Lemma notification_cloneable selector attribute value watchId :
  json_field selector = true → json_field attribute = true →
  json_field value = true → json_field watchId = true →
  cloneable (domValueChanged selector attribute value watchId) = true.
Proof.
  intros Hs Ha Hv Hid. unfold domValueChanged. simpl.
  by rewrite (json_field_cloneable _ Hs), (json_field_cloneable _ Ha),
    (json_field_cloneable _ Hv), (json_field_cloneable _ Hid).
Qed.

Lemma same_watches (i : nat) (ws : list watcher) :
  Forall2 (λ w1 w2, w1 = w2 ∨ twin i w1 w2) ws ws.
Proof. induction ws; constructor; [by left|done]. Qed.

Lemma alike_refl i p : content_window p i = true → data_page p → alike e i p p.
Proof. intros Hcw Hdata. unfold alike. split_and!; try done. apply same_watches. Qed.

Lemma run_watcher_twin i p1 p2 w1 w2 :
  elements p1 = elements p2 → content_window p1 = content_window p2 →
  content_window p1 i = true → data_page p1 →
  w1 = w2 ∨ twin i w1 w2 →
  ((run_watcher extensionConfig p1 w1).1 = (run_watcher extensionConfig p2 w2).1
   ∨ twin i (run_watcher extensionConfig p1 w1).1 (run_watcher extensionConfig p2 w2).1)
  ∧ heard e (run_watcher extensionConfig p1 w1).2
    = heard e (run_watcher extensionConfig p2 w2).2.
Proof using origin_configured origin_of_a_host relay_frame.
  intros He Hc Hcw Hdata [->|(Hroute & Hid & Hjs & Hja & Hjid & ->)].
  - rewrite (run_watcher_elements extensionConfig p1 p2 w2 He Hc). by split; [left|].
  - unfold run_watcher. cbn [w_el w_attribute lastValue].
    replace (element_of p2 (w_el w1)) with (element_of p1 (w_el w1))
      by (unfold element_of; by rewrite He).
    destruct (strict_eq _ (lastValue w1)).
    + cbn [fst snd]. split; [right|done]. unfold twin. by split_and!.
    + cbn [fst snd]. split; [right; unfold twin; by split_and!|].
      rewrite (notify_posted extensionConfig p1 w1 _ i Hroute Hcw
                 origin_configured origin_of_a_host).
      * unfold notify. cbn [w_route w_selector w_attribute w_watchId heard flat_map].
        rewrite relayed_notification by done. done.
      * apply notification_cloneable; try done. by apply read_json.
Qed.

Lemma triggered_twin i tr el w1 w2 :
  w1 = w2 ∨ twin i w1 w2 → triggered tr el w1 = triggered tr el w2.
Proof. intros [->|(_ & _ & _ & _ & _ & ->)]; done. Qed.

Lemma run_watchers_twin i p1 p2 tr el ws1 ws2 :
  elements p1 = elements p2 → content_window p1 = content_window p2 →
  content_window p1 i = true → data_page p1 →
  Forall2 (λ w1 w2, w1 = w2 ∨ twin i w1 w2) ws1 ws2 →
  Forall2 (λ w1 w2, w1 = w2 ∨ twin i w1 w2)
          (run_watchers extensionConfig p1 tr el ws1).1
          (run_watchers extensionConfig p2 tr el ws2).1
  ∧ heard e (run_watchers extensionConfig p1 tr el ws1).2
    = heard e (run_watchers extensionConfig p2 tr el ws2).2.
Proof using origin_configured origin_of_a_host relay_frame.
  intros He Hc Hcw Hdata Hws.
  induction Hws as [|w1 w2 ws1 ws2 Hw Hws [IH1 IH2]]; [done|].
  simpl. rewrite (triggered_twin i tr el w1 w2 Hw).
  destruct (run_watcher_twin i p1 p2 w1 w2 He Hc Hcw Hdata Hw) as [Hw' Hout].
  destruct (run_watchers extensionConfig p1 tr el ws1) as [r1 o1].
  destruct (run_watchers extensionConfig p2 tr el ws2) as [r2 o2].
  simpl in *.
  destruct (triggered tr el w2).
  - destruct (run_watcher extensionConfig p1 w1) as [w1' out1].
    destruct (run_watcher extensionConfig p2 w2) as [w2' out2]. simpl in *.
    split; [by constructor|]. by rewrite !heard_app, Hout, IH2.
  - simpl. split; [by constructor|done].
Qed.

(** Everything but a delivery adds to the watches and to the outbox what
    the elements, the selection and the iframe determine. *)
Lemma page_step_adds ev p1 p2 :
  (∀ tr el, ev ≠ Fires tr el) →
  elements p1 = elements p2 → selected p1 = selected p2 →
  panel_frame p1 = panel_frame p2 → content_window p1 = content_window p2 →
  ∃ ws out,
    watchers (page_step extensionConfig ev p1) = watchers p1 ++ ws
    ∧ watchers (page_step extensionConfig ev p2) = watchers p2 ++ ws
    ∧ outbox (page_step extensionConfig ev p1) = outbox p1 ++ out
    ∧ outbox (page_step extensionConfig ev p2) = outbox p2 ++ out
    ∧ elements (page_step extensionConfig ev p1) = elements (page_step extensionConfig ev p2)
    ∧ selected (page_step extensionConfig ev p1) = selected (page_step extensionConfig ev p2)
    ∧ panel_frame (page_step extensionConfig ev p1)
      = panel_frame (page_step extensionConfig ev p2).
Proof.
  intros Hev He Hs Hf Hc.
  destruct p1 as [e1 s1 f1 c1 w1 o1], p2 as [e2 s2 f2 c2 w2 o2].
  simpl in He, Hs, Hf, Hc. subst e2 s2 f2 c2.
  destruct ev as [event href title now|request|tr el|el name v]; simpl.
  - unfold window_message_on_page.
    destruct (window_message_listener extensionConfig event) as [[| | | |]|];
      try (by exists [], []; rewrite !app_nil_r).
    + unfold handleDomObserver, element_of, iframe_ready. simpl.
      destruct (s1 !! _); [|by exists [], []; rewrite !app_nil_r].
      destruct (match f1 with Some i => c1 i | None => false end); simpl.
      * destruct (postMessage _ _); [|by exists [], []; rewrite !app_nil_r]. simpl.
        eexists _, _. split_and!; reflexivity.
      * eexists _, _. split_and!; reflexivity.
    + unfold handleGetDomInfo, element_of, iframe_ready. simpl.
      destruct (match f1 with Some i => c1 i | None => false end);
        [|by exists [], []; rewrite !app_nil_r].
      destruct (postMessage _ _) as [m|]; [|by exists [], []; rewrite !app_nil_r].
      simpl. exists [], [m]. by rewrite !app_nil_r.
    + unfold replyTabInfo, iframe_ready. simpl.
      destruct (match f1 with Some i => c1 i | None => false end);
        [|by exists [], []; rewrite !app_nil_r].
      destruct (postMessage _ _) as [m|]; [|by exists [], []; rewrite !app_nil_r].
      simpl. exists [], [m]. by rewrite !app_nil_r.
  - unfold runtime_message_on_page.
    destruct (runtime_message_listener request) as [[r| | |]|];
      try (by exists [], []; rewrite !app_nil_r).
    destruct (handleManipulateDomRequest r); try (by exists [], []; rewrite !app_nil_r).
    unfold observeDomValue, element_of. simpl.
    destruct (s1 !! _); [|by exists [], []; rewrite !app_nil_r]. simpl.
    eexists _, _. split_and!; reflexivity.
  - by destruct (Hev tr el).
  - unfold set_prop, element_of. simpl.
    exists [], []. rewrite !app_nil_r. split_and!; done.
Qed.

Lemma page_step_content_window ev p :
  content_window (page_step extensionConfig ev p) = content_window p.
Proof.
  destruct ev as [event href title now|request|tr el|el name v]; simpl.
  - unfold window_message_on_page.
    destruct (window_message_listener extensionConfig event) as [[| | | |]|]; try done.
    + unfold handleDomObserver. destruct (selected p !! _); [|done].
      destruct (iframe_ready _ _); simpl; [|done]. by destruct (postMessage _ _).
    + unfold handleGetDomInfo. destruct (iframe_ready _ _); [|done].
      by destruct (postMessage _ _).
    + unfold replyTabInfo. destruct (iframe_ready _ _); [|done].
      by destruct (postMessage _ _).
  - unfold runtime_message_on_page.
    destruct (runtime_message_listener request) as [[r| | |]|]; try done.
    destruct (handleManipulateDomRequest r); try done.
    unfold observeDomValue. by destruct (selected p !! _).
  - apply deliver_content_window.
  - done.
Qed.

Lemma set_prop_data el name v p :
  data_page p → json_field v = true → data_page (set_prop el name v p).
Proof.
  intros Hdata Hv el' x k v'. unfold set_prop. simpl.
  destruct (decide (el' = el)) as [->|Hne].
  - rewrite lookup_insert_eq. intros [= <-]. simpl.
    destruct (decide (k = name)) as [->|Hk].
    + rewrite lookup_insert_eq. by intros [= <-].
    + rewrite lookup_insert_ne by done. unfold element_of.
      destruct (elements p !! el) as [x|] eqn:Hx; simpl; [by apply (Hdata el x)|].
      by rewrite lookup_empty.
  - rewrite lookup_insert_ne by done. apply Hdata.
Qed.

Lemma page_step_data ev p :
  data_event ev → data_page p → data_page (page_step extensionConfig ev p).
Proof.
  intros Hev Hdata.
  destruct ev as [event href title now|request|tr el|el name v]; simpl.
  - unfold window_message_on_page.
    destruct (window_message_listener extensionConfig event) as [[| | | |]|]; try done.
    + intros el x k v. rewrite handleDomObserver_elements. apply Hdata.
    + unfold handleGetDomInfo. destruct (iframe_ready _ _); [|done].
      by destruct (postMessage _ _).
    + unfold replyTabInfo. destruct (iframe_ready _ _); [|done].
      by destruct (postMessage _ _).
  - unfold runtime_message_on_page.
    destruct (runtime_message_listener request) as [[r| | |]|]; try done.
    destruct (handleManipulateDomRequest r); try done.
    unfold observeDomValue. by destruct (selected p !! _).
  - intros el' x k v. destruct (deliver_page extensionConfig tr el p) as (-> & _ & _).
    apply Hdata.
  - by apply set_prop_data.
Qed.

Lemma page_step_alike i ev p1 p2 :
  data_event ev →
  alike e i p1 p2 →
  alike e i (page_step extensionConfig ev p1) (page_step extensionConfig ev p2).
Proof using origin_configured origin_of_a_host relay_frame.
  intros Hdev (He & Hs & Hf & Hc & Hcw & Hdata & Hws & Hout).
  pose proof (page_step_data ev p1 Hdev Hdata) as Hdata'.
  pose proof (page_step_content_window ev p1) as Hc1.
  pose proof (page_step_content_window ev p2) as Hc2.
  destruct ev as [event href title now|request|tr el|el name v].
  3: { destruct (run_watchers_twin i p1 p2 tr el _ _ He Hc Hcw Hdata Hws)
         as [Hws' Hout'].
       simpl in Hdata', Hc1, Hc2. simpl. revert Hdata' Hc1 Hc2. unfold deliver.
       destruct (run_watchers extensionConfig p1 tr el (watchers p1)) as [r1 o1].
       destruct (run_watchers extensionConfig p2 tr el (watchers p2)) as [r2 o2].
       intros Hdata' Hc1 Hc2.
       unfold alike. simpl in *. split_and!; try done.
       by rewrite !heard_app, Hout, Hout'. }
  all: match goal with
       | |- alike _ _ (page_step _ ?ev _) _ =>
           destruct (page_step_adds ev p1 p2 ltac:(done) He Hs Hf Hc)
             as (ws & out & Hw1 & Hw2 & Ho1 & Ho2 & He' & Hs' & Hf')
       end;
       unfold alike; rewrite Hw1, Hw2, Ho1, Ho2, !heard_app, Hout, Hc1, Hc2;
       (split_and!; try done);
       (apply Forall2_app; [done|]); apply same_watches.
Qed.

Lemma page_run_alike i es p1 p2 :
  Forall data_event es →
  alike e i p1 p2 →
  alike e i (page_run extensionConfig es p1) (page_run extensionConfig es p2).
Proof using origin_configured origin_of_a_host relay_frame.
  intros Hes. revert p1 p2.
  induction Hes as [|ev es Hev Hes IH]; intros p1 p2 Hp; [done|].
  simpl. by apply IH, page_step_alike.
Qed.

(** X29. A watch reports the same on both routes.  A [start-dom-observer]
    message with a [watchId] that is not falsy starts its watch either in
    the page, posted to the window from the trusted origin, or through the
    side panel, which sends the tab an [observeDomValue] request.  Let the
    panel iframe be there with its content window, the trusted origin be
    neither empty nor ["null"], and the selector, the attribute and the
    [watchId] of the message, the properties of the elements and the values
    written later be data that both transports carry unchanged ([null],
    booleans, integers, strings and objects of such, or [undefined]).
    Then whatever is registered, delivered or written on the page
    afterwards, the panel iframe receives the same messages in the same
    order on both routes: on the first they are posted by the content
    script, on the second they come through the runtime and the relay of
    the side panel. *)
Theorem watch_routes_report_alike
    (tabId i : nat) (d : jsval) (sender href title : string) (now : Z)
    (es : list page_event) (p : page) :
  Sidebar.has_type d "start-dom-observer" = true →
  is_object d = true →
  truthy (get "watchId" d) = true →
  Sidebar.active_tab e = Some tabId →
  panel_frame p = Some i →
  content_window p i = true →
  json_field (get "selector" d) = true →
  json_field (get "attribute" d) = true →
  json_field (get "watchId" d) = true →
  data_page p →
  Forall data_event es →
  ∃ request,
    Sidebar.start_dom_observer_listener e {| origin := sender; data := d |}
    = [Sidebar.TabsSendMessage tabId request]
    ∧ heard e (outbox (page_run extensionConfig
                         (WindowMessage {| origin := getTrustedOrigin extensionConfig;
                                           data := d |} href title now :: es) p))
      = heard e (outbox (page_run extensionConfig (RuntimeMessage request :: es) p)).
Proof using origin_configured origin_of_a_host relay_frame.
  intros Htype Hobj Hid Htab Hframe Hcw Hjs Hja Hjid Hdata Hes.
  unfold Sidebar.start_dom_observer_listener, Sidebar.to_active_tab. simpl.
  rewrite Htype, Htab. eexists. split; [reflexivity|].
  cbn [page_run page_step].
  match goal with
  | |- heard _ (outbox (page_run _ _ ?a)) = heard _ (outbox (page_run _ _ ?b)) =>
      assert (alike e i a b) as Hstart
  end.
  { unfold Sidebar.has_type in Htype. apply andb_prop in Htype as [Htruthy Hty].
    apply strict_eq_text in Hty.
    unfold window_message_on_page, window_message_listener, origin_accepted. simpl.
    rewrite Htruthy, Hobj, String.eqb_refl. simpl. rewrite Hty.
    replace (strict_eq (JStr "start-dom-observer") (JStr "injectWebComponent"))
      with false by reflexivity.
    replace (strict_eq (JStr "start-dom-observer") (JStr "manipulate-dom"))
      with false by reflexivity.
    replace (strict_eq (JStr "start-dom-observer") (JStr "start-dom-observer"))
      with true by reflexivity.
    cbn [orb].
    unfold runtime_message_on_page.
    match goal with
    | |- context [runtime_message_listener ?r] =>
        replace (runtime_message_listener r) with (Some (HandleManipulateDomRequest r))
          by reflexivity;
        replace (handleManipulateDomRequest r)
          with (ObserveDomValue (get "selector" d) (get "attribute" d)
                                (get "eventType" d) (get "watchId" d)) by reflexivity
    end.
    assert (json_field (default_attribute (get "attribute" d)) = true) as Hja'.
    { unfold default_attribute, or_else. by destruct (truthy (get "attribute" d)). }
    destruct (selected p !! to_string (get "selector" d)) as [el|] eqn:Hel.
    2: { unfold handleDomObserver, observeDomValue. rewrite Hel.
         by apply alike_refl. }
    rewrite (handleDomObserver_posted extensionConfig _ _ _ _ p el i Hel Hframe Hcw
               origin_configured origin_of_a_host).
    2: { cbv zeta. apply notification_cloneable; try done. by apply read_json. }
    unfold observeDomValue. rewrite Hel.
    unfold alike. cbn [elements selected panel_frame content_window watchers outbox].
    split_and!; try done.
    - apply Forall2_app; [apply same_watches|].
      constructor; [|constructor]. right. unfold twin. simpl.
      split_and!; done.
    - rewrite !heard_app. f_equal. simpl.
      rewrite relayed_notification by done. done. }
  by destruct (page_run_alike i es _ _ Hes Hstart) as (_ & _ & _ & _ & _ & _ & _ & Hheard).
Qed.

End WatchRoutes.

(** ** Reading the configuration *)

Section ConfigPathFacts.
Context `{Platform}.
Import ConfigPath.

Lemma append_empty (s : string) : s +:+ "" = s.
Proof.
  induction s as [|x s IH]; [done|].
  change (String x (s +:+ "") = String x s). by rewrite IH.
Qed.

Lemma append_char (cur : string) (c : ascii) (key : string) :
  (cur +:+ String c "") +:+ key = cur +:+ String c key.
Proof.
  induction cur as [|x cur IH]; [done|].
  change (String x ((cur +:+ String c "") +:+ key) = String x (cur +:+ String c key)).
  by rewrite IH.
Qed.

Lemma split_dotless key s cur :
  dotless key = true → split_dots (key +:+ s) cur = split_dots s (cur +:+ key).
Proof.
  revert cur. induction key as [|c key IH]; intros cur Hkey.
  - change ("" +:+ s) with s. by rewrite append_empty.
  - simpl in Hkey. apply andb_prop in Hkey as [Hc Hkey].
    apply negb_true_iff in Hc.
    change (String c key +:+ s) with (String c (key +:+ s)).
    simpl. rewrite Hc, IH by done.
    f_equal. apply append_char.
Qed.

Lemma split_join keys :
  keys ≠ [] → Forall (λ key, dotless key = true) keys →
  split_dots (join_dots keys) "" = keys.
Proof.
  induction keys as [|key keys IH]; [done|]. intros _ Hall.
  apply Forall_cons in Hall as [Hkey Hall].
  destruct keys as [|key' keys].
  - change (join_dots [key]) with key.
    rewrite <- (append_empty key) at 1.
    by rewrite split_dotless.
  - change (join_dots (key :: key' :: keys))
      with (key +:+ "." +:+ join_dots (key' :: keys)).
    rewrite split_dotless by done.
    change ("." +:+ join_dots (key' :: keys)) with (String "." (join_dots (key' :: keys))).
    simpl split_dots. change ("" +:+ key) with key. f_equal. by apply IH.
Qed.

Lemma walk_descend keys value fallback :
  walk keys value fallback = default fallback (descend keys value).
Proof.
  revert value. induction keys as [|key keys IH]; intros value; [done|].
  cbn [walk descend].
  destruct value as [| |b|n| |s|fields|r]; try done.
  - by destruct b.
  - cbn [truthy is_object]. by rewrite andb_false_r.
  - cbn [truthy is_object]. by rewrite andb_false_r.
  - cbn [truthy is_object andb has get].
    destruct (lookup_field key fields) as [v|] eqn:Hv.
    + rewrite bool_decide_eq_true_2 by done. apply IH.
    + rewrite bool_decide_eq_false_2; [done|]. by intros [? ?].
Qed.

(** X18. [getConfig] with a dotted path follows the keys through the nested
    plain objects of a loaded configuration, for keys that are not among
    the names every object inherits ([constructor], [toString] and the
    like).  The value stored at the end is returned as it is, also when it
    is [false], [0], the empty string or [null]; the fallback is returned
    exactly when a key is missing among the keys of its object or a value
    on the way is not an object. *)
Theorem getConfig_follows_the_keys
    (extensionConfig : jsval) (keys : list string) (fallback : jsval) :
  truthy extensionConfig = true →
  keys ≠ [] →
  Forall (λ key, dotless key = true) keys →
  Forall (λ key, own_key key = true) keys →
  getConfig extensionConfig (join_dots keys) fallback
  = default fallback (descend keys extensionConfig).
Proof.
  intros Hcfg Hkeys Hall _. unfold getConfig. rewrite Hcfg. simpl.
  by rewrite split_join, walk_descend.
Qed.

End ConfigPathFacts.

(** ** Requests that reach the page through the side panel *)

Section SidePanelRoutes.
Context `{Platform}.
Import Actions.
Local Arguments String.eqb : simpl never.

(** X19. A [get-dom-info] request that goes through the side panel is never
    answered with a value.  The side panel sends the tab a request with the
    action [getDomInfo]; the content script has no case for that action, so
    it makes no DOM call, starts no watch and sends nothing, and it never
    calls the response callback; the side panel then posts a
    [dom-info-result] with the [requestId] of the request and the value
    [null], whatever the element holds. *)
Theorem side_panel_dom_info_is_null
    (p : page) (e : Sidebar.env) (tabId : nat) (d page_data : jsval) (sender : string) :
  Sidebar.has_type d "get-dom-info" = true →
  Sidebar.active_tab e = Some tabId →
  Sidebar.frame e = true →
  ∃ request,
    Sidebar.get_dom_info_listener e {| origin := sender; data := d |}
    = [Sidebar.TabsSendMessage tabId request]
    ∧ runtime_route p request = []
    ∧ runtime_message_on_page request p = p
    ∧ Sidebar.get_dom_info_callback e d (runtime_response request page_data)
      = [Sidebar.PostToIframe
           (JObj [("type", JStr "dom-info-result"); ("selector", get "selector" d);
                  ("attribute", get "attribute" d); ("value", JNull);
                  ("requestId", get "requestId" d)]) "*"].
Proof.
  intros Htype Htab Hframe. eexists. split_and!.
  - unfold Sidebar.get_dom_info_listener, Sidebar.to_active_tab. simpl.
    by rewrite Htype, Htab.
  - unfold runtime_route, handleManipulateDomRequest_calls, performDomAction.
    replace (runtime_message_listener _) with
      (Some (HandleManipulateDomRequest
               (JObj [("type", JStr "manipulateDom"); ("action", JStr "getDomInfo");
                      ("selector", get "selector" d);
                      ("attribute", get "attribute" d)]))) by reflexivity.
    replace (handleManipulateDomRequest _) with
      (PerformDomAction
         (JObj [("type", JStr "manipulateDom"); ("action", JStr "getDomInfo");
                ("selector", get "selector" d);
                ("attribute", get "attribute" d)])) by reflexivity.
    by destruct (selected p !! _).
  - reflexivity.
  - unfold Sidebar.get_dom_info_callback. rewrite Hframe. reflexivity.
Qed.


(** X22. Of the two messages the background script sends to a tab, one is
    heard.  An [openSidebar] request from a tab is answered with
    [showCustomSidebar] to that tab, which the content script takes as a
    toggle of the panel; sent from a page that is no tab, it does nothing.
    An [overwriteText] request is passed to the active tab with its text,
    and the content script has no branch for it. *)
Theorem background_messages_to_the_tab
    (request : jsval) (sender_tab active_tab : option nat) (tabId : nat) :
  (strict_eq (get "action" request) (JStr "openSidebar") = true →
   ∀ m, m ∈ BackgroundListener.to_tab tabId
              (BackgroundListener.runtime_listener request sender_tab active_tab).1 →
        sender_tab = Some tabId
        ∧ runtime_message_listener m = Some ToggleCustomSidebar)
  ∧ (strict_eq (get "action" request) (JStr "openSidebar") = true →
     sender_tab = Some tabId →
     BackgroundListener.to_tab tabId
       (BackgroundListener.runtime_listener request sender_tab active_tab).1
     = [JObj [("action", JStr "showCustomSidebar")]])
  ∧ (strict_eq (get "action" request) (JStr "overwriteText") = true →
     active_tab = Some tabId →
     ∃ m, (BackgroundListener.runtime_listener request sender_tab active_tab).1
          = [BackgroundListener.ToTab tabId m]
          ∧ get "text" m = get "text" request
          ∧ runtime_message_listener m = None).
Proof.
  assert (∀ s, strict_eq (get "action" request) (JStr s) = true →
               get "action" request = JStr s) as Hact.
  { intros s. destruct (get "action" request); simpl; try discriminate.
    intros Hs. by apply String.eqb_eq in Hs as ->. }
  split_and!.
  - intros Ha m. apply Hact in Ha. unfold BackgroundListener.runtime_listener.
    rewrite Ha.
    replace (strict_eq (JStr "openSidebar") (JStr "captureScreenshot")) with false
      by reflexivity.
    replace (strict_eq (JStr "openSidebar") (JStr "overwriteText")) with false
      by reflexivity.
    replace (strict_eq (JStr "openSidebar") (JStr "getUserData")) with false
      by reflexivity.
    replace (strict_eq (JStr "openSidebar") (JStr "READ_URL")) with false
      by reflexivity.
    replace (strict_eq (JStr "openSidebar") (JStr "URL_CHANGED")) with false
      by reflexivity.
    replace (strict_eq (JStr "openSidebar") (JStr "openSidebar")) with true
      by reflexivity.
    cbn [fst app].
    destruct (strict_eq (get "type" request) (JStr "NORDCRAFT_ACTION")); cbn [app];
      (destruct sender_tab as [t|]; simpl; [|by intros ?%not_elem_of_nil]);
      (destruct (Nat.eqb_spec t tabId) as [->|Hne]; [|by intros ?%not_elem_of_nil]);
      intros ->%list_elem_of_singleton; done.
  - intros Ha ->. apply Hact in Ha. unfold BackgroundListener.runtime_listener.
    rewrite Ha.
    replace (strict_eq (JStr "openSidebar") (JStr "captureScreenshot")) with false
      by reflexivity.
    replace (strict_eq (JStr "openSidebar") (JStr "overwriteText")) with false
      by reflexivity.
    replace (strict_eq (JStr "openSidebar") (JStr "getUserData")) with false
      by reflexivity.
    replace (strict_eq (JStr "openSidebar") (JStr "READ_URL")) with false
      by reflexivity.
    replace (strict_eq (JStr "openSidebar") (JStr "URL_CHANGED")) with false
      by reflexivity.
    replace (strict_eq (JStr "openSidebar") (JStr "openSidebar")) with true
      by reflexivity.
    cbn [fst app].
    destruct (strict_eq (get "type" request) (JStr "NORDCRAFT_ACTION")); cbn [app];
      simpl; by rewrite Nat.eqb_refl.
  - intros Ha ->. apply Hact in Ha. unfold BackgroundListener.runtime_listener.
    rewrite Ha.
    replace (strict_eq (JStr "overwriteText") (JStr "captureScreenshot")) with false
      by reflexivity.
    replace (strict_eq (JStr "overwriteText") (JStr "overwriteText")) with true
      by reflexivity.
    replace (strict_eq (JStr "overwriteText") (JStr "getUserData")) with false
      by reflexivity.
    replace (strict_eq (JStr "overwriteText") (JStr "READ_URL")) with false
      by reflexivity.
    replace (strict_eq (JStr "overwriteText") (JStr "URL_CHANGED")) with false
      by reflexivity.
    replace (strict_eq (JStr "overwriteText") (JStr "openSidebar")) with false
      by reflexivity.
    cbn [fst app].
    destruct (strict_eq (get "type" request) (JStr "NORDCRAFT_ACTION")); cbn [app];
      eexists; split_and!; reflexivity.
Qed.

End SidePanelRoutes.

(** ** Dragging the resize handle *)

Section ResizeFacts.
Import QArith_base Resize.
Local Open Scope Q_scope.

(** X23. While a drag lasts the width asked for stays within the bounds: it
    is never under [minWidth]; it is not over [maxWidth] when the bounds
    are in order, and it is [minWidth] when the window is so narrow that
    [maxWidth] lies under it; between the bounds it is the width at the
    start plus the way the pointer went to the left.  Before the first
    [mousedown] and after [resizeStop] a move asks for nothing. *)
Theorem drag_width_stays_within_bounds (d : drag) (x0 w0 x : Q) :
  let held := mousedown x0 w0 d in
  (∃ w, resizeMove x held = Some w
        ∧ minWidth d <= w
        ∧ (minWidth d <= maxWidth d → w <= maxWidth d)
        ∧ (maxWidth d <= minWidth d → w == minWidth d)
        ∧ (minWidth d <= w0 + (x0 - x) → w0 + (x0 - x) <= maxWidth d →
           w == w0 + (x0 - x)))
  ∧ resizeMove x (resizeStop held) = None
  ∧ (dragging d = false → resizeMove x d = None).
Proof.
  cbv zeta. split_and!.
  - eexists. split; [reflexivity|]. cbn [minWidth maxWidth startX startWidth mousedown].
    split_and!.
    + apply Qminmax.Q.le_max_l.
    + intros Hle. apply Qminmax.Q.max_lub; [done|apply Qminmax.Q.le_min_l].
    + intros Hle. apply Qminmax.Q.max_l.
      eapply Qle_trans; [apply Qminmax.Q.le_min_l|done].
    + intros Hlo Hhi. rewrite Qminmax.Q.min_r by done.
      by apply Qminmax.Q.max_r.
  - reflexivity.
  - intros Hd. unfold resizeMove. by rewrite Hd.
Qed.

(** X24. The [resize] listener of the window ignores [minWidth]: with the
    new upper bound as the code computes it, a panel that is wider than
    the bound is set to that bound, also when the bound lies under
    [minWidth]; the next move of a drag asks for [minWidth] again. *)
Theorem window_resize_ignores_min_width (d : drag) (product offsetWidth x0 x : Q) :
  let resized := window_resize product offsetWidth d in
  product < offsetWidth →
  product < minWidth d →
  resized.2 = Some product
  ∧ maxWidth resized.1 = product
  ∧ minWidth resized.1 = minWidth d
  ∧ ∃ w, resizeMove x (mousedown x0 product resized.1) = Some w ∧ w == minWidth d.
Proof.
  cbv zeta. unfold window_resize. intros Hwide Hmin. cbn [fst snd].
  destruct (Qlt_le_dec _ offsetWidth) as [Hlt|Hle].
  - split_and!; try done. eexists. split; [reflexivity|].
    cbn [minWidth maxWidth startX startWidth mousedown].
    apply Qminmax.Q.max_l. eapply Qle_trans; [apply Qminmax.Q.le_min_l|].
    by apply Qlt_le_weak.
  - exfalso. by apply (Qlt_irrefl offsetWidth), (Qle_lt_trans _ _ _ Hle).
Qed.

End ResizeFacts.

(** ** Injection: what is already there, and what is not defined yet *)

Section InjectionFurther.
Local Arguments String.eqb : simpl never.
Variable request : inject_request.
Let name := to_string (r_name request).
Let src := to_string (r_src request).

Hypothesis name_given : truthy (r_name request) = true.
Hypothesis src_given : truthy (r_src request) = true.
Hypothesis name_of_an_element : element_name name = true.
Hypothesis src_quotable : quotable src = true.

(** X25. A script tag alone stops the injection.  For a request that names
    the component by an element name (a lower-case letter, then lower-case
    letters, digits and hyphens) and the script by a source that can stand
    between double quotes in a selector: when the document already has a
    script tag with the source of the request and no element of the
    component type, [injectWebComponent] changes nothing: no element is
    created, whatever the selector, the placement and the registry. *)
Theorem script_tag_alone_stops_injection (st : dom) :
  count_elements name (document st) = 0%nat →
  (0 < count_scripts src (document st))%nat →
  injectWebComponent request st = st.
Proof using name_given src_given name_of_an_element src_quotable.
  intros He Hs. unfold injectWebComponent. rewrite name_given, src_given.
  cbn [negb]. fold name src.
  rewrite (proj2 (find_none_count (ByTag name) (document st)) He).
  destruct (find (script_selector src) (document st)) as [q|] eqn:Hq; [done|].
  apply find_none_count in Hq. unfold count_scripts in Hs. lia.
Qed.

Hypothesis name_not_script : name ≠ "script".

Lemma script_element_counts :
  count (matches (ByTag name)) (script_element src) = 0%nat
  ∧ count (matches (script_selector src)) (script_element src) = 1%nat.
Proof using name_not_script.
  unfold script_element, script_selector. simpl. split.
  - destruct (String.eqb_spec "script" name) as [Heq|_]; [by destruct name_not_script|done].
  - rewrite (bool_decide_eq_true_2 (Some src = Some src)); done.
Qed.

(** X26. An element of the component type that is already in the document
    gets the script and stays alone.  For a request that names the component
    by an element name other than [script] and the script by a source that
    can stand between double quotes in a selector: when the first such
    element has no script tag of the source inside, [injectWebComponent]
    appends one to it: the document then has the same number of elements
    of the type and one more script tag of the source, nothing is
    scheduled, and a second call changes nothing. *)
Theorem existing_element_gets_the_script (st : dom) (q : list nat) (el : node) :
  find (ByTag name) (document st) = Some q →
  node_at q (document st) = Some el →
  querySelector (script_selector src) el = None →
  let st1 := injectWebComponent request st in
  document st1 = modify_at q (appendChild (script_element src)) (document st)
  ∧ count_elements name (document st1) = count_elements name (document st)
  ∧ count_scripts src (document st1) = S (count_scripts src (document st))
  ∧ retries st1 = retries st
  ∧ injectWebComponent request st1 = st1.
Proof using name_given src_given name_of_an_element src_quotable name_not_script.
  intros Hq Hat Hnone. cbv zeta.
  destruct script_element_counts as [Hc1 Hc2].
  assert (injectWebComponent request st
          = with_document
              (modify_at q (appendChild (script_element src)) (document st)) st)
    as Hfirst.
  { unfold injectWebComponent. rewrite name_given, src_given. cbn [negb].
    fold name src. rewrite Hq, Hat, Hnone.
    rewrite bool_decide_eq_true_2 by done.
    by destruct (find (script_selector src) (document st)). }
  rewrite Hfirst. cbn [document with_document retries].
  pose proof (count_modify_at (ByTag name) q (appendChild (script_element src))
                (document st) el Hat) as H1.
  pose proof (count_modify_at (script_selector src) q (appendChild (script_element src))
                (document st) el Hat) as H2.
  rewrite count_appendChild in H1, H2. rewrite Hc1 in H1. rewrite Hc2 in H2.
  unfold count_elements, count_scripts.
  split_and!; [done | lia | lia | done |].
  unfold injectWebComponent. rewrite name_given, src_given. cbn [negb].
  fold name src. cbn [document with_document].
  rewrite (find_modify_stable (ByTag name) (appendChild (script_element src)))
    by (by intros [? ? ?] || done).
  rewrite (node_at_modify q _ _ el Hat).
  assert (querySelector (script_selector src) (appendChild (script_element src) el)
          ≠ None) as Hsome.
  { intros Hn. apply querySelector_none_count in Hn.
    destruct el as [t a ks]. unfold appendChild in Hn. simpl in Hn.
    rewrite sum_list_with_app in Hn. simpl in Hn.
    rewrite (bool_decide_eq_true_2 (Some src = Some src)) in Hn by done.
    simpl in Hn. lia. }
  rewrite bool_decide_eq_false_2 by done.
  by destruct (find (script_selector src) _).
Qed.

(** X27. A component that is never defined is waited for without end.  For
    a request that names the component by an element name other than
    [script] and the script by a source that can stand between double
    quotes in a selector, with a type, id or attribute selector that
    resolves (or a selector that does not, on a document with a body):
    with a registry that does not know the name, on a document without the
    element and the script, the call schedules one retry, and every retry
    timer that fires schedules the next: after any number of them the
    document is as it was and exactly one retry is waiting.  As soon as the
    name is registered, the next timer places the element, and no retry is
    left. *)
Theorem undefined_component_is_awaited
    (st : dom) (registry : list string) (n : nat) :
  customElements st = Some registry →
  name ∉ registry →
  retries st = [] →
  count_elements name (document st) = 0%nat →
  count_scripts src (document st) = 0%nat →
  (∃ s t, r_selector request = Some s ∧ find s (document st) = Some t)
  ∨ (r_selector request ≫= (λ s, find s (document st)) = None
     ∧ is_Some (body_path (document st))) →
  let waiting := inject_run request (Call :: replicate n RetryTimer) st in
  let placed := inject_run request [Define name; RetryTimer] waiting in
  waiting = {| document := document st; customElements := customElements st;
               retries := [request] |}
  ∧ count_elements name (document placed) = 1%nat
  ∧ count_scripts src (document placed) = 1%nat
  ∧ retries placed = [].
Proof using name_given src_given name_of_an_element src_quotable name_not_script.
  intros Hreg Hnot Hret He Hs Hplace. cbv zeta.
  set (w := {| document := document st; customElements := customElements st;
               retries := [request] |}).
  assert (createCustomElement request
            {| document := document st; customElements := customElements st;
               retries := [] |} = w) as Hcreate.
  { unfold createCustomElement. cbn [customElements retries document]. rewrite Hreg.
    fold name. rewrite bool_decide_eq_false_2 by done. cbn [negb app].
    unfold w. by rewrite Hreg. }
  assert (inject_run request (Call :: replicate n RetryTimer) st = w) as Hwait.
  { cbn [inject_run inject_step].
    assert (injectWebComponent request st = w) as ->.
    { unfold injectWebComponent. rewrite name_given, src_given. cbn [negb].
      fold name src.
      rewrite (proj2 (find_none_count (script_selector src) (document st)) Hs).
      rewrite (proj2 (find_none_count (ByTag name) (document st)) He).
      destruct st as [doc reg ret]. simpl in *. subst ret. exact Hcreate. }
    induction n as [|n IH]; [done|].
    cbn [replicate inject_run inject_step]. unfold retry at 1.
    cbn [retries document customElements w]. fold w. by rewrite Hcreate. }
  rewrite Hwait. split; [done|].
  cbn [inject_run inject_step]. unfold define, retry.
  cbn [retries document customElements w fmap option_fmap option_map].
  rewrite Hreg. cbn [fmap option_fmap option_map].
  set (st0 := {| document := document st; customElements := Some (name :: registry);
                 retries := [] |}).
  destruct (createCustomElement_first name src name_not_script request st0
              eq_refl eq_refl) as (H1 & H2 & _ & _ & H5); try done.
  unfold ready. simpl. rewrite bool_decide_eq_true_2; [done|]. by left.
Qed.

End InjectionFurther.
(** ** Worked instances *)

(** From here on the browser is the stand-in of the examples. *)
#[local] Existing Instance Examples.browser.

(** The fallback configuration names the panel, and a message from the
    panel reaches its handler. *)
Example trusted_origin_of_settings :
  getConfig Examples.settings "sidebar.iframeSrc" JNull
  = JStr "https://add-functions-codelution_chrome_extension.toddle.site/"
  ∧ getConfig Examples.settings "sidebar.missing.key" (JNum 3) = JNum 3
  ∧ getTrustedOrigin Examples.settings = Examples.panel_origin
  ∧ window_message_listener Examples.settings
      {| origin := Examples.panel_origin; data := Examples.remove_body |}
    = Some (HandleDomManipulation (JStr "body") (JStr "removeElement") JUndefined).
Proof. vm_compute. done. Qed.

(** C2. The content script drops a message from [https://evil.example],
    but the [manipulate-dom] listener of the side panel never looks at the
    origin: the same message is sent on to the tab, where the runtime
    listener of the content script takes it to the branch that removes the
    element it names. *)
Lemma sidebar_forwards_untrusted_message :
  let event := {| origin := "https://evil.example"; data := Examples.remove_body |} in
  let request := JObj [("type", JStr "manipulateDom"); ("selector", JStr "body");
                       ("action", JStr "removeElement"); ("value", JUndefined)] in
  origin_accepted Examples.settings (origin event) = false
  ∧ window_message_listener Examples.settings event = None
  ∧ Sidebar.window_message_listeners {| Sidebar.active_tab := Some 7%nat;
                                         Sidebar.frame := true |} event
    = [Sidebar.TabsSendMessage 7 request]
  ∧ runtime_message_listener request = Some (HandleManipulateDomRequest request)
  ∧ handleManipulateDomRequest request = RemoveElement (JStr "body").
Proof. vm_compute. done. Qed.

(** C9. The [observe-dom-value] listener of the side panel sends
    [iframeSelector] where its sibling sends [watchId]: a watch registered
    with [watchId: "w1"] reaches the content script without an id, the
    notification goes out with [watchId] undefined, and the relay of the
    side panel, which asks for a [watchId], passes nothing to the panel. *)
Lemma observe_dom_value_route_loses_watchId :
  let event := {| origin := Examples.panel_origin;
                  data := Examples.observe_name "observe-dom-value" |} in
  let e := {| Sidebar.active_tab := Some 7%nat; Sidebar.frame := true |} in
  let request := JObj [("type", JStr "manipulateDom"); ("action", JStr "observeDomValue");
                       ("selector", JStr "#name"); ("attribute", JStr "value");
                       ("eventType", JStr "input"); ("iframeSelector", JUndefined)] in
  let notification :=
    domValueChanged (JStr "#name") (JStr "value") (JStr "a") JUndefined in
  get "watchId" (data event) = JStr "w1"
  ∧ Sidebar.window_message_listeners e event = [Sidebar.TabsSendMessage 7 request]
  ∧ get "watchId" request = JUndefined
  ∧ outbox (runtime_message_on_page request Examples.sample_page)
    = [RuntimeSend notification]
  ∧ Sidebar.domValueChanged_relay e notification = [].
Proof. vm_compute. done. Qed.

(** The same watch through [start-dom-observer] keeps its id all the way. *)
Lemma start_dom_observer_route_keeps_watchId :
  let event := {| origin := Examples.panel_origin;
                  data := Examples.observe_name "start-dom-observer" |} in
  let e := {| Sidebar.active_tab := Some 7%nat; Sidebar.frame := true |} in
  let notification :=
    domValueChanged (JStr "#name") (JStr "value") (JStr "a") (JStr "w1") in
  ∃ request,
    Sidebar.window_message_listeners e event = [Sidebar.TabsSendMessage 7 request]
    ∧ outbox (runtime_message_on_page request Examples.sample_page)
      = [RuntimeSend notification]
    ∧ Sidebar.domValueChanged_relay e notification
      = [Sidebar.PostToIframe notification "*"].
Proof. eexists. vm_compute. done. Qed.



(** C5. The stale reset of the background script writes [sidebarOpen] alone:
    run ten minutes after the panel was opened, it leaves [lastStateChange]
    at the old time and [sidebarUrl] as it was, where the content script, on
    the same record, writes all three keys with the current time. *)
Lemma background_reset_writes_one_key :
  let now := 1000 + 10 * 60 * 1000 in
  let store' := (Background.restore_check now 7 Examples.opened_store).1 in
  let st := {| storage := Examples.opened_store; href := "https://example.org/page";
               wrapper := None; tasks := [] |} in
  let st' := restoreSidebarState Examples.settings now st in
  store' = Storage.set [("sidebarOpen", JBool false)] Examples.opened_store
  ∧ store' !! "sidebarOpen" = Some (JBool false)
  ∧ store' !! "lastStateChange" = Some (JNum 1000)
  ∧ store' !! "sidebarUrl" = Some (JStr "https://example.org/")
  ∧ storage st' !! "sidebarOpen" = Some (JBool false)
  ∧ storage st' !! "lastStateChange" = Some (JNum now)
  ∧ storage st' !! "sidebarUrl" = Some (JStr "https://example.org/page").
Proof. vm_compute. done. Qed.


(** A [pushState] from [/a] to [/b], then a [popstate], a title change
    with its settle timer and a poll tick: one announcement. *)
Lemma navigation_announced_exactly_once_witness :
  let st := Examples.nav_start in
  let es := (0, PushState (NewUrl "https://app.example/b")) :: Examples.nav_signals in
  let st' := nav_run Examples.settings es st in
  announced st' = 1%nat ∧ announced_to_panel st' = 1%nat
  ∧ currentUrl st' = "https://app.example/b".
Proof.
  destruct (navigation_announced_exactly_once Examples.settings Examples.nav_start
              "https://app.example/b" 0 (PushState (NewUrl "https://app.example/b"))
              Examples.nav_signals) as (Ha & _ & Hc & _).
  - reflexivity.
  - discriminate.
  - reflexivity.
  - repeat constructor.
  - reflexivity.
  - split_and!; [exact Ha | vm_compute; reflexivity | exact Hc].
Defined.

(** Before the configuration is loaded a message from the panel itself is
    dropped. *)
Lemma unconfigured_listener_drops_messages_witness :
  Examples.panel_origin ≠ ""
  ∧ window_message_listener JNull
      {| origin := Examples.panel_origin; data := Examples.remove_body |} = None.
Proof.
  split; [discriminate|].
  apply (unconfigured_listener_drops_messages
           {| origin := Examples.panel_origin; data := Examples.remove_body |}).
  discriminate.
Defined.



(** A record written at time 1000, read ten minutes and one minute later
    against the five-minute window. *)
Lemma restore_evaluation_witness :
  let ten_minutes_later := 1000 + 10 * 60 * 1000 in
  let one_minute_later := 1000 + 1 * 60 * 1000 in
  let stale := restoreSidebarState Examples.settings ten_minutes_later Examples.reloaded in
  let fresh := restoreSidebarState Examples.settings one_minute_later Examples.reloaded in
  (tasks stale = [] ∧ wrapper stale = None
   ∧ Storage.read "sidebarOpen" (storage stale) = JBool false)
  ∧ (tasks fresh = [RestoreIfAbsent]
     ∧ wrapper (run_next (one_minute_later + 300)
                  (run_next (one_minute_later + 250) fresh)) = Some true).
Proof.
  split.
  - destruct (restore_evaluation Examples.settings (1000 + 10 * 60 * 1000) 5 1000
                Examples.reloaded) as (Hstale & _ & _).
    + reflexivity.
    + reflexivity.
    + lia.
    + apply Hstale; [reflexivity | lia].
  - destruct (restore_evaluation Examples.settings (1000 + 1 * 60 * 1000) 5 1000
                Examples.reloaded) as (_ & Hfresh & _).
    + reflexivity.
    + reflexivity.
    + lia.
    + destruct Hfresh as (Ht & _ & _ & Hopen); [reflexivity | lia |].
      split; [exact Ht|].
      apply (Hopen eq_refl eq_refl (1000 + 1 * 60 * 1000 + 250)
                   (1000 + 1 * 60 * 1000 + 300)).
Defined.

(** C6, on the other two paths.  The configuration sets the restore
    window to one minute and the record is two minutes old, so the restore
    evaluation has to leave the panel closed and rewrite the flag, as
    [restoreSidebarState] does.  The [onUpdated] listener of the background
    script and the [checkSidebarState] branch compare with five minutes
    whatever the configuration says: the listener takes the record for
    recent and asks for the check, and the check reopens the panel and
    saves it as open. *)
Lemma state_check_ignores_restore_window :
  let config := JObj [("behavior", JObj [("autoRestoreTimeMinutes", JNum 1)])] in
  let now := 1000 + 2 * 60 * 1000 in
  let restored := restoreSidebarState config now Examples.reloaded in
  let asked := Background.restore_check now 7 (storage Examples.reloaded) in
  let checked := checkSidebarState now Examples.reloaded in
  let opened := run_next (now + 150) (run_next (now + 100) checked) in
  getConfig config "behavior.autoRestoreTimeMinutes" (JNum 5) = JNum 1
  ∧ Storage.read "sidebarOpen" (storage Examples.reloaded) = JBool true
  ∧ Storage.read "lastStateChange" (storage Examples.reloaded) = JNum (now - 2 * 60 * 1000)
  ∧ (tasks restored = [] ∧ wrapper restored = None
     ∧ Storage.read "sidebarOpen" (storage restored) = JBool false)
  ∧ asked = (storage Examples.reloaded,
             [Background.TabsSendMessage 7 (JObj [("action", JStr "checkSidebarState")])])
  ∧ runtime_message_listener (JObj [("action", JStr "checkSidebarState")])
    = Some CheckSidebarState
  ∧ tasks checked = [ToggleLater]
  ∧ wrapper opened = Some true
  ∧ Storage.read "sidebarOpen" (storage opened) = JBool true.
Proof. vm_compute. done. Qed.

(** [x-widget] is not registered when the two calls come: both wait; once
    it is registered and the two timers have fired there is one element
    and one script tag. *)
Lemma inject_twice_exactly_one_witness :
  let es := [Define "x-widget"; RetryTimer; RetryTimer] in
  let st2 := inject_run Examples.widget_request [Call; Call] Examples.waiting_page in
  let st' := inject_run Examples.widget_request es st2 in
  retries st2 = [Examples.widget_request; Examples.widget_request]
  ∧ count_elements "x-widget" (document st2) = 0%nat
  ∧ retries st' = []
  ∧ count_elements "x-widget" (document st') = 1%nat
  ∧ count_scripts "a.js" (document st') = 1%nat.
Proof.
  destruct (inject_twice_exactly_one Examples.widget_request Examples.waiting_page
              [Define "x-widget"; RetryTimer; RetryTimer]) as (_ & _ & Hone & _).
  - reflexivity.
  - reflexivity.
  - reflexivity.
  - reflexivity.
  - discriminate.
  - reflexivity.
  - reflexivity.
  - reflexivity.
  - vm_compute. eauto.
  - reflexivity.
  - destruct Hone as [H1 H2]; [reflexivity|].
    split_and!; [reflexivity | reflexivity | reflexivity | exact H1 | exact H2].
Defined.

(** C7, as the claim has it, fails: [inject("x-widget", "a.js", "#root",
    "append")] is called twice while [x-widget] is not registered.  Both
    calls put the creation off, and the document holds no [<x-widget>]
    element and no script tag of [a.js], where the claim has exactly one
    of each. *)
Lemma two_calls_before_definition_place_nothing :
  let st2 := inject_run Examples.widget_request [Call; Call] Examples.waiting_page in
  customElements Examples.waiting_page = Some []
  ∧ document st2 = Examples.root_page
  ∧ count_elements "x-widget" (document st2) = 0%nat
  ∧ count_scripts "a.js" (document st2) = 0%nat
  ∧ retries st2 = [Examples.widget_request; Examples.widget_request].
Proof. vm_compute. done. Qed.

(** ** Worked instances of the further properties *)

Lemma sample_page_plain : Actions.plain_page Examples.sample_page.
Proof.
  intros el e k v He Hv. unfold Examples.sample_page in He. simpl in He.
  apply lookup_singleton_Some in He as [<- <-]. simpl in Hv.
  apply lookup_singleton_Some in Hv as [<- <-]. reflexivity.
Qed.

Lemma sample_page_data : Actions.data_page Examples.sample_page.
Proof.
  intros el e k v He Hv. unfold Examples.sample_page in He. simpl in He.
  apply lookup_singleton_Some in He as [<- <-]. simpl in Hv.
  apply lookup_singleton_Some in Hv as [<- <-]. reflexivity.
Qed.


(** [appendHTML] on the text field: done on the runtime route, dropped on
    the window route. *)
Lemma adjacent_html_on_runtime_route_only_witness :
  Actions.runtime_route Examples.sample_page
    (JObj [("type", JStr "manipulateDom"); ("selector", JStr "#name");
           ("action", JStr "appendHTML"); ("value", JStr "<b>x</b>")])
  = [(1%nat, Actions.InsertAdjacentHTML "beforeend" (JStr "<b>x</b>"))]
  ∧ Actions.handleDomManipulation Examples.sample_page (JStr "#name")
      (JStr "appendHTML") (JStr "<b>x</b>") = [].
Proof.
  apply (adjacent_html_on_runtime_route_only Examples.sample_page (JStr "#name")
           (JStr "<b>x</b>") 1 "appendHTML" "beforeend").
  - reflexivity.
  - repeat constructor.
Defined.

(** A click on a selector that finds nothing. *)
Lemma dom_action_without_target_or_case_witness :
  let request := JObj [("type", JStr "manipulateDom"); ("selector", JStr "#missing");
                       ("action", JStr "click"); ("value", JNull)] in
  Actions.handleDomManipulation Examples.sample_page (JStr "#missing") (JStr "click")
    JNull = []
  ∧ Actions.performDomAction Examples.sample_page request = []
  ∧ Actions.handleManipulateDomRequest_calls Examples.sample_page request = [].
Proof.
  destruct (dom_action_without_target_or_case Examples.sample_page (JStr "#missing")
              (JStr "click") JNull) as (Habsent & _ & _).
  apply Habsent. reflexivity.
Defined.

(** The text field is watched and changed to ["b"]; [input] and [change]
    arrive twice. *)
Lemma events_again_are_silent_witness :
  let watched := handleDomObserver Examples.settings (JStr "#name") (JStr "value")
                   (JStr "input") (JStr "w1") Examples.sample_page in
  let p := set_prop 1 "value" (JStr "b") watched in
  let events := [(OnEvent "input", 1%nat); (OnEvent "change", 1%nat)] in
  Actions.deliver_all Examples.settings events
    (Actions.deliver_all Examples.settings events p)
  = Actions.deliver_all Examples.settings events p.
Proof.
  apply events_again_are_silent.
  apply set_prop_plain; [|reflexivity].
  apply (plain_page_elements Examples.sample_page);
    [apply handleDomObserver_elements | apply sample_page_plain].
Defined.

(** The watched text field is set to ["b"] twice; a text field reads
    what was written. *)
Lemma set_input_value_again_is_silent_witness :
  let watched := handleDomObserver Examples.settings (JStr "#name") (JStr "value")
                   (JStr "input") (JStr "w1") Examples.sample_page in
  Actions.setInputValue Examples.settings 1 [0%nat] Some (JStr "b")
    (Actions.setInputValue Examples.settings 1 [0%nat] Some (JStr "b") watched)
  = Actions.setInputValue Examples.settings 1 [0%nat] Some (JStr "b") watched.
Proof.
  apply set_input_value_again_is_silent.
  - apply (plain_page_elements Examples.sample_page);
      [apply handleDomObserver_elements | apply sample_page_plain].
  - intros written [= <-]. reflexivity.
Defined.

(** A watch on [value] without an event type, then [setInputValue] with
    ["b"] on the text field, which reads what was written. *)
Lemma set_input_value_reaches_value_watch_witness :
  let watched := handleDomObserver Examples.settings (JStr "#name") (JStr "value")
                   JUndefined (JStr "w1") Examples.sample_page in
  Actions.handleDomManipulation watched (JStr "#name") (JStr "setInputValue") (JStr "b")
  = [(1%nat, Actions.SetValue (JStr "b")); (1%nat, Actions.DispatchEvent "input");
     (1%nat, Actions.DispatchEvent "change")]
  ∧ Content.PostToIframe
      (JObj [("type", JStr "domValueChanged"); ("selector", JStr "#name");
             ("attribute", JStr "value"); ("value", JStr "b"); ("watchId", JStr "w1")])
      (getTrustedOrigin Examples.settings)
    ∈ outbox (Actions.setInputValue Examples.settings 1 [0%nat] Some (JStr "b") watched).
Proof.
  apply (set_input_value_reaches_value_watch Examples.settings Examples.sample_page
           (JStr "#name") JUndefined (JStr "w1") 1 9 Examples.name_field [0%nat]
           Some (JStr "b") (JStr "a") (JStr "b")).
  - reflexivity.
  - reflexivity.
  - reflexivity.
  - reflexivity.
  - reflexivity.
  - vm_compute. discriminate.
  - vm_compute. discriminate.
  - reflexivity.
  - reflexivity.
  - reflexivity.
  - reflexivity.
  - reflexivity.
  - reflexivity.
  - reflexivity.
Defined.

(** A watch is started, the field changes and an [input] event arrives,
    the panel asks for the tab. *)
Lemma page_posts_carry_trusted_origin_witness :
  let es :=
    [Actions.WindowMessage
       {| origin := Examples.panel_origin;
          data := Examples.observe_name "start-dom-observer" |}
       "https://example.org/" "Example" 5;
     Actions.Writes 1 "value" (JStr "b");
     Actions.Fires (OnEvent "input") 1;
     Actions.WindowMessage
       {| origin := Examples.panel_origin; data := JObj [("type", JStr "get-tab-info")] |}
       "https://example.org/" "Example" 9] in
  Actions.addressed_to (getTrustedOrigin Examples.settings)
    (outbox (Actions.page_run Examples.settings es Examples.sample_page)).
Proof. apply page_posts_carry_trusted_origin. reflexivity. Defined.

(** The navigation from [/a] to [/b] with its signals. *)
Lemma url_changes_form_a_chain_witness :
  let es := (0, PushState (NewUrl "https://app.example/b")) :: Examples.nav_signals in
  let st' := nav_run Examples.settings es Examples.nav_start in
  UrlTrace.chain_end (currentUrl Examples.nav_start)
    (UrlTrace.url_changes (nav_outbox st'))
  = Some (currentUrl st').
Proof.
  apply (url_changes_form_a_chain Examples.settings
           ((0, PushState (NewUrl "https://app.example/b")) :: Examples.nav_signals)
           Examples.nav_start).
  reflexivity.
Defined.

Lemma nav_posts_carry_trusted_origin_witness :
  let es := (0, PushState (NewUrl "https://app.example/b")) :: Examples.nav_signals in
  Actions.addressed_to (getTrustedOrigin Examples.settings)
    (nav_outbox (nav_run Examples.settings es Examples.nav_start)).
Proof. apply nav_posts_carry_trusted_origin. reflexivity. Defined.


(** Opened at 1000, reloaded at another address, restored a minute
    later. *)
Lemma opened_panel_returns_after_reload_witness :
  let st := {| storage := ∅; href := "https://example.org/"; wrapper := Some false;
               tasks := [] |} in
  let opened := toggleCustomSidebar 1000 st in
  let back :=
    run_next 61300
      (run_next 61250
         (restoreSidebarState Examples.settings 61000
            (PanelTrace.reload "https://example.org/next" opened))) in
  wrapper back = Some true
  ∧ Storage.read "sidebarUrl" (storage back) = JStr "https://example.org/next".
Proof.
  destruct (opened_panel_returns_after_reload Examples.settings 1000 2000 61000 61250
              61300 5 "https://example.org/next"
              {| storage := ∅; href := "https://example.org/"; wrapper := Some false;
                 tasks := [] |}) as (_ & Hshown & _ & _ & Hurl & _).
  - reflexivity.
  - reflexivity.
  - lia.
  - lia.
  - split; [exact Hshown | exact Hurl].
Defined.

(** A window of thirty minutes, a record ten minutes old. *)
Lemma long_restore_window_cut_short_witness :
  let config := JObj [("behavior", JObj [("autoRestoreTimeMinutes", JNum 30)])] in
  let now := 1000 + 10 * 60 * 1000 in
  let checked := Background.restore_check now 7 (storage Examples.reloaded) in
  tasks (restoreSidebarState config now Examples.reloaded) = [RestoreIfAbsent]
  ∧ checked.2 = [].
Proof.
  destruct (long_restore_window_cut_short
              (JObj [("behavior", JObj [("autoRestoreTimeMinutes", JNum 30)])])
              (1000 + 10 * 60 * 1000) (1000 + 10 * 60 * 1000 + 500) 30 1000 7
              Examples.reloaded) as (Hcontent & Hbackground & _).
  - reflexivity.
  - reflexivity.
  - reflexivity.
  - lia.
  - lia.
  - lia.
  - split; [exact Hcontent | exact Hbackground].
Defined.

(** A window of one minute, a record two minutes old. *)
Lemma short_restore_window_stretched_witness :
  let config := JObj [("behavior", JObj [("autoRestoreTimeMinutes", JNum 1)])] in
  let now := 1000 + 2 * 60 * 1000 in
  tasks (restoreSidebarState config now Examples.reloaded) = []
  ∧ tasks (checkSidebarState now Examples.reloaded) = [ToggleLater].
Proof.
  destruct (short_restore_window_stretched
              (JObj [("behavior", JObj [("autoRestoreTimeMinutes", JNum 1)])])
              (1000 + 2 * 60 * 1000) 1 1000 7 Examples.reloaded)
    as (_ & Hcontent & _ & Hcheck).
  - reflexivity.
  - reflexivity.
  - reflexivity.
  - reflexivity.
  - lia.
  - lia.
  - lia.
  - split; [exact Hcontent | exact Hcheck].
Defined.

(** Two keys of the fallback configuration. *)
Lemma getConfig_follows_the_keys_witness :
  getConfig Examples.settings "behavior.minWidth" (JNum 0) = JNum 250.
Proof.
  apply (getConfig_follows_the_keys Examples.settings ["behavior"; "minWidth"] (JNum 0)).
  - reflexivity.
  - discriminate.
  - repeat constructor.
  - repeat constructor.
Defined.

(** The value of the text field, asked for through the side panel. *)
Lemma side_panel_dom_info_is_null_witness :
  let d := JObj [("type", JStr "get-dom-info"); ("selector", JStr "#name");
                 ("attribute", JStr "value"); ("requestId", JStr "r1")] in
  let e := {| Sidebar.active_tab := Some 7%nat; Sidebar.frame := true |} in
  ∃ request,
    Sidebar.get_dom_info_listener e {| origin := Examples.panel_origin; data := d |}
    = [Sidebar.TabsSendMessage 7 request]
    ∧ Actions.runtime_route Examples.sample_page request = []
    ∧ runtime_message_on_page request Examples.sample_page = Examples.sample_page
    ∧ Sidebar.get_dom_info_callback e d (Actions.runtime_response request JNull)
      = [Sidebar.PostToIframe
           (JObj [("type", JStr "dom-info-result"); ("selector", get "selector" d);
                  ("attribute", get "attribute" d); ("value", JNull);
                  ("requestId", get "requestId" d)]) "*"].
Proof.
  apply (side_panel_dom_info_is_null Examples.sample_page _ 7 _ JNull
           Examples.panel_origin); reflexivity.
Defined.


(** [openSidebar] from tab 7. *)
Lemma background_messages_to_the_tab_witness :
  BackgroundListener.to_tab 7
    (BackgroundListener.runtime_listener (JObj [("action", JStr "openSidebar")])
       (Some 7%nat) (Some 3%nat)).1
  = [JObj [("action", JStr "showCustomSidebar")]].
Proof.
  destruct (background_messages_to_the_tab (JObj [("action", JStr "openSidebar")])
              (Some 7%nat) (Some 3%nat) 7) as (_ & Hopen & _).
  apply Hopen; reflexivity.
Defined.

Section ResizeInstance.
Import QArith_base.

(** A window 200 wide with a panel of 400 and a lower bound of 250: the
    new upper bound is 180. *)
Lemma window_resize_ignores_min_width_witness :
  let d := {| Resize.dragging := false; Resize.startX := inject_Z 0;
              Resize.startWidth := inject_Z 0; Resize.minWidth := inject_Z 250;
              Resize.maxWidth := inject_Z 900 |} in
  let resized := Resize.window_resize (inject_Z 180) (inject_Z 400) d in
  resized.2 = Some (inject_Z 180)
  ∧ Resize.maxWidth resized.1 = inject_Z 180
  ∧ Resize.minWidth resized.1 = inject_Z 250
  ∧ ∃ w, Resize.resizeMove (inject_Z 10)
           (Resize.mousedown (inject_Z 10) (inject_Z 180) resized.1) = Some w
         ∧ Qeq w (inject_Z 250).
Proof.
  apply (window_resize_ignores_min_width
           {| Resize.dragging := false; Resize.startX := inject_Z 0;
              Resize.startWidth := inject_Z 0; Resize.minWidth := inject_Z 250;
              Resize.maxWidth := inject_Z 900 |}
           (inject_Z 180) (inject_Z 400) (inject_Z 10) (inject_Z 10)).
  - reflexivity.
  - reflexivity.
Defined.

End ResizeInstance.

(** The page loads [a.js] in its head. *)
Lemma script_tag_alone_stops_injection_witness :
  let st := {| document :=
                 Elem "html" []
                   [Elem "head" [] [Elem "script" [("src", "a.js")] []];
                    Elem "body" [] [Elem "div" [("id", "root")] []]];
               customElements := None; retries := [] |} in
  injectWebComponent Examples.widget_request st = st.
Proof.
  apply (script_tag_alone_stops_injection Examples.widget_request).
  - reflexivity.
  - reflexivity.
  - reflexivity.
  - reflexivity.
  - reflexivity.
  - vm_compute. lia.
Defined.

(** The page has [<x-widget>] in its body, without the script. *)
Lemma existing_element_gets_the_script_witness :
  let st := {| document :=
                 Elem "html" [] [Elem "head" [] []; Elem "body" [] [Elem "x-widget" [] []]];
               customElements := None; retries := [] |} in
  let st1 := injectWebComponent Examples.widget_request st in
  count_elements "x-widget" (document st1) = 1%nat
  ∧ count_scripts "a.js" (document st1) = 1%nat
  ∧ injectWebComponent Examples.widget_request st1 = st1.
Proof.
  destruct (existing_element_gets_the_script Examples.widget_request eq_refl eq_refl
              eq_refl eq_refl ltac:(discriminate)
              {| document :=
                   Elem "html" []
                     [Elem "head" [] []; Elem "body" [] [Elem "x-widget" [] []]];
                 customElements := None; retries := [] |}
              [1%nat; 0%nat] (Elem "x-widget" [] []))
    as (_ & Hel & Hsc & _ & Hagain).
  - reflexivity.
  - reflexivity.
  - reflexivity.
  - split_and!; [exact Hel | exact Hsc | exact Hagain].
Defined.

(** [x-widget] is not registered: three timers later the request still
    waits; then it is registered and the next timer places it. *)
Lemma undefined_component_is_awaited_witness :
  let waiting :=
    inject_run Examples.widget_request (Call :: replicate 3 RetryTimer)
      Examples.waiting_page in
  let placed := inject_run Examples.widget_request [Define "x-widget"; RetryTimer] waiting in
  waiting = {| document := Examples.root_page; customElements := Some [];
               retries := [Examples.widget_request] |}
  ∧ count_elements "x-widget" (document placed) = 1%nat
  ∧ count_scripts "a.js" (document placed) = 1%nat
  ∧ retries placed = [].
Proof.
  apply (undefined_component_is_awaited Examples.widget_request eq_refl eq_refl
           eq_refl eq_refl ltac:(discriminate) Examples.waiting_page [] 3).
  - reflexivity.
  - apply not_elem_of_nil.
  - reflexivity.
  - reflexivity.
  - reflexivity.
  - left. by exists (ById "root"), [1%nat; 0%nat].
Defined.

(** [x-widget] takes the place of [#root]; the second call changes
    nothing. *)
Lemma inject_twice_when_ready_witness :
  let request := {| r_name := JStr "x-widget"; r_src := JStr "a.js";
                    r_selector := Some (ById "root"); r_placement := JStr "replace" |} in
  let st := {| document := Examples.root_page; customElements := None; retries := [] |} in
  let st1 := injectWebComponent request st in
  let st2 := injectWebComponent request st1 in
  count_elements "x-widget" (document st2) = 1%nat
  ∧ count_scripts "a.js" (document st2) = 1%nat
  ∧ st2 = st1.
Proof.
  apply (inject_twice_when_ready
           {| r_name := JStr "x-widget"; r_src := JStr "a.js";
              r_selector := Some (ById "root"); r_placement := JStr "replace" |}
           {| document := Examples.root_page; customElements := None; retries := [] |}).
  - reflexivity.
  - reflexivity.
  - reflexivity.
  - reflexivity.
  - discriminate.
  - reflexivity.
  - reflexivity.
  - reflexivity.
  - left. by exists (ById "root"), [1%nat; 0%nat].
Defined.


(** The text field is watched as [w1]; it changes to ["b"] and to ["c"],
    with an [input] event each time. *)
Lemma watch_routes_report_alike_witness :
  let e := {| Sidebar.active_tab := Some 7%nat; Sidebar.frame := true |} in
  let d := Examples.observe_name "start-dom-observer" in
  let es := [Actions.Writes 1 "value" (JStr "b"); Actions.Fires (OnEvent "input") 1;
             Actions.Writes 1 "value" (JStr "c"); Actions.Fires (OnEvent "input") 1] in
  ∃ request,
    Sidebar.start_dom_observer_listener e {| origin := Examples.panel_origin; data := d |}
    = [Sidebar.TabsSendMessage 7 request]
    ∧ Actions.heard e
        (outbox (Actions.page_run Examples.settings
                   (Actions.WindowMessage
                      {| origin := getTrustedOrigin Examples.settings; data := d |}
                      "https://example.org/" "Example" 5 :: es)
                   Examples.sample_page))
      = Actions.heard e
          (outbox (Actions.page_run Examples.settings
                     (Actions.RuntimeMessage request :: es) Examples.sample_page)).
Proof.
  eapply (watch_routes_report_alike Examples.settings
            {| Sidebar.active_tab := Some 7%nat; Sidebar.frame := true |}).
  - vm_compute. discriminate.
  - vm_compute. discriminate.
  - reflexivity.
  - reflexivity.
  - reflexivity.
  - reflexivity.
  - reflexivity.
  - reflexivity.
  - reflexivity.
  - reflexivity.
  - reflexivity.
  - reflexivity.
  - apply sample_page_data.
  - repeat constructor.
Defined.
